(** * A shallow embedding of [modules/dice/dice.py]

    The dice-notation interpreter of the bot: five item classes ([Dice],
    [FudgeDice], [BonusPunishDice], [WODDice], [DXDice]), each with a
    constructor ([__init__] calling [get_args]) and a [roll] method, plus the
    shared number formatter [fmt_num].

    Conventions of the embedding.
    - Python [int] is [Z]; list indices and loop counters that come from
      [range] are [nat]; Python [str] is [string].  Notation strings are taken
      to be ASCII (one [ascii] per character), so [len] is [String.length].
    - The four [Config] values are passed explicitly as a record.
    - [core.utils.random.Random] is an external collaborator: it is a type
      class [RandomSource] over an abstract source state, threaded through
      every [roll].
    - Exceptions are the [Raise] outcome of [Res]; a [while] loop runs on
      fuel and reports [Running] when the fuel is used up before the loop
      condition turns false. *)

From Stdlib Require Import ZArith List String Ascii Bool Lia Arith Permutation Sorted.
Import ListNotations.

Local Open Scope string_scope.
Local Open Scope Z_scope.

(** ** Python primitives on strings and integers *)

Module Py.

Definition is_digit (c : ascii) : bool :=
  let n := nat_of_ascii c in ((48 <=? n) && (n <=? 57))%nat.

Definition is_lower (c : ascii) : bool :=
  let n := nat_of_ascii c in ((97 <=? n) && (n <=? 122))%nat.

Definition upper_char (c : ascii) : ascii :=
  if is_lower c then ascii_of_nat (nat_of_ascii c - 32) else c.

(** [s.upper()] *)
Fixpoint upper (s : string) : string :=
  match s with
  | EmptyString => EmptyString
  | String c r => String (upper_char c) (upper r)
  end.

(** [len(s)] *)
Definition len (s : string) : Z := Z.of_nat (String.length s).

(** [c in s] for a one-character [c] *)
Fixpoint contains (c : ascii) (s : string) : bool :=
  match s with
  | EmptyString => false
  | String a r => Ascii.eqb a c || contains c r
  end.

(** [re.search("[^...]", s)] for a character class given as a predicate:
    is there a character outside the class? *)
Fixpoint search_outside (allowed : ascii -> bool) (s : string) : bool :=
  match s with
  | EmptyString => false
  | String a r => negb (allowed a) || search_outside allowed r
  end.

(** If [p] is a prefix of [s], what follows it. *)
Fixpoint strip_prefix (p s : string) : option string :=
  match p, s with
  | EmptyString, _ => Some s
  | String a p', String b s' => if Ascii.eqb a b then strip_prefix p' s' else None
  | String _ _, EmptyString => None
  end.

Fixpoint replace_fuel (fuel : nat) (old new s : string) : string :=
  match fuel with
  | O => s
  | S f =>
      match strip_prefix old s with
      | Some rest => new ++ replace_fuel f old new rest
      | None =>
          match s with
          | EmptyString => EmptyString
          | String a r => String a (replace_fuel f old new r)
          end
      end
  end.

(** [s.replace(old, new)] for a non-empty [old]: leftmost occurrences,
    not overlapping.  Each step consumes at least one character of [s]. *)
Definition replace (old new s : string) : string :=
  match old with
  | EmptyString => s
  | _ => replace_fuel (String.length s) old new s
  end.

(** [s.split(c)] for a one-character separator: never the empty list. *)
Fixpoint split (c : ascii) (s : string) : list string :=
  match s with
  | EmptyString => [EmptyString]
  | String a r =>
      if Ascii.eqb a c then EmptyString :: split c r
      else match split c r with
           | [] => [String a EmptyString]
           | h :: t => String a h :: t
           end
  end.

(** [s.partition(c)] for a one-character separator. *)
Fixpoint partition (c : ascii) (s : string) : string * string * string :=
  match s with
  | EmptyString => (EmptyString, EmptyString, EmptyString)
  | String a r =>
      if Ascii.eqb a c then (EmptyString, String c EmptyString, r)
      else let '(h, m, t) := partition c r in
           if contains c r then (String a h, m, t)
           else (String a r, EmptyString, EmptyString)
  end.

(** The longest prefix of decimal digits, and the rest: what [\d+] or [\d*]
    consumes (greedy). *)
Fixpoint span_digits (s : string) : string * string :=
  match s with
  | EmptyString => (EmptyString, EmptyString)
  | String a r =>
      if is_digit a then let (d, t) := span_digits r in (String a d, t)
      else (EmptyString, s)
  end.

Fixpoint all_digits (s : string) : bool :=
  match s with
  | EmptyString => true
  | String a r => is_digit a && all_digits r
  end.

Definition digit_val (c : ascii) : Z := Z.of_nat (nat_of_ascii c - 48).

Fixpoint int_acc (acc : Z) (s : string) : Z :=
  match s with
  | EmptyString => acc
  | String a r => int_acc (10 * acc + digit_val a) r
  end.

(** [int(s)]: [Some] for a non-empty run of decimal digits with an optional
    sign before it, [None] (Python's [ValueError]) otherwise.  The blanks
    around a number and the underscores inside one, which [int] would also
    accept, cannot reach it: neither the alphabet checks of the parsers nor
    [str] of an [int] produce them.  The ceiling that recent Python versions
    put on the number of digits [int] converts is not modelled. *)
Definition int_digits (s : string) : option Z :=
  match s with
  | EmptyString => None
  | _ => if all_digits s then Some (int_acc 0 s) else None
  end.

Definition int (s : string) : option Z :=
  match s with
  | String "-" r => option_map Z.opp (int_digits r)
  | String "+" r => int_digits r
  | _ => int_digits s
  end.

Definition digit_char (d : Z) : ascii := ascii_of_nat (48 + Z.to_nat d).

Fixpoint str_pos_fuel (fuel : nat) (n : Z) (acc : string) : string :=
  match fuel with
  | O => acc
  | S f =>
      let acc' := String (digit_char (n mod 10)) acc in
      if n <? 10 then acc' else str_pos_fuel f (n / 10) acc'
  end.

(** [str(n)] for an [int]: decimal digits, a leading minus sign when
    negative.  A number below [2^k] has at most [k] digits. *)
Definition str (n : Z) : string :=
  if n <? 0
  then String "-" (str_pos_fuel (S (Z.to_nat (Z.log2 (- n)))) (- n) EmptyString)
  else str_pos_fuel (S (Z.to_nat (Z.log2 n))) n EmptyString.

(** [sep.join(l)] *)
Definition join (sep : string) (l : list string) : string := String.concat sep l.

(** [s[:-k]] for [k > 0]: drop the last [k] characters. *)
Definition drop_last (k : nat) (s : string) : string :=
  substring 0 (String.length s - k) s.

(** [l[k:]] and [l[:k]] with Python's reading of a negative bound. *)
Definition slice_from {A} (k : Z) (l : list A) : list A :=
  if k <? 0 then skipn (Z.to_nat (Z.of_nat (List.length l) + k)) l
  else skipn (Z.to_nat k) l.

Definition slice_to {A} (k : Z) (l : list A) : list A :=
  if k <? 0 then firstn (Z.to_nat (Z.of_nat (List.length l) + k)) l
  else firstn (Z.to_nat k) l.

(** [max(l)] and [min(l)]: [None] is the [ValueError] on an empty list. *)
Definition max (l : list Z) : option Z :=
  match l with
  | [] => None
  | x :: r => Some (fold_left Z.max r x)
  end.

Definition min (l : list Z) : option Z :=
  match l with
  | [] => None
  | x :: r => Some (fold_left Z.min r x)
  end.

End Py.

(** ** Configuration

    [MAX_DICE_COUNT], [MAX_OUTPUT_CNT], [MAX_OUTPUT_LEN] and [MAX_OUTPUT_EXP]
    are read from the bot's configuration table; the second argument of
    [Config(...)] is the default. *)

Record Config : Type := mkConfig {
  MAX_DICE_COUNT : Z;
  MAX_OUTPUT_CNT : Z;
  MAX_OUTPUT_LEN : Z;
  MAX_OUTPUT_EXP : Z
}.

Definition default_config : Config :=
  {| MAX_DICE_COUNT := 100; MAX_OUTPUT_CNT := 50; MAX_OUTPUT_LEN := 200; MAX_OUTPUT_EXP := 9 |}.

Definition with_output_cnt (cfg : Config) (n : Z) : Config :=
  {| MAX_DICE_COUNT := MAX_DICE_COUNT cfg; MAX_OUTPUT_CNT := n;
     MAX_OUTPUT_LEN := MAX_OUTPUT_LEN cfg; MAX_OUTPUT_EXP := MAX_OUTPUT_EXP cfg |}.

Definition with_output_len (cfg : Config) (n : Z) : Config :=
  {| MAX_DICE_COUNT := MAX_DICE_COUNT cfg; MAX_OUTPUT_CNT := MAX_OUTPUT_CNT cfg;
     MAX_OUTPUT_LEN := n; MAX_OUTPUT_EXP := MAX_OUTPUT_EXP cfg |}.

(** ** [fmt_num] *)

Fixpoint zeros (n : nat) : string :=
  match n with
  | O => EmptyString
  | S k => String "0" (zeros k)
  end.

(** The [T + 1] significant decimal digits of [a > 0] and its decimal
    exponent, rounding half to even, as the [e] presentation type does. *)
Definition sci_digits (T a : Z) : Z * Z :=
  let k := Py.len (Py.str a) - 1 in
  if k <=? T then (a * 10 ^ (T - k), k)
  else
    let scale := 10 ^ (k - T) in
    let q := a / scale in
    let r := a mod scale in
    let q := if (scale <? 2 * r) || ((scale =? 2 * r) && Z.odd q) then q + 1 else q in
    if q =? 10 ^ (T + 1) then (10 ^ T, k + 1) else (q, k).

(** [f"{num:.{T}e}"] for an [int].  Python converts [num] to a binary64
    float before it formats; the digits below are those of the integer
    itself, which is what Python prints whenever [float(num)] is exact (in
    particular for [abs(num) <= 2**53]).  The rounding of the conversion and
    its [OverflowError] are outside this model. *)
Definition sci (T num : Z) : string :=
  let a := Z.abs num in
  let '(q, k) := sci_digits T a in
  let digits := if a =? 0 then zeros (S (Z.to_nat T)) else Py.str q in
  let mantissa :=
    match digits with
    | EmptyString => EmptyString
    | String d r => if T =? 0 then String d EmptyString else String d ("." ++ r)
    end in
  (if num <? 0 then "-" else EmptyString)
  ++ mantissa ++ "e+" ++ (if k <? 10 then "0" ++ Py.str k else Py.str k).

Definition fmt_num (cfg : Config) (num : Z) (sep : bool) : string :=
  if (0 <? MAX_OUTPUT_EXP cfg) && (10 ^ MAX_OUTPUT_EXP cfg <=? Z.abs num) then
    let fmt_num := sci (MAX_OUTPUT_EXP cfg) num in
    if negb sep then "(" ++ fmt_num ++ ")" else fmt_num
  else Py.str num.

(** ** Messages and exceptions *)

Fixpoint i18n_params (kwargs : list (string * string)) : string :=
  match kwargs with
  | [] => EmptyString
  | (k, v) :: r => "," ++ k ++ "=" ++ v ++ i18n_params r
  end.

(** Modelled from the spec: [core.builtins.I18NContext] is not part of the
    sources at hand.  The interpreter "returns message identifiers, not final
    text", "plus, where applicable, the offending value": [str] of a context
    is its key and its keyword arguments inside the same [{I18N:...}] braces
    that the literal message identifiers of [dice.py] use. *)
Definition I18NContext (key : string) (kwargs : list (string * string)) : string :=
  "{I18N:" ++ key ++ i18n_params kwargs ++ "}".

Inductive Exn : Type :=
| DiceSyntaxError (message : string)
| DiceValueError (message : string)
| IndexError
| ValueError
| UnboundLocalError.

(** The [value] handed to [DiceValueError]: an [int] field or a piece of the
    notation. *)
Inductive PyValue : Type :=
| VInt (z : Z)
| VStr (s : string).

Definition truthy (v : PyValue) : bool :=
  match v with
  | VInt z => negb (z =? 0)
  | VStr s => negb (Py.len s =? 0)
  end.

Definition value_str (v : PyValue) : string :=
  match v with
  | VInt z => Py.str z
  | VStr s => s
  end.

(** [DiceValueError.__init__]: the value is only reported when it is truthy. *)
Definition mkDiceValueError (message : string) (value : option PyValue) : Exn :=
  match value with
  | Some v =>
      if truthy v
      then DiceValueError (I18NContext "dice.message.error.value" [("value", value_str v)] ++ message)
      else DiceValueError message
  | None => DiceValueError message
  end.

Definition is_dice_error (e : Exn) : bool :=
  match e with
  | DiceSyntaxError _ | DiceValueError _ => true
  | _ => false
  end.

(** The outcome of a call: a value, an exception, or a [while] loop that is
    still running when the fuel is spent. *)
Inductive Res (A : Type) : Type :=
| Ok (a : A)
| Raise (e : Exn)
| Running.

Arguments Ok {A} a.
Arguments Raise {A} e.
Arguments Running {A}.

Definition bindR {A B} (m : Res A) (f : A -> Res B) : Res B :=
  match m with
  | Ok a => f a
  | Raise e => Raise e
  | Running => Running
  end.

Declare Scope res_scope.
Delimit Scope res_scope with res.
Notation "x <- m ;; k" := (bindR m (fun x => k))
  (at level 61, m at next level, right associativity) : res_scope.
Notation "' p <- m ;; k" := (bindR m (fun p => k))
  (at level 61, p pattern, m at next level, right associativity) : res_scope.

(** [l[i]]: an [IndexError] outside the list. *)
Definition index {A} (l : list A) (i : nat) : Res A :=
  match nth_error l i with
  | Some x => Ok x
  | None => Raise IndexError
  end.

(** Modelled from the spec: [core.utils.message.isint] is not part of the
    sources at hand; a component is accepted when it "parses" as a number,
    that is when [int] succeeds on it. *)
Definition isint (s : string) : bool :=
  match Py.int s with
  | Some _ => true
  | None => false
  end.

(** [int(s)] after [isint(s)] *)
Definition to_int (s : string) : Res Z :=
  match Py.int s with
  | Some z => Ok z
  | None => Raise ValueError
  end.

Definition nonempty (s : string) : bool := negb (Py.len s =? 0).

Definition one_of (cs : string) (c : ascii) : bool := Py.contains c cs.

Definition invalid : Exn := DiceSyntaxError "{I18N:dice.message.error.invalid}".

Definition count_out_of_range (cfg : Config) (count : Z) : Exn :=
  mkDiceValueError
    (I18NContext "dice.message.error.value.count.out_of_range" [("max", Py.str (MAX_DICE_COUNT cfg))])
    (Some (VInt count)).

Definition add_line_out_of_range (sides add_line : Z) : Exn :=
  mkDiceValueError
    (I18NContext "dice.message.error.value.add_line.out_of_range" [("max", Py.str sides)])
    (Some (VInt add_line)).

(** ** The item classes: constructors *)

Local Open Scope res_scope.

(** *** [Dice] *)

Record Dice : Type := mkDice {
  Dice_code : string;
  Dice_count : Z;
  Dice_sides : Z;
  Dice_adv : Z;
  Dice_positive : Z
}.

Definition Dice_get_args (code : string) : Res (Z * Z * Z * Z) :=
  let dice_code := Py.upper code in
  let dice_code := Py.replace "D%" "D100" dice_code in
  let dice_count := "1" in
  let dice_adv := "0" in
  let positive := 0 in
  if Py.search_outside (fun c => Py.is_digit c || one_of "DKQ%" c) dice_code
  then Raise invalid
  else
    let temp := Py.split "D" dice_code in
    t0 <- index temp 0 ;;
    let dice_count := if nonempty t0 then t0 else dice_count in
    t1 <- index temp 1 ;;
    let '(dice_sides, dice_adv, positive) :=
      if Py.contains "K" t1 then
        let '(before, _, after) := Py.partition "K" t1 in (before, after, 1)
      else if Py.contains "Q" t1 then
        let '(before, _, after) := Py.partition "Q" t1 in (before, after, -1)
      else (t1, dice_adv, positive) in
    let dice_adv := if negb (positive =? 0) && negb (nonempty dice_adv) then "1" else dice_adv in
    if negb (isint dice_count) then
      Raise (mkDiceValueError "{I18N:dice.message.error.value.count.invalid}" (Some (VStr dice_count)))
    else if negb (isint dice_sides) then
      Raise (mkDiceValueError "{I18N:dice.message.error.value.sides.invalid}" (Some (VStr dice_sides)))
    else if negb (isint dice_adv) then
      Raise (mkDiceValueError "{I18N:dice.message.error.value.advantage.invalid}" (Some (VStr dice_adv)))
    else
      c <- to_int dice_count ;;
      s <- to_int dice_sides ;;
      a <- to_int dice_adv ;;
      Ok (c, s, a, positive).

Definition Dice_init (cfg : Config) (dice_code : string) : Res Dice :=
  '(count, sides, adv, positive) <- Dice_get_args dice_code ;;
  if (count <? 1) || (MAX_DICE_COUNT cfg <? count) then Raise (count_out_of_range cfg count)
  else if sides <? 1 then
    Raise (mkDiceValueError "{I18N:dice.message.error.value.sides.out_of_range}" (Some (VInt sides)))
  else if sides =? 1 then
    Raise (mkDiceValueError "{I18N:dice.message.error.value.sides.d1}" None)
  else if count <? adv then
    Raise (mkDiceValueError "{I18N:dice.message.error.value.advantage.out_of_range}" (Some (VInt adv)))
  else Ok (mkDice dice_code count sides adv positive).

(** *** [FudgeDice] *)

Record FudgeDice : Type := mkFudgeDice {
  Fudge_code : string;
  Fudge_count : Z
}.

Definition FudgeDice_get_args (code : string) : Res (Z * Z) :=
  let dice_code := Py.upper code in
  let dice_code := Py.replace "D" EmptyString dice_code in
  let dice_count := "4" in
  if Py.search_outside (fun c => Py.is_digit c || one_of "F" c) dice_code
  then Raise invalid
  else
    let temp := Py.split "F" dice_code in
    t0 <- index temp 0 ;;
    let dice_count := if nonempty t0 then t0 else dice_count in
    if negb (isint dice_count) then
      Raise (mkDiceValueError "{I18N:dice.message.error.value.count.invalid}" (Some (VStr dice_count)))
    else
      c <- to_int dice_count ;;
      Ok (c, 0).

Definition FudgeDice_init (cfg : Config) (dice_code : string) : Res FudgeDice :=
  '(count, _) <- FudgeDice_get_args dice_code ;;
  if (count <? 1) || (MAX_DICE_COUNT cfg <? count) then Raise (count_out_of_range cfg count)
  else Ok (mkFudgeDice dice_code count).

(** *** [BonusPunishDice] *)

Record BonusPunishDice : Type := mkBonusPunishDice {
  BP_code : string;
  BP_count : Z;
  BP_positive : bool
}.

Definition BonusPunishDice_get_args (code : string) : Res (Z * bool) :=
  let dice_code := Py.upper code in
  let dice_count := "1" in
  if Py.search_outside (fun c => Py.is_digit c || one_of "BP" c) dice_code
  then Raise invalid
  else
    '(positive, dice_count) <-
      (if Py.contains "B" dice_code then
         t1 <- index (Py.split "B" dice_code) 1 ;;
         Ok (Some false, if nonempty t1 then t1 else dice_count)
       else if Py.contains "P" dice_code then
         t1 <- index (Py.split "P" dice_code) 1 ;;
         Ok (Some true, if nonempty t1 then t1 else dice_count)
       else Ok (None, dice_count)) ;;
    if negb (isint dice_count) then
      Raise (mkDiceValueError "{I18N:dice.message.error.value.count.invalid}" (Some (VStr dice_count)))
    else
      c <- to_int dice_count ;;
      match positive with
      | Some p => Ok (c, p)
      | None => Raise UnboundLocalError
      end.

Definition BonusPunishDice_init (cfg : Config) (dice_code : string) : Res BonusPunishDice :=
  '(count, positive) <- BonusPunishDice_get_args dice_code ;;
  if (count <? 1) || (MAX_DICE_COUNT cfg <? count) then Raise (count_out_of_range cfg count)
  else Ok (mkBonusPunishDice dice_code count positive).

(** *** [WODDice] and [DXDice]: the two [re.match] patterns *)

(** [(?:c(\d+))?] at the head of [s]: the group and what follows the match
    (the group is absent, and nothing is consumed, unless [c] and at least
    one digit are there). *)
Definition re_opt_group (c : ascii) (s : string) : option string * string :=
  match s with
  | String a r =>
      if Ascii.eqb a c then
        let (d, t) := Py.span_digits r in
        if nonempty d then (Some d, t) else (None, s)
      else (None, s)
  | EmptyString => (None, s)
  end.

(** [(\d+)c(\d+)] at the head of [s]: both groups and what follows.  The
    digit runs are greedy, and giving digits back cannot help: the character
    after a run has to be the letter. *)
Definition re_two_numbers (c : ascii) (s : string) : option (string * string * string) :=
  let (g1, r) := Py.span_digits s in
  if nonempty g1 then
    match r with
    | String a r1 =>
        if Ascii.eqb a c then
          let (g2, r2) := Py.span_digits r1 in
          if nonempty g2 then Some (g1, g2, r2) else None
        else None
    | EmptyString => None
    end
  else None.

(** [re.match(r"(\d+)A(\d+)(?:K(\d+))?(?:Q(\d+))?(?:M(\d+))?", s)] *)
Definition re_match_WOD (s : string)
  : option (string * string * option string * option string * option string) :=
  match re_two_numbers "A" s with
  | Some (g1, g2, r) =>
      let (g3, r3) := re_opt_group "K" r in
      let (g4, r4) := re_opt_group "Q" r3 in
      let (g5, _) := re_opt_group "M" r4 in
      Some (g1, g2, g3, g4, g5)
  | None => None
  end.

(** [re.match(r"(\d+)C(\d+)(?:M(\d+))?", s)] *)
Definition re_match_DX (s : string) : option (string * string * option string) :=
  match re_two_numbers "C" s with
  | Some (g1, g2, r) =>
      let (g3, _) := re_opt_group "M" r in
      Some (g1, g2, g3)
  | None => None
  end.

(** [match.group(i) if match.group(i) else default] *)
Definition group_or (g : option string) (default : string) : string :=
  match g with
  | Some s => if nonempty s then s else default
  | None => default
  end.

Record WODDice : Type := mkWODDice {
  WOD_code : string;
  WOD_count : Z;
  WOD_add_line : Z;
  WOD_success_line : Z;
  WOD_success_line_max : Z;
  WOD_sides : Z
}.

Definition WODDice_get_args (code : string) : Res (Z * Z * Z * Z * Z) :=
  let dice_code := Py.upper code in
  match re_match_WOD dice_code with
  | None => Raise invalid
  | Some (g1, g2, g3, g4, g5) =>
      let dice_count := g1 in
      let dice_add_line := g2 in
      let dice_success_line := group_or g3 "8" in
      let dice_success_line_max := group_or g4 "0" in
      let dice_sides := group_or g5 "10" in
      if negb (isint dice_count) then
        Raise (mkDiceValueError "{I18N:dice.message.error.value.count.invalid}" (Some (VStr dice_count)))
      else if negb (isint dice_add_line) then
        Raise (mkDiceValueError "{I18N:dice.message.error.value.add_line.invalid}" (Some (VStr dice_add_line)))
      else if negb (isint dice_success_line) then
        Raise (mkDiceValueError "{I18N:dice.message.error.value.dice_success_line.invalid}"
                 (Some (VStr dice_success_line)))
      else if negb (isint dice_success_line_max) then
        Raise (mkDiceValueError "{I18N:dice.message.error.value.dice_success_line.invalid}"
                 (Some (VStr dice_success_line_max)))
      else if negb (isint dice_sides) then
        Raise (mkDiceValueError "{I18N:dice.message.error.value.sides.invalid}" (Some (VStr dice_sides)))
      else
        c <- to_int dice_count ;;
        a <- to_int dice_add_line ;;
        k <- to_int dice_success_line ;;
        q <- to_int dice_success_line_max ;;
        m <- to_int dice_sides ;;
        Ok (c, a, k, q, m)
  end.

Definition WODDice_init (cfg : Config) (dice_code : string) : Res WODDice :=
  '(count, add_line, success_line, success_line_max, sides) <- WODDice_get_args dice_code ;;
  if (count <? 1) || (MAX_DICE_COUNT cfg <? count) then Raise (count_out_of_range cfg count)
  else if sides <? 1 then
    Raise (mkDiceValueError "{I18N:dice.message.error.value.sides.out_of_range}" (Some (VInt sides)))
  else if sides =? 1 then
    Raise (mkDiceValueError "{I18N:dice.message.error.value.sides.d1}" None)
  else if negb (add_line =? 0) && ((add_line <? 2) || (sides <? add_line)) then
    Raise (add_line_out_of_range sides add_line)
  else Ok (mkWODDice dice_code count add_line success_line success_line_max sides).

Record DXDice : Type := mkDXDice {
  DX_code : string;
  DX_count : Z;
  DX_add_line : Z;
  DX_sides : Z
}.

Definition DXDice_get_args (code : string) : Res (Z * Z * Z) :=
  let dice_code := Py.upper code in
  match re_match_DX dice_code with
  | None => Raise invalid
  | Some (g1, g2, g3) =>
      let dice_count := g1 in
      let dice_add_line := g2 in
      let dice_sides := group_or g3 "10" in
      if negb (isint dice_count) then
        Raise (mkDiceValueError "{I18N:dice.message.error.value.count.invalid}" (Some (VStr dice_count)))
      else if negb (isint dice_add_line) then
        Raise (mkDiceValueError "{I18N:dice.message.error.value.add_line.invalid}" (Some (VStr dice_add_line)))
      else if negb (isint dice_sides) then
        Raise (mkDiceValueError "{I18N:dice.message.error.value.sides.invalid}" (Some (VStr dice_sides)))
      else
        c <- to_int dice_count ;;
        a <- to_int dice_add_line ;;
        m <- to_int dice_sides ;;
        Ok (c, a, m)
  end.

Definition DXDice_init (cfg : Config) (dice_code : string) : Res DXDice :=
  '(count, add_line, sides) <- DXDice_get_args dice_code ;;
  if (count <? 1) || (MAX_DICE_COUNT cfg <? count) then Raise (count_out_of_range cfg count)
  else if sides <? 1 then
    Raise (mkDiceValueError "{I18N:dice.message.error.value.sides.out_of_range}" (Some (VInt sides)))
  else if sides =? 1 then
    Raise (mkDiceValueError "{I18N:dice.message.error.value.sides.d1}" None)
  else if (add_line <? 2) || (sides <? add_line) then
    Raise (add_line_out_of_range sides add_line)
  else Ok (mkDXDice dice_code count add_line sides).

(** ** The random source

    [core.utils.random.Random] is supplied by the surrounding bot.  The
    interpreter uses two of its operations: [randint(a, b)], an integer, and
    [choice(seq)], an element of [seq], given here by its position in a
    sequence of the stated length.  Both advance the source. *)

Class RandomSource (Src : Type) : Type := {
  randint : Z -> Z -> Src -> Z * Src;
  choice : nat -> Src -> nat * Src
}.

(** The contract a caller's source is required to respect: both ends of
    [randint] are inclusive, and [choice] stays inside the sequence. *)
Class RangeContract (Src : Type) `{RandomSource Src} : Prop := {
  randint_range : forall lo hi (s : Src), lo <= hi -> lo <= fst (randint lo hi s) <= hi;
  choice_range : forall n (s : Src), (0 < n)%nat -> (fst (choice n s) < n)%nat
}.

(** A replayable test source: it hands out the listed values in order
    (whatever the bounds asked for), and the lower bound once the list is
    used up. *)
#[export] Instance Replay : RandomSource (list Z) := {
  randint lo hi s := match s with [] => (lo, []) | x :: r => (x, r) end;
  choice n s := match s with [] => (O, []) | x :: r => (Z.to_nat x, r) end
}.

(** A source that always answers with the lower bound. *)
Variant Lowest : Type := lowest.

#[export] Instance AlwaysLowest : RandomSource Lowest := {
  randint lo hi s := (lo, s);
  choice n s := (O, s)
}.

(** A source that always answers with the upper bound. *)
Variant Highest : Type := highest.

#[export] Instance AlwaysHighest : RandomSource Highest := {
  randint lo hi s := (hi, s);
  choice n s := (Nat.pred n, s)
}.

(** Any source, with the number of calls made to it counted beside it. *)
#[export] Instance Counted (Src : Type) `{RandomSource Src} : RandomSource (Src * nat) := {
  randint lo hi s := let (x, s') := randint lo hi (fst s) in (x, (s', S (snd s)));
  choice n s := let (x, s') := choice n (fst s) in (x, (s', S (snd s)))
}.

(** ** The item classes: [roll] *)

Record RollOutcome : Type := mkOutcome {
  result : Z;
  detail : string
}.

Definition too_long_items (count : Z) : string :=
  "=[" ++ I18NContext "dice.message.output.too_long" [("length", Py.str count)] ++ "]".

Definition too_long : string := "{I18N:dice.message.too_long}".

(** The last two steps of every [roll]: append [=result], then replace the
    whole trace when it is longer than [MAX_OUTPUT_LEN]. *)
Definition finish (cfg : Config) (output : string) (result : Z) : RollOutcome :=
  let output := output ++ "=" ++ fmt_num cfg result true in
  let output := if MAX_OUTPUT_LEN cfg <? Py.len output then too_long else output in
  {| result := result; detail := output |}.

Section Rolls.

Context {Src : Type} `{RandomSource Src}.

(** [for i in range(n): dice_results.append(Random.randint(lo, hi))] *)
Fixpoint draw (n : nat) (lo hi : Z) (s : Src) : list Z * Src :=
  match n with
  | O => ([], s)
  | S n' =>
      let (x, s1) := randint lo hi s in
      let (xs, s2) := draw n' lo hi s1 in
      (x :: xs, s2)
  end.

(** *** [Dice.roll] *)

Fixpoint insert_sorted (x : Z * nat) (l : list (Z * nat)) : list (Z * nat) :=
  match l with
  | [] => [x]
  | y :: r => if fst x <? fst y then x :: l else y :: insert_sorted x r
  end.

(** [np.array(l).argsort()]: the positions of [l] in ascending order of
    their values.  Equal values are left in their original order here; numpy
    may order them otherwise on long arrays. *)
Definition argsort (l : list Z) : list nat :=
  map snd (fold_left (fun acc x => insert_sorted x acc) (combine l (seq 0 (List.length l))) []).

Definition mem_nat (i : nat) (l : list nat) : bool := existsb (Nat.eqb i) l.

(** The keep/drop loop, lines 149-155; [i] runs over [range(self.count)] and
    [xs] is what is left of [dice_results] from position [i] on. *)
Fixpoint Dice_mark_loop (cfg : Config) (count : Z) (indexes : list nat) (i : nat) (xs : list Z)
    (output_buffer : string) (new_results : list Z) : string * list Z :=
  match xs with
  | [] => (output_buffer, new_results)
  | x :: xs' =>
      let output_buffer := output_buffer ++ fmt_num cfg x false in
      let '(output_buffer, new_results) :=
        if mem_nat i indexes then (output_buffer ++ "*", (new_results ++ [x])%list)
        else (output_buffer, new_results) in
      let output_buffer := if Z.of_nat i <? count - 1 then output_buffer ++ ", " else output_buffer in
      Dice_mark_loop cfg count indexes (S i) xs' output_buffer new_results
  end.

(** The summing loop, lines 169-173. *)
Fixpoint Dice_sum_loop (cfg : Config) (length : nat) (i : nat) (xs : list Z)
    (result : Z) (output_buffer : string) : Z * string :=
  match xs with
  | [] => (result, output_buffer)
  | x :: xs' =>
      let result := result + x in
      let output_buffer := output_buffer ++ fmt_num cfg x false in
      let output_buffer := if (i <? length - 1)%nat then output_buffer ++ "+" else output_buffer in
      Dice_sum_loop cfg length (S i) xs' result output_buffer
  end.

Definition Dice_roll (cfg : Config) (self : Dice) (s : Src) : Res RollOutcome * Src :=
  let output := Dice_code self in
  let result := 0 in
  let adv := Dice_adv self in
  let positive := Dice_positive self in
  let (dice_results, s) := draw (Z.to_nat (Dice_count self)) 1 (Dice_sides self) s in
  let '(output, dice_results) :=
    if negb (adv =? 0) then
      let indexes := argsort dice_results in
      let indexes := if positive =? 1 then Py.slice_from (- adv) indexes else Py.slice_to adv indexes in
      let '(output_buffer, new_results) :=
        Dice_mark_loop cfg (Dice_count self) indexes 0 dice_results "=[" [] in
      let output_buffer := output_buffer ++ "]" in
      let output_buffer :=
        if MAX_OUTPUT_CNT cfg <=? Dice_count self then too_long_items (Dice_count self)
        else output_buffer in
      (output ++ output_buffer, new_results)
    else (output, dice_results) in
  let length := List.length dice_results in
  (('(result, output) <-
      (if (1 <? length)%nat then
         let '(result, output_buffer) := Dice_sum_loop cfg length 0 dice_results result "=[" in
         let output_buffer := output_buffer ++ "]" in
         let output_buffer :=
           if MAX_OUTPUT_CNT cfg <? Dice_count self then too_long_items (Dice_count self)
           else output_buffer in
         Ok (result, output ++ output_buffer)
       else
         x <- index dice_results 0 ;;
         Ok (x, output)) ;;
    Ok (finish cfg output result)), s).

(** *** [FudgeDice.roll] *)

Definition fudge_faces : list string := ["-"; "0"; "+"].

(** [[Random.choice(["-", "0", "+"]) for _ in range(n)]] *)
Fixpoint Fudge_draw (n : nat) (s : Src) : Res (list string) * Src :=
  match n with
  | O => (Ok [], s)
  | S n' =>
      let (i, s1) := choice (List.length fudge_faces) s in
      match index fudge_faces i with
      | Ok x =>
          let (r, s2) := Fudge_draw n' s1 in
          (xs <- r ;; Ok (x :: xs), s2)
      | Raise e => (Raise e, s1)
      | Running => (Running, s1)
      end
  end.

Definition Fudge_step (result : Z) (res : string) : Z :=
  if String.eqb res "-" then result - 1
  else if String.eqb res "+" then result + 1
  else result.

Definition FudgeDice_roll (cfg : Config) (self : FudgeDice) (s : Src) : Res RollOutcome * Src :=
  let output := Py.replace "D" EmptyString (Fudge_code self) in
  let result := 0 in
  let (r, s) := Fudge_draw (Z.to_nat (Fudge_count self)) s in
  ((selected_results <- r ;;
    let output :=
      if MAX_OUTPUT_CNT cfg <? Fudge_count self then too_long_items (Fudge_count self)
      else output ++ "=[" ++ Py.join ", " selected_results ++ "]" in
    let result := fold_left Fudge_step selected_results result in
    Ok (finish cfg output result)), s).

(** *** [BonusPunishDice.roll] *)

(** [[int(str(item) + str(d100_digit)) for item in dice_results]] *)
Fixpoint BP_candidates (d100_digit : Z) (dice_results : list Z) : Res (list Z) :=
  match dice_results with
  | [] => Ok []
  | item :: r =>
      c <- to_int (Py.str item ++ Py.str d100_digit) ;;
      cs <- BP_candidates d100_digit r ;;
      Ok (c :: cs)
  end.

(** Lines 321-324. *)
Fixpoint BP_show_loop (cfg : Config) (count : Z) (i : nat) (xs : list Z) (output_buffer : string)
  : string :=
  match xs with
  | [] => output_buffer
  | x :: xs' =>
      let output_buffer := output_buffer ++ fmt_num cfg x false in
      let output_buffer := if Z.of_nat i <? count - 1 then output_buffer ++ ", " else output_buffer in
      BP_show_loop cfg count (S i) xs' output_buffer
  end.

Definition opt_or_ValueError {A} (o : option A) : Res A :=
  match o with
  | Some a => Ok a
  | None => Raise ValueError
  end.

Definition BonusPunishDice_roll (cfg : Config) (self : BonusPunishDice) (s : Src)
  : Res RollOutcome * Src :=
  let output := EmptyString in
  let positive := BP_positive self in
  let (d100_result, s) := randint 1 100 s in
  let d100_digit := d100_result mod 10 in
  let output := output ++ "D100=" ++ Py.str d100_result ++ ", " ++ BP_code self in
  let (dice_results, s) := draw (Z.to_nat (BP_count self)) 0 9 s in
  ((tens <- BP_candidates d100_digit dice_results ;;
    let new_results := d100_result :: tens in
    let new_results := map (fun item => if item =? 0 then 100 else item) new_results in
    output <-
      (if 1 <? BP_count self then
         let output_buffer :=
           if MAX_OUTPUT_CNT cfg <=? BP_count self then too_long_items (BP_count self)
           else BP_show_loop cfg (BP_count self) 0 dice_results "=[" ++ "]" in
         Ok (output ++ output_buffer)
       else
         x <- index dice_results 0 ;;
         Ok (output ++ "=" ++ fmt_num cfg x true)) ;;
    result <- opt_or_ValueError (if positive then Py.max new_results else Py.min new_results) ;;
    Ok (finish cfg output result)), s).

(** *** [WODDice.roll] *)

(** The drawing loop of one round, lines 432-447.  [i] runs over
    [range(dice_count)] and [n] counts the iterations left;
    [dice_results[i]] is the value just appended. *)
Fixpoint WOD_draw_loop (self : WODDice) (n i : nat)
    (dice_results : list Z) (dice_exceed_results : list bool) (indexes : list nat) (s : Src)
  : (list Z * list bool * list nat) * Src :=
  match n with
  | O => ((dice_results, dice_exceed_results, indexes), s)
  | S n' =>
      let add_line := WOD_add_line self in
      let success_line := WOD_success_line self in
      let success_line_max := WOD_success_line_max self in
      let (x, s) := randint 1 (WOD_sides self) s in
      let dice_results := (dice_results ++ [x])%list in
      let indexes :=
        if negb (success_line =? 0) && (success_line <=? x) then (indexes ++ [i])%list else indexes in
      let indexes :=
        if negb (success_line_max =? 0) && (x <=? success_line_max) then (indexes ++ [i])%list
        else indexes in
      let indexes := nodup Nat.eq_dec indexes in
      let dice_exceed_results :=
        if negb (add_line =? 0) then
          if add_line <=? x then (dice_exceed_results ++ [true])%list
          else (dice_exceed_results ++ [false])%list
        else (dice_exceed_results ++ [false])%list in
      WOD_draw_loop self n' (S i) dice_results dice_exceed_results indexes s
  end.

(** The display loop of one round, lines 451-466, over the pairs
    [(dice_results[i], dice_exceed_results[i])] from position [i] on. *)
Fixpoint WOD_show_loop (cfg : Config) (dice_count : Z) (indexes : list nat) (i : nat)
    (xs : list (Z * bool)) (exceed_result success_count : Z) (output_buffer : string)
  : Z * Z * string :=
  match xs with
  | [] => (exceed_result, success_count, output_buffer)
  | (x, exceeds) :: xs' =>
      let '(exceed_result, success_count, output_buffer) :=
        if exceeds then
          let exceed_result := exceed_result + 1 in
          let output_buffer := output_buffer ++ "<" in
          let output_buffer := output_buffer ++ fmt_num cfg x false in
          let '(success_count, output_buffer) :=
            if mem_nat i indexes then (success_count + 1, output_buffer ++ "*")
            else (success_count, output_buffer) in
          (exceed_result, success_count, output_buffer ++ ">")
        else
          let output_buffer := output_buffer ++ fmt_num cfg x false in
          let '(success_count, output_buffer) :=
            if mem_nat i indexes then (success_count + 1, output_buffer ++ "*")
            else (success_count, output_buffer) in
          (exceed_result, success_count, output_buffer) in
      let output_buffer := if Z.of_nat i <? dice_count - 1 then output_buffer ++ ", " else output_buffer in
      WOD_show_loop cfg dice_count indexes (S i) xs' exceed_result success_count output_buffer
  end.

(** [while dice_count: ...], lines 427-468: each unit of fuel pays for one
    test of the loop condition. *)
Fixpoint WOD_while (fuel : nat) (cfg : Config) (self : WODDice)
    (dice_count success_count : Z) (output_buffer : string) (s : Src)
  : Res (Z * string) * Src :=
  match fuel with
  | O => (Running, s)
  | S fuel' =>
      if dice_count =? 0 then (Ok (success_count, output_buffer), s)
      else
        let '((dice_results, dice_exceed_results, indexes), s) :=
          WOD_draw_loop self (Z.to_nat dice_count) 0 [] [] [] s in
        let exceed_result := 0 in
        let output_buffer := output_buffer ++ "{" in
        let '(exceed_result, success_count, output_buffer) :=
          WOD_show_loop cfg dice_count indexes 0 (combine dice_results dice_exceed_results)
            exceed_result success_count output_buffer in
        let output_buffer := output_buffer ++ "}, " in
        WOD_while fuel' cfg self exceed_result success_count output_buffer s
  end.

Definition WODDice_roll (fuel : nat) (cfg : Config) (self : WODDice) (s : Src)
  : Res RollOutcome * Src :=
  let output := WOD_code self in
  let success_count := 0 in
  let dice_count := WOD_count self in
  let output_buffer := "=[" in
  let (r, s) := WOD_while fuel cfg self dice_count success_count output_buffer s in
  (('(success_count, output_buffer) <- r ;;
    let output_buffer := Py.drop_last 2 output_buffer in
    let output_buffer := output_buffer ++ "]" in
    let output_buffer :=
      if MAX_OUTPUT_CNT cfg <=? WOD_count self then too_long_items (WOD_count self)
      else output_buffer in
    let output := output ++ output_buffer in
    let result := success_count in
    Ok (finish cfg output result)), s).

(** *** [DXDice.roll] *)

(** The drawing loop of one round, lines 554-559. *)
Fixpoint DX_draw_loop (self : DXDice) (n : nat)
    (dice_results : list Z) (dice_exceed_results : list bool) (s : Src)
  : (list Z * list bool) * Src :=
  match n with
  | O => ((dice_results, dice_exceed_results), s)
  | S n' =>
      let (x, s) := randint 1 (DX_sides self) s in
      let dice_results := (dice_results ++ [x])%list in
      let dice_exceed_results :=
        if DX_add_line self <=? x then (dice_exceed_results ++ [true])%list
        else (dice_exceed_results ++ [false])%list in
      DX_draw_loop self n' dice_results dice_exceed_results s
  end.

(** The display loop of one round, lines 563-572. *)
Fixpoint DX_show_loop (cfg : Config) (dice_count : Z) (i : nat) (xs : list (Z * bool))
    (exceed_result : Z) (output_buffer : string) : Z * string :=
  match xs with
  | [] => (exceed_result, output_buffer)
  | (x, exceeds) :: xs' =>
      let '(exceed_result, output_buffer) :=
        if exceeds then
          (exceed_result + 1, output_buffer ++ "<" ++ fmt_num cfg x false ++ ">")
        else (exceed_result, output_buffer ++ fmt_num cfg x false) in
      let output_buffer := if Z.of_nat i <? dice_count - 1 then output_buffer ++ ", " else output_buffer in
      DX_show_loop cfg dice_count (S i) xs' exceed_result output_buffer
  end.

(** [while dice_count: ...], lines 549-574.  [dice_results] is [None] until
    the first round has bound it. *)
Fixpoint DX_while (fuel : nat) (cfg : Config) (self : DXDice)
    (dice_count dice_rounds : Z) (dice_results : option (list Z)) (output_buffer : string) (s : Src)
  : Res (Z * option (list Z) * string) * Src :=
  match fuel with
  | O => (Running, s)
  | S fuel' =>
      if dice_count =? 0 then (Ok (dice_rounds, dice_results, output_buffer), s)
      else
        let dice_rounds := dice_rounds + 1 in
        let '((dice_results, dice_exceed_results), s) :=
          DX_draw_loop self (Z.to_nat dice_count) [] [] s in
        let exceed_result := 0 in
        let output_buffer := output_buffer ++ "{" in
        let '(exceed_result, output_buffer) :=
          DX_show_loop cfg dice_count 0 (combine dice_results dice_exceed_results)
            exceed_result output_buffer in
        let output_buffer := output_buffer ++ "}, " in
        DX_while fuel' cfg self exceed_result dice_rounds (Some dice_results) output_buffer s
  end.

Definition DXDice_roll (fuel : nat) (cfg : Config) (self : DXDice) (s : Src)
  : Res RollOutcome * Src :=
  let output := DX_code self in
  let dice_rounds := 0 in
  let dice_count := DX_count self in
  let output_buffer := "=[" in
  let (r, s) := DX_while fuel cfg self dice_count dice_rounds None output_buffer s in
  (('(dice_rounds, dice_results, output_buffer) <- r ;;
    let output_buffer := Py.drop_last 2 output_buffer in
    let output_buffer := output_buffer ++ "]" in
    let output_buffer :=
      if MAX_OUTPUT_CNT cfg <=? DX_count self then too_long_items (DX_count self)
      else output_buffer in
    let output := output ++ output_buffer in
    last_round <- match dice_results with
                  | Some l => Ok l
                  | None => Raise UnboundLocalError
                  end ;;
    top <- opt_or_ValueError (Py.max last_round) ;;
    let result := (dice_rounds - 1) * DX_sides self + top in
    Ok (finish cfg output result)), s).

(** ** One notation item, from the string to the outcome *)

Inductive DiceVariant : Type := Standard | Fudge | BonusPunish | Exploding | DoubleCross.

Inductive RollSpec : Type :=
| SpecDice (d : Dice)
| SpecFudge (d : FudgeDice)
| SpecBonusPunish (d : BonusPunishDice)
| SpecWOD (d : WODDice)
| SpecDX (d : DXDice).

(** The constructor of the variant's class. *)
Definition construct (cfg : Config) (v : DiceVariant) (dice_code : string) : Res RollSpec :=
  match v with
  | Standard => d <- Dice_init cfg dice_code ;; Ok (SpecDice d)
  | Fudge => d <- FudgeDice_init cfg dice_code ;; Ok (SpecFudge d)
  | BonusPunish => d <- BonusPunishDice_init cfg dice_code ;; Ok (SpecBonusPunish d)
  | Exploding => d <- WODDice_init cfg dice_code ;; Ok (SpecWOD d)
  | DoubleCross => d <- DXDice_init cfg dice_code ;; Ok (SpecDX d)
  end.

(** [item.roll()] *)
Definition roll (fuel : nat) (cfg : Config) (spec : RollSpec) (s : Src) : Res RollOutcome * Src :=
  match spec with
  | SpecDice d => Dice_roll cfg d s
  | SpecFudge d => FudgeDice_roll cfg d s
  | SpecBonusPunish d => BonusPunishDice_roll cfg d s
  | SpecWOD d => WODDice_roll fuel cfg d s
  | SpecDX d => DXDice_roll fuel cfg d s
  end.

(** Construct the item, then roll it: what a caller does with one notation
    item.  An exception of the constructor ends the item there. *)
Definition evaluate (fuel : nat) (cfg : Config) (v : DiceVariant) (dice_code : string) (s : Src)
  : Res RollOutcome * Src :=
  match construct cfg v dice_code with
  | Ok spec => roll fuel cfg spec s
  | Raise e => (Raise e, s)
  | Running => (Running, s)
  end.

End Rolls.

(** ** Notions used to state the properties *)

(** The characters [str] of an [int] is made of. *)
Definition plain_char (c : ascii) : bool := Py.is_digit c || Ascii.eqb c "-".

Fixpoint all_plain (s : string) : bool :=
  match s with
  | EmptyString => true
  | String a r => plain_char a && all_plain r
  end.

Definition is_scientific (s : string) : bool := Py.contains "e" s.

Definition parenthesized (s : string) : bool :=
  match s with
  | String "(" _ => true
  | _ => false
  end.

(** The sum of a list of draws. *)
Definition sumZ (l : list Z) : Z := fold_right Z.add 0 l.

(** The result of an outcome, if there is one. *)
Definition result_of (r : Res RollOutcome) : option Z :=
  match r with
  | Ok out => Some (result out)
  | _ => None
  end.

(** Bonus/Punish: the digits of the base value, and the candidates obtained
    by writing a drawn digit in front of one of them, a zero standing for
    one hundred. *)
Definition units_digit (b : Z) : Z := b mod 10.

Definition tens_digit (b : Z) : Z := (b / 10) mod 10.

Definition wrap100 (c : Z) : Z := if c =? 0 then 100 else c.

Definition BP_candidate_set (digit b : Z) (drawn : list Z) : list Z :=
  map wrap100 (b :: map (fun d => 10 * d + digit) drawn).

(** The candidates and the result as the claim words them: the drawn digit
    in front of the TENS digit of the base value. *)
Definition BP_result_as_claimed (positive : bool) (b : Z) (drawn : list Z) : option Z :=
  let candidates := BP_candidate_set (tens_digit b) b drawn in
  if positive then Py.max candidates else Py.min candidates.

(** [m] is the greatest (least) element of [l]. *)
Definition is_max_of (m : Z) (l : list Z) : Prop := In m l /\ Forall (fun c => c <= m) l.

Definition is_min_of (m : Z) (l : list Z) : Prop := In m l /\ Forall (fun c => m <= c) l.

(** The invariants of a constructed item (the RollSpec of the
    specification): the count within the configured ceiling, at least two
    sides, no more dice kept than thrown, the add-line within [2, sides]
    (for the exploding pool, zero switches the explosion off). *)
Definition valid_spec (cfg : Config) (spec : RollSpec) : Prop :=
  match spec with
  | SpecDice d =>
      1 <= Dice_count d <= MAX_DICE_COUNT cfg /\ 2 <= Dice_sides d /\ Dice_adv d <= Dice_count d
  | SpecFudge d => 1 <= Fudge_count d <= MAX_DICE_COUNT cfg
  | SpecBonusPunish d => 1 <= BP_count d <= MAX_DICE_COUNT cfg
  | SpecWOD d =>
      1 <= WOD_count d <= MAX_DICE_COUNT cfg /\ 2 <= WOD_sides d
      /\ (WOD_add_line d = 0 \/ 2 <= WOD_add_line d <= WOD_sides d)
  | SpecDX d =>
      1 <= DX_count d <= MAX_DICE_COUNT cfg /\ 2 <= DX_sides d
      /\ 2 <= DX_add_line d <= DX_sides d
  end.

(** No [DiceSyntaxError] and no [DiceValueError]. *)
Definition no_dice_error {A} (r : Res A) : Prop :=
  match r with
  | Raise e => is_dice_error e = false
  | _ => True
  end.

Section DrawSequences.

Context {Src : Type} `{RandomSource Src}.

(** The source after [n] calls of [randint(lo, hi)], and the value its
    [i]-th such call returns (counting from 0): the draw sequence of a source. *)
Fixpoint after (n : nat) (lo hi : Z) (s : Src) : Src :=
  match n with
  | O => s
  | S m => after m lo hi (snd (randint lo hi s))
  end.

Definition nth_draw (lo hi : Z) (s : Src) (i : nat) : Z :=
  fst (randint lo hi (after i lo hi s)).

(** The rounds of an explosion, as the specification describes them: a
    round of [n] dice is drawn; every die that explodes contributes one die
    to the next round; the process ends when no die is left to throw.  Each
    unit of fuel pays for one test "are there dice left to throw?". *)
Fixpoint explosion (fuel : nat) (explodes : Z -> bool) (lo hi : Z) (n : nat) (s : Src)
  : option (list (list Z) * Src) :=
  match fuel with
  | O => None
  | S fuel' =>
      match n with
      | O => Some ([], s)
      | _ =>
          let (xs, s1) := draw n lo hi s in
          match explosion fuel' explodes lo hi (List.length (filter explodes xs)) s1 with
          | Some (rounds, s2) => Some (xs :: rounds, s2)
          | None => None
          end
      end
  end.

End DrawSequences.

(** A die of the Double-Cross pool explodes at or above the add-line. *)
Definition DX_explodes (d : DXDice) (x : Z) : bool := DX_add_line d <=? x.

(** A die of the exploding pool explodes at or above a non-zero add-line. *)
Definition WOD_explodes (d : WODDice) (x : Z) : bool :=
  negb (WOD_add_line d =? 0) && (WOD_add_line d <=? x).

(** A die of the exploding pool is a success at or above a non-zero
    success-line, or at or below a non-zero success-line-max. *)
Definition WOD_success (d : WODDice) (x : Z) : bool :=
  (negb (WOD_success_line d =? 0) && (WOD_success_line d <=? x))
  || (negb (WOD_success_line_max d =? 0) && (x <=? WOD_success_line_max d)).

(** The successes of all rounds together. *)
Definition successes (d : WODDice) (rounds : list (list Z)) : Z :=
  Z.of_nat (List.length (filter (WOD_success d) (List.concat rounds))).

(** The same exploding pool with another success-line. *)
Definition with_success_line (d : WODDice) (line : Z) : WODDice :=
  mkWODDice (WOD_code d) (WOD_count d) (WOD_add_line d) line (WOD_success_line_max d) (WOD_sides d).

(** What the final length check makes of an assembled trace. *)
Definition truncate_trace (max_len : Z) (trace : string) : string :=
  if max_len <? Py.len trace then too_long else trace.

(** Two outcomes with the same numeric result (or the same exception, or
    both still running). *)
Definition same_result (r r' : Res RollOutcome) : Prop :=
  match r, r' with
  | Ok o, Ok o' => result o = result o'
  | Raise e, Raise e' => e = e'
  | Running, Running => True
  | _, _ => False
  end.

(** Two sources, each in some state, that return the same values from then
    on: a relation between their states that every call preserves, the
    values returned being equal. *)
Definition same_draws {S1 S2 : Type} `{RandomSource S1} `{RandomSource S2}
    (related : S1 -> S2 -> Prop) : Prop :=
  forall s1 s2, related s1 s2 ->
    (forall lo hi, fst (randint lo hi s1) = fst (randint lo hi s2)
                   /\ related (snd (randint lo hi s1)) (snd (randint lo hi s2)))
    /\ (forall n, fst (choice n s1) = fst (choice n s2)
                  /\ related (snd (choice n s1)) (snd (choice n s2))).

(** Two outcomes whose details are the length check of [MAX_OUTPUT_LEN cfg]
    and of [L] applied to one assembled trace. *)
Definition same_trace (cfg : Config) (L : Z) (r r' : Res RollOutcome) : Prop :=
  match r, r' with
  | Ok o, Ok o' =>
      exists trace,
        detail o = truncate_trace (MAX_OUTPUT_LEN cfg) trace
        /\ detail o' = truncate_trace L trace
  | Raise e, Raise e' => e = e'
  | Running, Running => True
  | _, _ => False
  end.

(** Two runs that return the same value and leave related sources. *)
Definition agree {A S1 S2 : Type} (related : S1 -> S2 -> Prop) (p1 : A * S1) (p2 : A * S2) : Prop :=
  fst p1 = fst p2 /\ related (snd p1) (snd p2).

(** A replayed list and the same list replayed with its calls counted. *)
Definition replay_and_counted (s1 : list Z) (s2 : list Z * nat) : Prop := s1 = fst s2.


(** ** Notions used by the further properties *)

(** Pairs of a face and its position, ordered by the face. *)
Definition by_value (a b : Z * nat) : Prop := fst a <= fst b.

(** [code] has a character that is not one of [alphabet]. *)
Definition has_char_outside (alphabet code : string) : bool :=
  Py.search_outside (fun c => Py.contains c alphabet) code.

(** A call that returns, or raises one of the two errors of the module. *)
Definition only_dice_errors {A} (r : Res A) : Prop :=
  match r with
  | Ok _ => True
  | Raise e => is_dice_error e = true
  | Running => False
  end.

(** A call that returns or raises a [DiceValueError]. *)
Definition returns_or_value_error {A} (r : Res A) : Prop :=
  match r with
  | Ok _ => True
  | Raise (DiceValueError _) => True
  | _ => False
  end.

(** The standard notation, written out from its parts: an optional count,
    [D], the sides (or [%]), and an optional keep suffix with an optional
    number. *)
Inductive Keep : Type :=
| KeepAll
| KeepHighest (n : option Z)
| KeepLowest (n : option Z).

Definition opt_number (n : option Z) : string :=
  match n with
  | Some z => Py.str z
  | None => EmptyString
  end.

Definition Dice_notation (count sides : option Z) (keep : Keep) : string :=
  opt_number count ++ "D"
  ++ match sides with Some m => Py.str m | None => "%" end
  ++ match keep with
     | KeepAll => EmptyString
     | KeepHighest n => "K" ++ opt_number n
     | KeepLowest n => "Q" ++ opt_number n
     end.

Definition default (n : option Z) (d : Z) : Z :=
  match n with
  | Some z => z
  | None => d
  end.

(** What the notation stands for. *)
Definition Dice_meant (code : string) (count sides : option Z) (keep : Keep) : Dice :=
  mkDice code (default count 1) (default sides 100)
    match keep with
    | KeepAll => 0
    | KeepHighest n | KeepLowest n => default n 1
    end
    match keep with
    | KeepAll => 0
    | KeepHighest _ => 1
    | KeepLowest _ => -1
    end.

Definition nonneg_opt (n : option Z) : Prop :=
  match n with
  | Some z => 0 <= z
  | None => True
  end.

(** The notations of the two exploding pools, written out from their parts:
    count, letter, explosion line, and the optional parts, each a letter
    and a number. *)
Definition opt_part (c : ascii) (n : option Z) : string :=
  match n with
  | Some z => String c (Py.str z)
  | None => EmptyString
  end.

Definition WOD_notation (count add_line : Z) (k q m : option Z) : string :=
  Py.str count ++ "A" ++ Py.str add_line ++ opt_part "K" k ++ opt_part "Q" q ++ opt_part "M" m.

Definition DX_notation (count add_line : Z) (m : option Z) : string :=
  Py.str count ++ "C" ++ Py.str add_line ++ opt_part "M" m.

(** Does [s] begin with a character of the class [p]? *)
Definition begins_with (p : ascii -> bool) (s : string) : bool :=
  match s with
  | String a _ => p a
  | EmptyString => false
  end.

(** A call that did not raise: it returned, or its loop is still running. *)
Definition does_not_raise {A} (r : Res A) : Prop :=
  match r with
  | Raise _ => False
  | _ => True
  end.

(** The Fudge notation: an optional count, an optional [D], and [F]. *)
Definition Fudge_notation (count : option Z) (with_D : bool) : string :=
  opt_number count ++ (if with_D then "D" else EmptyString) ++ "F".

(** The bonus/punish notation: [B] or [P], and an optional count. *)
Definition BonusPunish_notation (punish : bool) (count : option Z) : string :=
  (if punish then "P" else "B") ++ opt_number count.

(** * Properties *)

(** ** The embedding on concrete inputs *)

Example upper_2d6 : Py.upper "2d6k1" = "2D6K1".
Proof. reflexivity. Qed.

Example replace_percent : Py.replace "D%" "D100" "2D%K1" = "2D100K1".
Proof. reflexivity. Qed.

Example split_d : Py.split "D" "2D6D8" = ["2"; "6"; "8"] /\ Py.split "D" "26" = ["26"].
Proof. split; reflexivity. Qed.

Example partition_k :
  Py.partition "K" "6K2K3" = ("6", "K", "2K3")
  /\ Py.partition "K" "62" = ("62", EmptyString, EmptyString).
Proof. split; reflexivity. Qed.

Example str_examples :
  Py.str 0 = "0" /\ Py.str 8 = "8" /\ Py.str 100 = "100" /\ Py.str (-17) = "-17"
  /\ Py.str 1000000000 = "1000000000" /\ Py.str 1023 = "1023" /\ Py.str 1024 = "1024".
Proof. repeat split; reflexivity. Qed.

Example int_examples :
  Py.int "007" = Some 7 /\ Py.int EmptyString = None /\ Py.int "5%" = None
  /\ Py.int "100" = Some 100 /\ Py.int "-37" = Some (-37).
Proof. repeat split; reflexivity. Qed.

Example fmt_num_rounds_half_even :
  fmt_num default_config 12345678915 false = "(1.234567892e+10)"
  /\ fmt_num default_config 12345678925 false = "(1.234567892e+10)"
  /\ fmt_num default_config (-99999999999) true = "-1.000000000e+11".
Proof. repeat split; reflexivity. Qed.

Example Dice_init_examples :
  Dice_init default_config "d%k" = Ok (mkDice "d%k" 1 100 1 1)
  /\ Dice_init default_config "3D6Q4"
     = Raise (DiceValueError
                "{I18N:dice.message.error.value,value=4}{I18N:dice.message.error.value.advantage.out_of_range}")
  /\ Dice_init default_config "0D6"
     = Raise (DiceValueError "{I18N:dice.message.error.value.count.out_of_range,max=100}")
  /\ Dice_init default_config "6" = Raise IndexError.
Proof. repeat split; reflexivity. Qed.

Example WODDice_init_examples :
  WODDice_init default_config "5a8k6q1m12" = Ok (mkWODDice "5a8k6q1m12" 5 8 6 1 12)
  /\ WODDice_init default_config "5a8kq2" = Ok (mkWODDice "5a8kq2" 5 8 8 0 10)
  /\ WODDice_init default_config "5a0" = Ok (mkWODDice "5a0" 5 0 8 0 10)
  /\ DXDice_init default_config "3c" = Raise invalid.
Proof. repeat split; reflexivity. Qed.

Example roll_examples :
  fst (evaluate 0 default_config Standard "4D6K2" [3; 5; 1; 5])
  = Ok {| result := 10; detail := "4D6K2=[3, 5*, 1, 5*]=[5+5]=10" |}
  /\ fst (evaluate 0 default_config Fudge "4DF" [0; 1; 2; 0])
     = Ok {| result := -1; detail := "4F=[-, 0, +, -]=-1" |}
  /\ fst (evaluate 0 default_config BonusPunish "P2" [57; 3; 9])
     = Ok {| result := 97; detail := "D100=57, P2=[3, 9]=97" |}
  /\ fst (evaluate 4 default_config Exploding "3A8K5Q1" [10; 3; 8; 9; 2; 1])
     = Ok {| result := 4; detail := "3A8K5Q1=[{<10*>, 3, <8*>}, {<9*>, 2}, {1*}]=4" |}
  /\ fst (evaluate 4 default_config DoubleCross "3C8" [10; 3; 8; 9; 2; 1])
     = Ok {| result := 21; detail := "3C8=[{<10>, 3, <8>}, {<9>, 2}, {1}]=21" |}
  /\ fst (evaluate 3 default_config DoubleCross "3C8" [10; 3; 8; 9; 2; 1]) = Running.
Proof. repeat split; reflexivity. Qed.

(** ** Strings *)

Lemma contains_app c s1 s2 : Py.contains c (s1 ++ s2) = Py.contains c s1 || Py.contains c s2.
Proof.
  induction s1 as [|a s1 IH]; simpl; [reflexivity|].
  rewrite IH. now rewrite orb_assoc.
Qed.

Lemma string_app_assoc (s1 s2 s3 : string) : (s1 ++ s2) ++ s3 = s1 ++ s2 ++ s3.
Proof.
  induction s1 as [|a s1 IH]; cbn [append]; [reflexivity|]. now rewrite IH.
Qed.

Lemma string_app_nil_r (s : string) : s ++ EmptyString = s.
Proof.
  induction s as [|a s IH]; cbn [append]; [reflexivity|]. now rewrite IH.
Qed.

Lemma digit_char_is_digit d : Py.is_digit (Py.digit_char (d mod 10)) = true.
Proof.
  pose proof (Z.mod_pos_bound d 10 ltac:(lia)) as Hd.
  assert (E : d mod 10 = 0 \/ d mod 10 = 1 \/ d mod 10 = 2 \/ d mod 10 = 3 \/ d mod 10 = 4
              \/ d mod 10 = 5 \/ d mod 10 = 6 \/ d mod 10 = 7 \/ d mod 10 = 8 \/ d mod 10 = 9) by lia.
  repeat (destruct E as [E|E]; [rewrite E; reflexivity|]).
  rewrite E; reflexivity.
Qed.

Lemma str_pos_fuel_plain fuel : forall n acc,
  all_plain acc = true -> all_plain (Py.str_pos_fuel fuel n acc) = true.
Proof.
  induction fuel as [|f IH]; intros n acc Hacc; simpl; [exact Hacc|].
  assert (Hc : all_plain (String (Py.digit_char (n mod 10)) acc) = true).
  { cbn [all_plain]. unfold plain_char. now rewrite digit_char_is_digit, Hacc. }
  destruct (n <? 10); [exact Hc | now apply IH].
Qed.

Lemma str_plain n : all_plain (Py.str n) = true.
Proof.
  unfold Py.str. destruct (n <? 0).
  - cbn [all_plain]. rewrite str_pos_fuel_plain; reflexivity.
  - apply str_pos_fuel_plain; reflexivity.
Qed.

Lemma plain_no_e s : all_plain s = true -> Py.contains "e" s = false.
Proof.
  induction s as [|a r IH]; simpl; [reflexivity|].
  intros Hp. apply andb_prop in Hp as [Ha Hr]. rewrite (IH Hr), orb_false_r.
  destruct (Ascii.eqb_spec a "e") as [->|]; [discriminate Ha | reflexivity].
Qed.

Lemma plain_not_parenthesized s : all_plain s = true -> parenthesized s = false.
Proof.
  destruct s as [|a r]; [reflexivity|]. simpl. intros Hp. apply andb_prop in Hp as [Ha _].
  destruct (Ascii.eqb_spec a "(") as [->|Hne]; [discriminate Ha|].
  destruct a as [[] [] [] [] [] [] [] []]; try reflexivity. now elim Hne.
Qed.

Lemma sci_is_scientific T n : is_scientific (sci T n) = true.
Proof.
  unfold is_scientific, sci. destruct (sci_digits T (Z.abs n)) as [q k].
  rewrite !contains_app. simpl. now rewrite !orb_true_r.
Qed.

Lemma sci_not_parenthesized T n : parenthesized (sci T n) = false.
Proof.
  unfold sci. destruct (sci_digits T (Z.abs n)) as [q k].
  destruct (n <? 0); [reflexivity|]. cbn [append].
  assert (Hd : all_plain (if Z.abs n =? 0 then zeros (S (Z.to_nat T)) else Py.str q) = true).
  { destruct (Z.abs n =? 0); [|apply str_plain].
    generalize (S (Z.to_nat T)). intros m. induction m; simpl; auto. }
  destruct (if Z.abs n =? 0 then zeros (S (Z.to_nat T)) else Py.str q) as [|d r]; [reflexivity|].
  apply plain_not_parenthesized in Hd. simpl in Hd.
  destruct (T =? 0); simpl; exact Hd.
Qed.

Lemma fmt_num_digit cfg digit sep : 0 <= digit <= 9 -> fmt_num cfg digit sep = Py.str digit.
Proof.
  intros Hd. unfold fmt_num.
  destruct (0 <? MAX_OUTPUT_EXP cfg) eqn:Epos; [|reflexivity].
  apply Z.ltb_lt in Epos.
  pose proof (Z.pow_le_mono_r 10 1 (MAX_OUTPUT_EXP cfg) ltac:(lia) ltac:(lia)) as Hpow.
  replace (10 ^ MAX_OUTPUT_EXP cfg <=? Z.abs digit) with false; [reflexivity|].
  symmetry. apply Z.leb_gt. change (10 ^ 1) with 10 in Hpow. lia.
Qed.



(** ** The sources *)

#[export] Instance AlwaysHighest_contract : RangeContract Highest.
Proof.
  split; intros; simpl; lia.
Qed.

#[export] Instance AlwaysLowest_contract : RangeContract Lowest.
Proof.
  split; intros; simpl; lia.
Qed.

Section Draws.

Context {Src : Type} `{RandomSource Src}.

Lemma draw_length n lo hi (s : Src) : List.length (fst (draw n lo hi s)) = n.
Proof.
  revert s. induction n as [|n IH]; intros s; simpl; [reflexivity|].
  destruct (randint lo hi s) as [x s1]. specialize (IH s1).
  destruct (draw n lo hi s1) as [xs s2]. simpl in *. now rewrite IH.
Qed.

Lemma draw_range `{!RangeContract Src} n lo hi (s : Src) :
  lo <= hi -> Forall (fun x => lo <= x <= hi) (fst (draw n lo hi s)).
Proof.
  intros Hle. revert s. induction n as [|n IH]; intros s; simpl; [constructor|].
  pose proof (randint_range lo hi s Hle) as Hx.
  destruct (randint lo hi s) as [x s1]. specialize (IH s1).
  destruct (draw n lo hi s1) as [xs s2]. simpl in *. now constructor.
Qed.

End Draws.

Lemma sumZ_bounds lo hi l :
  Forall (fun x => lo <= x <= hi) l ->
  Z.of_nat (List.length l) * lo <= sumZ l <= Z.of_nat (List.length l) * hi.
Proof.
  induction 1 as [|x l Hx _ IH]; [cbn; lia|].
  cbn [List.length sumZ fold_right]. fold (sumZ l). rewrite Nat2Z.inj_succ. nia.
Qed.

(** ** [Dice.roll] *)

Lemma Dice_sum_loop_result cfg length xs : forall i result output_buffer,
  fst (Dice_sum_loop cfg length i xs result output_buffer) = result + sumZ xs.
Proof.
  induction xs as [|x xs IH]; intros i result output_buffer; simpl; [lia|].
  rewrite IH. lia.
Qed.

Ltac init_cases :=
  repeat match goal with
         | |- context [if ?b then _ else _] =>
             let E := fresh "E" in destruct b eqn:E; try discriminate
         | |- context [mkDiceValueError _ (Some ?v)] =>
             unfold mkDiceValueError; destruct (truthy v); try discriminate
         end.

Ltac bool_to_Z :=
  repeat match goal with
         | H : (_ || _) = false |- _ => apply orb_false_iff in H as [? ?]
         | H : (_ && _) = false |- _ => apply andb_false_iff in H as [?|?]
         | H : negb _ = false |- _ => apply negb_false_iff in H
         | H : (_ <? _) = false |- _ => apply Z.ltb_ge in H
         | H : (_ <? _) = true |- _ => apply Z.ltb_lt in H
         | H : (_ <=? _) = false |- _ => apply Z.leb_gt in H
         | H : (_ <=? _) = true |- _ => apply Z.leb_le in H
         | H : (_ =? _) = false |- _ => apply Z.eqb_neq in H
         | H : (_ =? _) = true |- _ => apply Z.eqb_eq in H
         end.

Lemma Dice_init_valid cfg code d :
  Dice_init cfg code = Ok d ->
  Dice_code d = code /\ 1 <= Dice_count d <= MAX_DICE_COUNT cfg /\ 2 <= Dice_sides d
  /\ Dice_adv d <= Dice_count d.
Proof.
  unfold Dice_init. destruct (Dice_get_args code) as [[[[c sd] a] p]| |]; simpl; try discriminate.
  unfold count_out_of_range. init_cases. intros [= <-]. simpl. bool_to_Z; (split; [reflexivity | lia]).
Qed.

(** ** [str] and [int] on integers *)

Lemma digit_cases d : 0 <= d <= 9 ->
  d = 0 \/ d = 1 \/ d = 2 \/ d = 3 \/ d = 4 \/ d = 5 \/ d = 6 \/ d = 7 \/ d = 8 \/ d = 9.
Proof. lia. Qed.

Lemma string_length_app (s1 s2 : string) :
  String.length (s1 ++ s2) = (String.length s1 + String.length s2)%nat.
Proof.
  induction s1 as [|a s1 IH]; cbn [append String.length]; [reflexivity|]. now rewrite IH.
Qed.

Lemma digit_val_char d : 0 <= d <= 9 -> Py.digit_val (Py.digit_char d) = d.
Proof.
  intros Hd. apply digit_cases in Hd.
  repeat (destruct Hd as [Hd|Hd]; [subst d; reflexivity|]). subst d; reflexivity.
Qed.

Lemma int_acc_app s1 s2 : forall acc, Py.int_acc acc (s1 ++ s2) = Py.int_acc (Py.int_acc acc s1) s2.
Proof.
  induction s1 as [|a s1 IH]; intros acc; cbn [append Py.int_acc]; [reflexivity|]. apply IH.
Qed.

Lemma all_digits_app s1 s2 : Py.all_digits (s1 ++ s2) = Py.all_digits s1 && Py.all_digits s2.
Proof.
  induction s1 as [|a s1 IH]; cbn [append Py.all_digits]; [reflexivity|].
  now rewrite IH, andb_assoc.
Qed.

(** The digits [str_pos_fuel] puts in front of its accumulator, given fuel
    for them all: they read back as the number. *)
Lemma str_pos_fuel_digits f : forall n acc,
  0 <= n < 10 ^ Z.of_nat (S f) ->
  exists ds,
    Py.str_pos_fuel (S f) n acc = ds ++ acc
    /\ ds <> EmptyString /\ Py.all_digits ds = true
    /\ forall a, Py.int_acc a ds = a * 10 ^ Py.len ds + n.
Proof.
  induction f as [|f IH]; intros n acc Hn.
  - change (10 ^ Z.of_nat 1) with 10 in Hn.
    cbn [Py.str_pos_fuel]. replace (n <? 10) with true by (symmetry; apply Z.ltb_lt; lia).
    rewrite Z.mod_small by lia.
    exists (String (Py.digit_char n) EmptyString). split; [reflexivity|]. split; [discriminate|].
    split.
    + cbn [Py.all_digits]. rewrite <- (Z.mod_small n 10) by lia.
      now rewrite digit_char_is_digit.
    + intros a. cbn [Py.int_acc]. rewrite digit_val_char by lia.
      change (Py.len (String (Py.digit_char n) EmptyString)) with 1. lia.
  - remember (S f) as f1 eqn:Ef1. cbn [Py.str_pos_fuel].
    destruct (n <? 10) eqn:Elt.
    + apply Z.ltb_lt in Elt. rewrite Z.mod_small by lia.
      exists (String (Py.digit_char n) EmptyString). split; [reflexivity|]. split; [discriminate|].
      split.
      * cbn [Py.all_digits]. rewrite <- (Z.mod_small n 10) by lia.
        now rewrite digit_char_is_digit.
      * intros a. cbn [Py.int_acc]. rewrite digit_val_char by lia.
        change (Py.len (String (Py.digit_char n) EmptyString)) with 1. lia.
    + apply Z.ltb_ge in Elt. subst f1.
      assert (Hq : 0 <= n / 10 < 10 ^ Z.of_nat (S f)).
      { split; [apply Z.div_pos; lia|]. apply Z.div_lt_upper_bound; [lia|].
        rewrite (Nat2Z.inj_succ (S f)), Z.pow_succ_r in Hn by lia. lia. }
      destruct (IH (n / 10) (String (Py.digit_char (n mod 10)) acc) Hq) as (ds & E & Hne & Hall & Hint).
      exists (ds ++ String (Py.digit_char (n mod 10)) EmptyString).
      split; [rewrite E; now rewrite string_app_assoc|].
      split; [destruct ds; [congruence | discriminate]|].
      split.
      * rewrite all_digits_app, Hall. cbn [Py.all_digits andb].
        now rewrite digit_char_is_digit.
      * intros a. rewrite int_acc_app, Hint. cbn [Py.int_acc].
        pose proof (Z.mod_pos_bound n 10 ltac:(lia)) as Hm.
        rewrite digit_val_char by lia.
        unfold Py.len. rewrite string_length_app. cbn [String.length].
        rewrite Nat2Z.inj_add. change (Z.of_nat 1) with 1.
        rewrite Z.pow_add_r, Z.pow_1_r by lia.
        pose proof (Z.div_mod n 10 ltac:(lia)). lia.
Qed.

Lemma enough_fuel n : 0 <= n -> n < 10 ^ Z.of_nat (S (Z.to_nat (Z.log2 n))).
Proof.
  intros Hn. rewrite Nat2Z.inj_succ, Z2Nat.id by apply Z.log2_nonneg.
  destruct (Z.eq_dec n 0) as [->|Hnz]; [cbn; lia|].
  destruct (Z.log2_spec n ltac:(lia)) as [_ Hup].
  eapply Z.lt_le_trans; [exact Hup|].
  apply Z.pow_le_mono_l. pose proof (Z.log2_nonneg n). lia.
Qed.

(** [str] of a non-negative integer: a non-empty run of digits that [int]
    reads back. *)
Lemma str_nonneg n : 0 <= n ->
  Py.str n <> EmptyString /\ Py.all_digits (Py.str n) = true /\ Py.int (Py.str n) = Some n.
Proof.
  intros Hn. unfold Py.str. replace (n <? 0) with false by (symmetry; apply Z.ltb_ge; lia).
  destruct (str_pos_fuel_digits _ n EmptyString (conj Hn (enough_fuel n Hn)))
    as (ds & E & Hne & Hall & Hint).
  rewrite E, string_app_nil_r. split; [exact Hne|]. split; [exact Hall|].
  unfold Py.int. destruct ds as [|c ds]; [congruence|].
  assert (Hc : Py.is_digit c = true) by (cbn [Py.all_digits] in Hall; now apply andb_prop in Hall).
  assert (Py.int_digits (String c ds) = Some n) as Hd.
  { unfold Py.int_digits. rewrite Hall. f_equal. rewrite Hint. lia. }
  destruct (Ascii.eqb_spec c "-") as [->|Hm]; [discriminate Hc|].
  destruct (Ascii.eqb_spec c "+") as [->|Hp]; [discriminate Hc|].
  destruct c as [[] [] [] [] [] [] [] []]; try exact Hd; congruence.
Qed.

(** [int(str(n)) == n] *)
Lemma int_str n : Py.int (Py.str n) = Some n.
Proof.
  destruct (Z.lt_ge_cases n 0) as [Hneg|Hpos]; [|now apply str_nonneg].
  unfold Py.str. replace (n <? 0) with true by (symmetry; apply Z.ltb_lt; lia).
  assert (Hpos : 0 <= - n) by lia.
  destruct (str_pos_fuel_digits _ (- n) EmptyString (conj Hpos (enough_fuel (- n) Hpos)))
    as (ds & E & Hne & Hall & Hint).
  rewrite E, string_app_nil_r. cbn [Py.int].
  unfold Py.int_digits. destruct ds as [|c ds]; [congruence|]. rewrite Hall, Hint.
  cbn [option_map]. f_equal. lia.
Qed.

(** ** The standard notation [NdM] *)

Lemma digit_differs a c : Py.is_digit a = true -> Py.is_digit c = false -> Ascii.eqb a c = false.
Proof.
  intros Ha Hc. destruct (Ascii.eqb_spec a c) as [->|]; [congruence | reflexivity].
Qed.

Lemma digits_do_not_contain c s :
  Py.all_digits s = true -> Py.is_digit c = false -> Py.contains c s = false.
Proof.
  intros Hs Hc. induction s as [|a s IH]; cbn [Py.contains]; [reflexivity|].
  cbn [Py.all_digits] in Hs. apply andb_prop in Hs as [Ha Hs].
  now rewrite (digit_differs a c Ha Hc), IH.
Qed.

Lemma upper_digits s : Py.all_digits s = true -> Py.upper s = s.
Proof.
  induction s as [|a s IH]; cbn [Py.upper Py.all_digits]; [reflexivity|].
  intros Hs. apply andb_prop in Hs as [Ha Hs]. rewrite (IH Hs). f_equal.
  unfold Py.upper_char, Py.is_lower. unfold Py.is_digit in Ha.
  apply andb_prop in Ha as [_ Ha]. apply Nat.leb_le in Ha.
  replace (97 <=? nat_of_ascii a)%nat with false by (symmetry; apply Nat.leb_gt; lia).
  reflexivity.
Qed.

Lemma upper_app s1 s2 : Py.upper (s1 ++ s2) = Py.upper s1 ++ Py.upper s2.
Proof.
  induction s1 as [|a s1 IH]; cbn [append Py.upper]; [reflexivity|]. now rewrite IH.
Qed.

Lemma split_digits c s :
  Py.all_digits s = true -> Py.is_digit c = false -> Py.split c s = [s].
Proof.
  intros Hs Hc. induction s as [|a s IH]; cbn [Py.split]; [reflexivity|].
  cbn [Py.all_digits] in Hs. apply andb_prop in Hs as [Ha Hs].
  now rewrite (digit_differs a c Ha Hc), (IH Hs).
Qed.

Lemma split_two_numbers c s1 s2 :
  Py.all_digits s1 = true -> Py.all_digits s2 = true -> Py.is_digit c = false ->
  Py.split c (s1 ++ String c s2) = [s1; s2].
Proof.
  intros H1 H2 Hc. induction s1 as [|a s1 IH]; cbn [append Py.split].
  - now rewrite Ascii.eqb_refl, (split_digits c s2 H2 Hc).
  - cbn [Py.all_digits] in H1. apply andb_prop in H1 as [Ha H1].
    now rewrite (digit_differs a c Ha Hc), (IH H1).
Qed.

Lemma search_outside_app allowed s1 s2 :
  Py.search_outside allowed (s1 ++ s2)
  = Py.search_outside allowed s1 || Py.search_outside allowed s2.
Proof.
  induction s1 as [|a s1 IH]; cbn [append Py.search_outside]; [reflexivity|].
  now rewrite IH, orb_assoc.
Qed.

Lemma search_outside_digits (allowed : ascii -> bool) s :
  (forall c, Py.is_digit c = true -> allowed c = true) ->
  Py.all_digits s = true -> Py.search_outside allowed s = false.
Proof.
  intros Hall Hs. induction s as [|a s IH]; cbn [Py.search_outside]; [reflexivity|].
  cbn [Py.all_digits] in Hs. apply andb_prop in Hs as [Ha Hs].
  now rewrite (Hall a Ha), (IH Hs).
Qed.

Lemma replace_percent_digits s : Py.all_digits s = true ->
  forall rest, (forall f, Py.replace_fuel f "D%" "D100" rest = rest) ->
  forall f, Py.replace_fuel f "D%" "D100" (s ++ rest) = s ++ rest.
Proof.
  intros Hs rest Hrest. induction s as [|a s IH]; intros f; cbn [append]; [apply Hrest|].
  cbn [Py.all_digits] in Hs. apply andb_prop in Hs as [Ha Hs].
  destruct f as [|f]; [reflexivity|]. cbn [Py.replace_fuel Py.strip_prefix].
  rewrite Ascii.eqb_sym, (digit_differs a "D" Ha eq_refl). now rewrite (IH Hs).
Qed.

Lemma replace_percent_nil f : Py.replace_fuel f "D%" "D100" EmptyString = EmptyString.
Proof. destruct f; reflexivity. Qed.

Lemma replace_percent_NdM s1 s2 :
  Py.all_digits s1 = true -> Py.all_digits s2 = true -> s2 <> EmptyString ->
  Py.replace "D%" "D100" (s1 ++ String "D" s2) = s1 ++ String "D" s2.
Proof.
  intros H1 H2 Hne. unfold Py.replace. apply (replace_percent_digits s1 H1).
  intros f. destruct f as [|f]; [reflexivity|].
  destruct s2 as [|b s2]; [congruence|].
  cbn [Py.all_digits] in H2. pose proof H2 as H2'. apply andb_prop in H2' as [Hb _].
  cbn [Py.replace_fuel Py.strip_prefix].
  change (Ascii.eqb "D" "D") with true. cbv iota.
  rewrite Ascii.eqb_sym, (digit_differs b "%" Hb eq_refl). f_equal.
  rewrite <- (string_app_nil_r (String b s2)) at 1 2.
  rewrite (replace_percent_digits (String b s2) H2 EmptyString replace_percent_nil).
  reflexivity.
Qed.

(** The constructor on the notation [NdM] (in either case, as long as the
    notation upper-cases to the two numbers around a [D]). *)
Lemma Dice_init_NdM cfg N M code :
  1 <= N <= MAX_DICE_COUNT cfg -> 2 <= M ->
  Py.upper code = Py.str N ++ "D" ++ Py.str M ->
  Dice_init cfg code = Ok (mkDice code N M 0 0).
Proof.
  intros HN HM Hup.
  destruct (str_nonneg N ltac:(lia)) as (HNne & HNd & HNi).
  destruct (str_nonneg M ltac:(lia)) as (HMne & HMd & HMi).
  assert (Hargs : Dice_get_args code = Ok (N, M, 0, 0)).
  { unfold Dice_get_args. rewrite Hup. cbn [append].
    rewrite (replace_percent_NdM _ _ HNd HMd HMne).
    replace (Py.search_outside _ (Py.str N ++ String "D" (Py.str M))) with false.
    2:{ symmetry. rewrite search_outside_app. cbn [Py.search_outside].
        rewrite !search_outside_digits; auto; intros c Hc; now rewrite Hc. }
    rewrite (split_two_numbers "D" _ _ HNd HMd eq_refl).
    cbn [index nth_error bindR].
    assert (Hn : nonempty (Py.str N) = true).
    { unfold nonempty, Py.len. destruct (Py.str N); [congruence | reflexivity]. }
    rewrite Hn, (digits_do_not_contain "K" _ HMd eq_refl),
      (digits_do_not_contain "Q" _ HMd eq_refl).
    cbn [Z.eqb negb andb]. unfold isint, to_int. rewrite HNi, HMi. reflexivity. }
  unfold Dice_init. rewrite Hargs. cbn [bindR].
  replace (N <? 1) with false by (symmetry; apply Z.ltb_ge; lia).
  replace (MAX_DICE_COUNT cfg <? N) with false by (symmetry; apply Z.ltb_ge; lia).
  replace (M <? 1) with false by (symmetry; apply Z.ltb_ge; lia).
  replace (M =? 1) with false by (symmetry; apply Z.eqb_neq; lia).
  replace (N <? 0) with false by (symmetry; apply Z.ltb_ge; lia).
  reflexivity.
Qed.

Lemma upper_NdM N M : 0 <= N -> 0 <= M ->
  Py.upper (Py.str N ++ "D" ++ Py.str M) = Py.str N ++ "D" ++ Py.str M
  /\ Py.upper (Py.str N ++ "d" ++ Py.str M) = Py.str N ++ "D" ++ Py.str M.
Proof.
  intros HN HM.
  destruct (str_nonneg N HN) as (_ & HNd & _). destruct (str_nonneg M HM) as (_ & HMd & _).
  rewrite !upper_app, !(upper_digits _ HNd), !(upper_digits _ HMd). split; reflexivity.
Qed.



(** ** [BonusPunishDice.roll] *)

(** [int(str(d) + str(g))] for two digits. *)
Lemma concat_digits d g : 0 <= d <= 9 -> 0 <= g <= 9 ->
  Py.int (Py.str d ++ Py.str g) = Some (10 * d + g).
Proof.
  intros Hd Hg. apply digit_cases in Hd. apply digit_cases in Hg.
  repeat (destruct Hd as [Hd|Hd]; [subst d; repeat (destruct Hg as [Hg|Hg]; [subst g; reflexivity|]);
                                  subst g; reflexivity|]).
  subst d; repeat (destruct Hg as [Hg|Hg]; [subst g; reflexivity|]); subst g; reflexivity.
Qed.

Lemma BP_candidates_digits g ds :
  0 <= g <= 9 -> Forall (fun d => 0 <= d <= 9) ds ->
  BP_candidates g ds = Ok (map (fun d => 10 * d + g) ds).
Proof.
  intros Hg. induction 1 as [|d ds Hd _ IH]; simpl; [reflexivity|].
  unfold to_int. rewrite (concat_digits d g Hd Hg). simpl. now rewrite IH.
Qed.

Lemma fold_max_spec r : forall x,
  is_max_of (fold_left Z.max r x) (x :: r).
Proof.
  induction r as [|y r IH]; intros x; simpl.
  - split; [now left | constructor; [lia | constructor]].
  - destruct (IH (Z.max x y)) as [Hin Hall]. split.
    + destruct Hin as [Hin|Hin]; [|now right; right].
      rewrite <- Hin. destruct (Z.max_spec x y) as [[_ E]|[_ E]]; rewrite E; simpl; auto.
    + inversion Hall as [|? ? Hm Hr]; subst. repeat constructor; try lia. exact Hr.
Qed.

Lemma fold_min_spec r : forall x,
  is_min_of (fold_left Z.min r x) (x :: r).
Proof.
  induction r as [|y r IH]; intros x; simpl.
  - split; [now left | constructor; [lia | constructor]].
  - destruct (IH (Z.min x y)) as [Hin Hall]. split.
    + destruct Hin as [Hin|Hin]; [|now right; right].
      rewrite <- Hin. destruct (Z.min_spec x y) as [[_ E]|[_ E]]; rewrite E; simpl; auto.
    + inversion Hall as [|? ? Hm Hr]; subst. repeat constructor; try lia. exact Hr.
Qed.

Lemma BonusPunishDice_init_valid cfg code d :
  BonusPunishDice_init cfg code = Ok d ->
  BP_code d = code /\ 1 <= BP_count d <= MAX_DICE_COUNT cfg.
Proof.
  unfold BonusPunishDice_init.
  destruct (BonusPunishDice_get_args code) as [[c p]| |]; simpl; try discriminate.
  unfold count_out_of_range. init_cases. intros [= <-]. simpl. bool_to_Z; (split; [reflexivity | lia]).
Qed.

Lemma BP_candidate_set_range g b ds :
  0 <= g <= 9 -> 1 <= b <= 100 -> Forall (fun d => 0 <= d <= 9) ds ->
  Forall (fun c => 1 <= c <= 100) (BP_candidate_set g b ds).
Proof.
  intros Hg Hb Hds. unfold BP_candidate_set. cbn [map]. constructor.
  - unfold wrap100. destruct (b =? 0) eqn:E; lia.
  - induction Hds as [|d ds Hd _ IH]; cbn [map]; constructor; [|exact IH].
    unfold wrap100. destruct (10 * d + g =? 0) eqn:E; lia.
Qed.

(** C3, as amended.  With a base value [b] in [1, 100] and drawn digits in
    [0, 9], the candidates are [b] and, for each drawn digit [d],
    [int(str(d) + str(b % 10))], that is [10 * d + b mod 10]: the drawn digit
    in front of the UNITS digit of [b]; a candidate 0 counts as 100.  The
    result is the greatest candidate under [P] and the least under [B], and
    lies in [1, 100]. *)
Theorem bonus_punish_candidates :
  forall (Src : Type) (R : RandomSource Src), RangeContract Src ->
  forall cfg code d (s : Src),
    BonusPunishDice_init cfg code = Ok d ->
    let b := fst (randint 1 100 s) in
    let drawn := fst (draw (Z.to_nat (BP_count d)) 0 9 (snd (randint 1 100 s))) in
    let candidates := BP_candidate_set (units_digit b) b drawn in
    1 <= b <= 100 /\ Forall (fun x => 0 <= x <= 9) drawn
    /\ exists out,
        fst (BonusPunishDice_roll cfg d s) = Ok out
        /\ (if BP_positive d then is_max_of (result out) candidates
            else is_min_of (result out) candidates)
        /\ 1 <= result out <= 100.
Proof.
  intros Src R C cfg code d s Hinit b drawn candidates.
  apply BonusPunishDice_init_valid in Hinit as (_ & Hc).
  pose proof (randint_range 1 100 s ltac:(lia)) as Hb. fold b in Hb.
  pose proof (draw_range (Z.to_nat (BP_count d)) 0 9 (snd (randint 1 100 s)) ltac:(lia)) as Hds.
  pose proof (draw_length (Z.to_nat (BP_count d)) 0 9 (snd (randint 1 100 s))) as Hlen.
  fold drawn in Hds, Hlen.
  assert (Hg : 0 <= units_digit b <= 9).
  { unfold units_digit. pose proof (Z.mod_pos_bound b 10). lia. }
  pose proof (BP_candidate_set_range _ _ _ Hg Hb Hds) as Hrange. fold candidates in Hrange.
  split; [exact Hb|]. split; [exact Hds|].
  unfold BonusPunishDice_roll.
  subst b drawn. destruct (randint 1 100 s) as [b s1]. cbn [fst snd] in *.
  destruct (draw (Z.to_nat (BP_count d)) 0 9 s1) as [drawn s2]. cbn [fst snd] in *.
  change (b mod 10) with (units_digit b).
  rewrite (BP_candidates_digits _ _ Hg Hds). cbn [bindR].
  change (map (fun item => if item =? 0 then 100 else item)
            (b :: map (fun d0 => 10 * d0 + units_digit b) drawn)) with candidates.
  set (o := if 1 <? BP_count d then _ else _).
  assert (Ho : exists text, o = Ok text).
  { subst o. destruct (1 <? BP_count d) eqn:E; [eauto|].
    apply Z.ltb_ge in E. destruct drawn as [|x r]; [cbn in Hlen; lia|].
    cbn. eauto. }
  destruct Ho as [text ->]. cbn [bindR].
  assert (Hne : exists c cs, candidates = c :: cs) by (unfold candidates, BP_candidate_set; simpl; eauto).
  destruct Hne as (c & cs & Ecs). rewrite Ecs in *.
  destruct (BP_positive d); simpl.
  - eexists; split; [reflexivity|]. simpl.
    pose proof (fold_max_spec cs c) as Hm. split; [exact Hm|].
    destruct Hm as [Hin _]. rewrite Forall_forall in Hrange. now apply Hrange.
  - eexists; split; [reflexivity|]. simpl.
    pose proof (fold_min_spec cs c) as Hm. split; [exact Hm|].
    destruct Hm as [Hin _]. rewrite Forall_forall in Hrange. now apply Hrange.
Qed.

Lemma bonus_punish_candidates_witness :
  let d := mkBonusPunishDice "P2" 2 true in
  let candidates := BP_candidate_set 0 100 [9; 9] in
  1 <= 100 <= 100 /\ Forall (fun x => 0 <= x <= 9) [9; 9]
  /\ exists out,
      fst (BonusPunishDice_roll default_config d highest) = Ok out
      /\ is_max_of (result out) candidates
      /\ 1 <= result out <= 100.
Proof.
  exact (bonus_punish_candidates Highest _ _ default_config "P2"
           (mkBonusPunishDice "P2" 2 true) highest eq_refl).
Defined.

(** C3, the claim as worded (the tens digit of the base value) against the code:
    for [B] on the base value 57 and the drawn digit 3 the code answers
    [min(57, 37) = 37], the claim [min(57, 35) = 35]. *)
Lemma bonus_punish_tens_digit_counterexample :
  result_of (fst (evaluate 0 default_config BonusPunish "B" [57; 3])) = Some 37
  /\ BP_result_as_claimed false 57 [3] = Some 35
  /\ result_of (fst (evaluate 0 default_config BonusPunish "B" [57; 3]))
     <> BP_result_as_claimed false 57 [3].
Proof.
  repeat split; try reflexivity. discriminate.
Qed.

(** ** Validation comes first *)

Lemma FudgeDice_init_valid cfg code d :
  FudgeDice_init cfg code = Ok d ->
  Fudge_code d = code /\ 1 <= Fudge_count d <= MAX_DICE_COUNT cfg.
Proof.
  unfold FudgeDice_init.
  destruct (FudgeDice_get_args code) as [[c z]| |]; simpl; try discriminate.
  unfold count_out_of_range. init_cases. intros [= <-]. simpl. bool_to_Z; (split; [reflexivity | lia]).
Qed.

Lemma WODDice_init_valid cfg code d :
  WODDice_init cfg code = Ok d ->
  WOD_code d = code /\ 1 <= WOD_count d <= MAX_DICE_COUNT cfg /\ 2 <= WOD_sides d
  /\ (WOD_add_line d = 0 \/ 2 <= WOD_add_line d <= WOD_sides d).
Proof.
  unfold WODDice_init.
  destruct (WODDice_get_args code) as [[[[[c a] k] q] m]| |]; simpl; try discriminate.
  unfold count_out_of_range, add_line_out_of_range. init_cases. intros [= <-]. simpl. bool_to_Z; (split; [reflexivity | lia]).
Qed.

Lemma DXDice_init_valid cfg code d :
  DXDice_init cfg code = Ok d ->
  DX_code d = code /\ 1 <= DX_count d <= MAX_DICE_COUNT cfg /\ 2 <= DX_sides d
  /\ 2 <= DX_add_line d <= DX_sides d.
Proof.
  unfold DXDice_init.
  destruct (DXDice_get_args code) as [[[c a] m]| |]; simpl; try discriminate.
  unfold count_out_of_range, add_line_out_of_range. init_cases. intros [= <-]. simpl. bool_to_Z; (split; [reflexivity | lia]).
Qed.

Lemma construct_valid cfg v code spec :
  construct cfg v code = Ok spec -> valid_spec cfg spec.
Proof.
  destruct v; simpl.
  - destruct (Dice_init cfg code) as [d| |] eqn:E; simpl; try discriminate.
    intros [= <-]. apply Dice_init_valid in E. simpl. tauto.
  - destruct (FudgeDice_init cfg code) as [d| |] eqn:E; simpl; try discriminate.
    intros [= <-]. apply FudgeDice_init_valid in E. simpl. tauto.
  - destruct (BonusPunishDice_init cfg code) as [d| |] eqn:E; simpl; try discriminate.
    intros [= <-]. apply BonusPunishDice_init_valid in E. simpl. tauto.
  - destruct (WODDice_init cfg code) as [d| |] eqn:E; simpl; try discriminate.
    intros [= <-]. apply WODDice_init_valid in E. simpl. tauto.
  - destruct (DXDice_init cfg code) as [d| |] eqn:E; simpl; try discriminate.
    intros [= <-]. apply DXDice_init_valid in E. simpl. tauto.
Qed.

Lemma no_dice_error_bind {A B} (m : Res A) (f : A -> Res B) :
  no_dice_error m -> (forall a, no_dice_error (f a)) -> no_dice_error (bindR m f).
Proof. destruct m; simpl; auto. Qed.

Lemma no_dice_error_index {A} (l : list A) i : no_dice_error (index l i).
Proof. unfold index. destruct (nth_error l i); simpl; auto. Qed.

Lemma no_dice_error_to_int s : no_dice_error (to_int s).
Proof. unfold to_int. destruct (Py.int s); simpl; auto. Qed.

Lemma no_dice_error_opt {A} (o : option A) : no_dice_error (opt_or_ValueError o).
Proof. destruct o; simpl; auto. Qed.

Ltac no_err :=
  repeat first
    [ exact I
    | assumption
    | solve [cbn; reflexivity]
    | apply no_dice_error_index
    | apply no_dice_error_to_int
    | apply no_dice_error_opt
    | apply no_dice_error_bind
    | intro
    | match goal with
      | |- no_dice_error (match ?p with _ => _ end) => destruct p
      end ].

Section RollRaises.

Context {Src : Type} `{RandomSource Src}.

Lemma Dice_roll_no_dice_error cfg d (s : Src) : no_dice_error (fst (Dice_roll cfg d s)).
Proof.
  unfold Dice_roll. destruct (draw _ _ _ s) as [xs s1].
  destruct (if negb (Dice_adv d =? 0) then _ else _) as [output results]. cbn [fst].
  no_err.
Qed.

Lemma Fudge_draw_no_dice_error n : forall s : Src, no_dice_error (fst (Fudge_draw n s)).
Proof.
  induction n as [|n IH]; intros s; cbn [Fudge_draw]; [exact I|].
  destruct (choice _ s) as [i s1].
  pose proof (no_dice_error_index fudge_faces i) as Hi.
  destruct (index fudge_faces i); cbn [fst]; auto.
  specialize (IH s1). destruct (Fudge_draw n s1) as [r s2]. cbn [fst] in *.
  no_err.
Qed.

Lemma FudgeDice_roll_no_dice_error cfg d (s : Src) : no_dice_error (fst (FudgeDice_roll cfg d s)).
Proof.
  unfold FudgeDice_roll.
  pose proof (Fudge_draw_no_dice_error (Z.to_nat (Fudge_count d)) s) as Hd.
  destruct (Fudge_draw _ s) as [r s1]. cbn [fst] in *.
  no_err.
Qed.

Lemma BP_candidates_no_dice_error g ds : no_dice_error (BP_candidates g ds).
Proof.
  induction ds as [|x ds IH]; cbn [BP_candidates]; no_err.
Qed.

Lemma BonusPunishDice_roll_no_dice_error cfg d (s : Src) :
  no_dice_error (fst (BonusPunishDice_roll cfg d s)).
Proof.
  unfold BonusPunishDice_roll. destruct (randint 1 100 s) as [b s1].
  destruct (draw _ 0 9 s1) as [ds s2]. cbn [fst].
  apply no_dice_error_bind; [apply BP_candidates_no_dice_error|].
  no_err.
Qed.

Lemma WOD_while_no_dice_error fuel cfg d : forall dice_count success_count buf (s : Src),
  no_dice_error (fst (WOD_while fuel cfg d dice_count success_count buf s)).
Proof.
  induction fuel as [|f IH]; intros dice_count success_count buf s; cbn [WOD_while]; [exact I|].
  destruct (dice_count =? 0); [exact I|].
  destruct (WOD_draw_loop _ _ _ _ _ _ s) as [[[rs es] ix] s1].
  destruct (WOD_show_loop _ _ _ _ _ _ _ _) as [[e c] b]. apply IH.
Qed.

Lemma WODDice_roll_no_dice_error fuel cfg d (s : Src) :
  no_dice_error (fst (WODDice_roll fuel cfg d s)).
Proof.
  unfold WODDice_roll.
  pose proof (WOD_while_no_dice_error fuel cfg d (WOD_count d) 0 "=[" s) as Hw.
  destruct (WOD_while _ _ _ _ _ _ s) as [r s1]. cbn [fst] in *.
  no_err.
Qed.

Lemma DX_while_no_dice_error fuel cfg d : forall dice_count rounds last_round buf (s : Src),
  no_dice_error (fst (DX_while fuel cfg d dice_count rounds last_round buf s)).
Proof.
  induction fuel as [|f IH]; intros dice_count rounds last_round buf s; cbn [DX_while]; [exact I|].
  destruct (dice_count =? 0); [exact I|].
  destruct (DX_draw_loop _ _ _ _ s) as [[rs es] s1].
  destruct (DX_show_loop _ _ _ _ _ _) as [e b]. apply IH.
Qed.

Lemma DXDice_roll_no_dice_error fuel cfg d (s : Src) :
  no_dice_error (fst (DXDice_roll fuel cfg d s)).
Proof.
  unfold DXDice_roll.
  pose proof (DX_while_no_dice_error fuel cfg d (DX_count d) 0 None "=[" s) as Hw.
  destruct (DX_while _ _ _ _ _ _ _ s) as [r s1]. cbn [fst] in *.
  no_err.
Qed.

Lemma roll_no_dice_error fuel cfg spec (s : Src) : no_dice_error (fst (roll fuel cfg spec s)).
Proof.
  destruct spec; cbn [roll].
  - apply Dice_roll_no_dice_error.
  - apply FudgeDice_roll_no_dice_error.
  - apply BonusPunishDice_roll_no_dice_error.
  - apply WODDice_roll_no_dice_error.
  - apply DXDice_roll_no_dice_error.
Qed.

End RollRaises.

(** C1. Every [DiceSyntaxError] and [DiceValueError] of a notation item is
    raised by the constructor, with the random source exactly as it was: no
    [roll] raises one.  A constructor that returns has established the
    invariants of the item (count, sides, keep/drop, add-line), so no draw is
    made for an item that violates one.  With the calls to the source
    counted, ["XD6"] (a syntax error) and ["1D1"] (a value error) leave the
    count at zero. *)
Theorem validation_precedes_draws :
  (forall (Src : Type) (R : RandomSource Src) fuel cfg v code (s s' : Src) e,
      evaluate fuel cfg v code s = (Raise e, s') -> is_dice_error e = true ->
      construct cfg v code = Raise e /\ s' = s)
  /\ (forall cfg v code spec, construct cfg v code = Ok spec -> valid_spec cfg spec)
  /\ (forall (Src : Type) (R : RandomSource Src) fuel cfg (s : Src),
         evaluate fuel cfg Standard "XD6" (s, O)
         = (Raise (DiceSyntaxError "{I18N:dice.message.error.invalid}"), (s, O))
         /\ evaluate fuel cfg Standard "1D1" (s, O)
            = (if (1 <=? MAX_DICE_COUNT cfg)
               then Raise (DiceValueError "{I18N:dice.message.error.value.sides.d1}")
               else Raise (count_out_of_range cfg 1), (s, O))).
Proof.
  split; [|split].
  - intros Src R fuel cfg v code s s' e Hev Herr. unfold evaluate in Hev.
    destruct (construct cfg v code) as [spec| e0 |] eqn:Ec.
    + pose proof (roll_no_dice_error fuel cfg spec s) as Hn. rewrite Hev in Hn. simpl in Hn.
      congruence.
    + now inversion Hev.
    + discriminate.
  - apply construct_valid.
  - intros Src R fuel cfg s. split; [reflexivity|].
    unfold evaluate, construct, Dice_init.
    change (Dice_get_args "1D1") with (Ok (1, 1, 0, 0) : Res (Z * Z * Z * Z)).
    cbn [bindR]. change (1 <? 1) with false. cbn [orb].
    rewrite (Z.leb_antisym (MAX_DICE_COUNT cfg) 1), Z.ltb_antisym.
    destruct (1 <=? MAX_DICE_COUNT cfg); reflexivity.
Qed.

Lemma validation_precedes_draws_witness :
  construct default_config Standard "XD6"
  = Raise (DiceSyntaxError "{I18N:dice.message.error.invalid}")
  /\ ([3; 5], O) = ([3; 5], O).
Proof.
  apply (proj1 validation_precedes_draws (list Z * nat)%type _ O default_config Standard "XD6"
           ([3; 5], O) ([3; 5], O)); reflexivity.
Defined.

(** ** The explosion loops *)

Section Kernel.

Context {Src : Type} `{RandomSource Src}.

Lemma draw_app_snd n lo hi (s : Src) : snd (draw n lo hi s) = after n lo hi s.
Proof.
  revert s. induction n as [|n IH]; intros s; simpl; [reflexivity|].
  destruct (randint lo hi s) as [x s1] eqn:E. specialize (IH s1).
  destruct (draw n lo hi s1) as [xs s2]. simpl in *. exact IH.
Qed.

Lemma after_add p n lo hi (s : Src) : after (p + n) lo hi s = after n lo hi (after p lo hi s).
Proof.
  revert s. induction p as [|p IH]; intros s; simpl; [reflexivity|]. apply IH.
Qed.

Lemma nth_draw_after p i lo hi (s : Src) :
  nth_draw lo hi (after p lo hi s) i = nth_draw lo hi s (p + i).
Proof.
  unfold nth_draw. now rewrite after_add.
Qed.

Lemma draw_stream n lo hi (s : Src) :
  fst (draw n lo hi s) = map (nth_draw lo hi s) (seq 0 n).
Proof.
  revert s. induction n as [|n IH]; intros s; [reflexivity|].
  cbn [draw]. destruct (randint lo hi s) as [x s1] eqn:E. specialize (IH s1).
  destruct (draw n lo hi s1) as [xs s2]. cbn [fst] in *.
  cbn [seq map]. f_equal.
  - unfold nth_draw. simpl. now rewrite E.
  - rewrite IH, <- seq_shift, map_map. apply map_ext. intros i.
    unfold nth_draw. simpl. now rewrite E.
Qed.

Lemma draw_from p n lo hi (s : Src) :
  draw n lo hi (after p lo hi s)
  = (map (nth_draw lo hi s) (seq p n), after (p + n) lo hi s).
Proof.
  rewrite (surjective_pairing (draw n lo hi (after p lo hi s))).
  rewrite draw_stream, draw_app_snd, <- after_add. f_equal.
  replace (seq p n) with (map (Nat.add p) (seq 0 n)).
  - rewrite map_map. apply map_ext. intros i. apply nth_draw_after.
  - clear. revert p. induction n as [|n IH]; intros p; [reflexivity|].
    cbn [seq map]. rewrite Nat.add_0_r. f_equal.
    rewrite <- seq_shift, map_map, <- (IH (S p)). apply map_ext. intros; lia.
Qed.

Lemma filter_length_le {A} (f : A -> bool) l : (List.length (filter f l) <= List.length l)%nat.
Proof.
  induction l as [|a l IH]; simpl; [lia|]. destruct (f a); simpl; lia.
Qed.

Lemma filter_none {A} (f : A -> bool) l :
  (forall a, In a l -> f a = false) -> filter f l = [].
Proof.
  induction l as [|a l IH]; intros Hf; simpl; [reflexivity|].
  rewrite (Hf a (or_introl eq_refl)). apply IH. intros b Hb. apply Hf. now right.
Qed.

Section Window.

Variables (explodes : Z -> bool) (lo hi : Z) (s0 : Src) (k c : nat).

Hypothesis window :
  forall i, (k <= i < k + c)%nat -> explodes (nth_draw lo hi s0 i) = false.

Let exploded (p n : nat) : nat :=
  List.length (filter explodes (map (nth_draw lo hi s0) (seq p n))).

(** A round thrown inside the window: no die explodes. *)
Lemma exploded_inside p n : (k <= p)%nat -> (p + n <= k + c)%nat -> exploded p n = O.
Proof.
  intros Hp Hn. unfold exploded. rewrite filter_none; [reflexivity|].
  intros a Ha. apply in_map_iff in Ha as (i & <- & Hi). apply in_seq in Hi.
  apply window. lia.
Qed.

(** A round that reaches into the window: only the dice before it explode. *)
Lemma exploded_reaching p n :
  (p <= k)%nat -> (k < p + n)%nat -> (n <= c)%nat -> (exploded p n <= k - p)%nat.
Proof.
  intros Hp Hk Hn. unfold exploded.
  replace n with ((k - p) + (p + n - k))%nat by lia.
  rewrite seq_app, map_app, filter_app, length_app.
  replace (p + (k - p))%nat with k by lia.
  fold (exploded k (p + n - k)). rewrite exploded_inside by lia.
  fold (exploded p (k - p)). unfold exploded.
  etransitivity; [rewrite Nat.add_0_r; apply filter_length_le|].
  now rewrite length_map, length_seq.
Qed.

Lemma explosion_inside p n : (k <= p)%nat -> (p + n <= k + c)%nat ->
  forall fuel, (2 <= fuel)%nat ->
  explosion fuel explodes lo hi n (after p lo hi s0) <> None.
Proof.
  intros Hp Hn fuel Hf. destruct fuel as [|[|fuel]]; try lia.
  cbn [explosion]. destruct n as [|n]; [discriminate|].
  rewrite draw_from. fold (exploded p (S n)). rewrite (exploded_inside p (S n)) by lia.
  discriminate.
Qed.

Lemma explosion_window m : forall p n,
  (n <= c)%nat -> (p <= k)%nat -> (k - p < m)%nat ->
  forall fuel, (m + 2 <= fuel)%nat ->
  explosion fuel explodes lo hi n (after p lo hi s0) <> None.
Proof.
  induction m as [|m IH]; intros p n Hn Hp Hm fuel Hf; [lia|].
  destruct fuel as [|fuel]; [lia|]. cbn [explosion].
  destruct n as [|n]; [discriminate|].
  rewrite draw_from. fold (exploded p (S n)).
  pose proof (filter_length_le explodes (map (nth_draw lo hi s0) (seq p (S n)))) as Hle.
  rewrite length_map, length_seq in Hle. fold (exploded p (S n)) in Hle.
  assert (Hnext : explosion fuel explodes lo hi (exploded p (S n)) (after (p + S n) lo hi s0) <> None).
  { destruct (Nat.le_gt_cases (p + S n) k) as [Hin|Hout].
    - apply IH; lia.
    - pose proof (exploded_reaching p (S n) Hp Hout Hn) as He.
      apply explosion_inside; lia. }
  destruct (explosion fuel explodes lo hi (exploded p (S n)) (after (p + S n) lo hi s0))
    as [[rounds s2]|]; [discriminate | now elim Hnext].
Qed.

End Window.

(** What a finished explosion looks like: no round is empty, and every
    round but the last has an exploding die. *)
Lemma explosion_rounds_nonempty fuel explodes lo hi : forall n (s s' : Src) rounds,
  explosion fuel explodes lo hi n s = Some (rounds, s') ->
  Forall (fun r => r <> []) rounds /\ (n <> O -> rounds <> []).
Proof.
  induction fuel as [|fuel IH]; intros n s s' rounds; cbn [explosion]; [discriminate|].
  destruct n as [|n]; [intros [= <- <-]; split; [constructor | congruence]|].
  pose proof (draw_length (S n) lo hi s) as Hlen.
  destruct (draw (S n) lo hi s) as [xs s1]. cbn [fst] in Hlen.
  destruct (explosion fuel explodes lo hi _ s1) as [[rs s2]|] eqn:E; [|discriminate].
  intros [= <- <-]. apply IH in E as [Hall _]. split; [|discriminate].
  constructor; [|exact Hall]. destruct xs; [discriminate Hlen | discriminate].
Qed.

Lemma explosion_rounds_range `{!RangeContract Src} fuel explodes lo hi :
  lo <= hi -> forall n (s s' : Src) rounds,
  explosion fuel explodes lo hi n s = Some (rounds, s') ->
  Forall (Forall (fun x => lo <= x <= hi)) rounds.
Proof.
  intros Hle. induction fuel as [|fuel IH]; intros n s s' rounds; cbn [explosion]; [discriminate|].
  destruct n as [|n]; [intros [= <- <-]; constructor|].
  pose proof (draw_range (S n) lo hi s Hle) as Hr.
  destruct (draw (S n) lo hi s) as [xs s1]. cbn [fst] in Hr.
  destruct (explosion fuel explodes lo hi _ s1) as [[rs s2]|] eqn:E; [|discriminate].
  intros [= <- <-]. constructor; [exact Hr | eapply IH; eauto].
Qed.

End Kernel.

(** ** The loops of the code against the rounds of the specification *)

Lemma last_cons {A} (a d : A) l : last (a :: l) d = last l a.
Proof.
  revert a d. induction l as [|b l IH]; intros a d; [reflexivity|].
  change (last (a :: b :: l) d) with (last (b :: l) d). now rewrite !IH.
Qed.

Lemma filter_snd_combine {A} (f : A -> bool) l :
  List.length (filter snd (combine l (map f l))) = List.length (filter f l).
Proof.
  induction l as [|a l IH]; simpl; [reflexivity|]. destruct (f a); simpl; now rewrite IH.
Qed.

Lemma map_fst_combine {A B} (f : A -> B) l : map fst (combine l (map f l)) = l.
Proof.
  induction l as [|a l IH]; simpl; [reflexivity|]. now rewrite IH.
Qed.

Lemma mem_nat_app j l1 l2 : mem_nat j (l1 ++ l2)%list = mem_nat j l1 || mem_nat j l2.
Proof. apply existsb_app. Qed.

Lemma mem_nat_In j l : mem_nat j l = true <-> In j l.
Proof.
  unfold mem_nat. rewrite existsb_exists. split.
  - intros (x & Hx & E). apply Nat.eqb_eq in E. now subst.
  - intros Hin. exists j. split; [exact Hin | apply Nat.eqb_refl].
Qed.

Lemma mem_nat_nodup j l : mem_nat j (nodup Nat.eq_dec l) = mem_nat j l.
Proof.
  apply eq_true_iff_eq. rewrite !mem_nat_In. apply nodup_In.
Qed.

Section Simulation.

Context {Src : Type} `{RandomSource Src}.

(** *** Double-Cross *)

Lemma DX_draw_loop_spec d n : forall rs es (s : Src),
  DX_draw_loop d n rs es s
  = ((rs ++ fst (draw n 1 (DX_sides d) s),
      es ++ map (DX_explodes d) (fst (draw n 1 (DX_sides d) s)))%list,
     snd (draw n 1 (DX_sides d) s)).
Proof.
  induction n as [|n IH]; intros rs es s; cbn [DX_draw_loop draw].
  - cbn [fst snd map]. now rewrite !app_nil_r.
  - destruct (randint 1 (DX_sides d) s) as [x s1].
    assert (E : (if DX_add_line d <=? x then (es ++ [true])%list else (es ++ [false])%list)
                = (es ++ [DX_explodes d x])%list)
      by (unfold DX_explodes; destruct (DX_add_line d <=? x); reflexivity).
    rewrite E, IH. destruct (draw n 1 (DX_sides d) s1) as [xs s2]. cbn [fst snd map].
    now rewrite <- !app_assoc.
Qed.

Lemma DX_show_loop_exceed cfg dice_count xs : forall i e buf,
  fst (DX_show_loop cfg dice_count i xs e buf) = e + Z.of_nat (List.length (filter snd xs)).
Proof.
  induction xs as [|[x b] xs IH]; intros i e buf; cbn [DX_show_loop filter]; [cbn; lia|].
  destruct b; cbn [snd]; rewrite IH; cbn [List.length]; lia.
Qed.

Lemma DX_while_explosion fuel cfg d : forall n rounds last_round buf (s : Src),
  match explosion fuel (DX_explodes d) 1 (DX_sides d) n s with
  | Some (rs, s') =>
      exists buf',
        DX_while fuel cfg d (Z.of_nat n) rounds last_round buf s
        = (Ok (rounds + Z.of_nat (List.length rs), last (map Some rs) last_round, buf'), s')
  | None => fst (DX_while fuel cfg d (Z.of_nat n) rounds last_round buf s) = Running
  end.
Proof.
  induction fuel as [|fuel IH]; intros n rounds last_round buf s; [reflexivity|].
  cbn [explosion DX_while]. destruct n as [|n].
  - cbn. eexists. rewrite Z.add_0_r. reflexivity.
  - replace (Z.of_nat (S n) =? 0) with false by (symmetry; apply Z.eqb_neq; lia).
    rewrite Nat2Z.id, DX_draw_loop_spec. cbn [app].
    destruct (draw (S n) 1 (DX_sides d) s) as [xs s1]. cbn [fst snd].
    pose proof (DX_show_loop_exceed cfg (Z.of_nat (S n))
                  (combine xs (map (DX_explodes d) xs)) 0 0 (buf ++ "{")) as He.
    destruct (DX_show_loop cfg (Z.of_nat (S n)) 0 (combine xs (map (DX_explodes d) xs)) 0
                (buf ++ "{")) as [e b]. cbn [fst] in He.
    rewrite filter_snd_combine, Z.add_0_l in He. subst e.
    specialize (IH (List.length (filter (DX_explodes d) xs)) (rounds + 1) (Some xs) (b ++ "}, ") s1).
    destruct (explosion fuel (DX_explodes d) 1 (DX_sides d) (List.length (filter (DX_explodes d) xs)) s1)
      as [[rs s2]|].
    + destruct IH as [buf' IH]. exists buf'. rewrite IH. cbn [map List.length].
      rewrite last_cons.
      replace (rounds + 1 + Z.of_nat (List.length rs))
        with (rounds + Z.of_nat (S (List.length rs))) by lia.
      reflexivity.
    + exact IH.
Qed.

(** *** The exploding pool *)

Lemma WOD_draw_loop_spec d n : forall i rs es ix (s : Src),
  exists ix',
    WOD_draw_loop d n i rs es ix s
    = ((rs ++ fst (draw n 1 (WOD_sides d) s),
        es ++ map (WOD_explodes d) (fst (draw n 1 (WOD_sides d) s)), ix')%list,
       snd (draw n 1 (WOD_sides d) s))
    /\ forall j, mem_nat j ix'
                 = mem_nat j ix
                   || ((i <=? j)%nat && (j <? i + n)%nat
                       && WOD_success d (nth (j - i) (fst (draw n 1 (WOD_sides d) s)) 0)).
Proof.
  induction n as [|n IH]; intros i rs es ix s; cbn [WOD_draw_loop draw].
  - exists ix. cbn [fst snd map]. rewrite !app_nil_r. split; [reflexivity|].
    intros j. destruct (i <=? j)%nat eqn:E1; destruct (j <? i + 0)%nat eqn:E2;
      cbn [andb]; rewrite ?orb_false_r; try reflexivity.
    apply Nat.leb_le in E1. apply Nat.ltb_lt in E2. lia.
  - destruct (randint 1 (WOD_sides d) s) as [x s1].
    set (ix1 := nodup Nat.eq_dec _).
    assert (Hix1 : forall j, mem_nat j ix1 = mem_nat j ix || ((j =? i)%nat && WOD_success d x)).
    { intros j. subst ix1. rewrite mem_nat_nodup. unfold WOD_success.
      destruct (negb (WOD_success_line d =? 0) && (WOD_success_line d <=? x));
        destruct (negb (WOD_success_line_max d =? 0) && (x <=? WOD_success_line_max d));
        rewrite ?mem_nat_app; cbn [mem_nat existsb orb];
        rewrite ?orb_false_r, ?andb_true_r, ?andb_false_r, ?orb_false_r; try reflexivity.
      destruct (mem_nat j ix), (j =? i)%nat; reflexivity. }
    assert (E : (if negb (WOD_add_line d =? 0)
                 then if WOD_add_line d <=? x then (es ++ [true])%list else (es ++ [false])%list
                 else (es ++ [false])%list)
                = (es ++ [WOD_explodes d x])%list).
    { unfold WOD_explodes. destruct (WOD_add_line d =? 0), (WOD_add_line d <=? x); reflexivity. }
    rewrite E.
    destruct (IH (S i) (rs ++ [x])%list (es ++ [WOD_explodes d x])%list ix1 s1) as (ix' & Hrun & Hmem).
    exists ix'. rewrite Hrun. destruct (draw n 1 (WOD_sides d) s1) as [xs s2]. cbn [fst snd map] in *.
    split; [now rewrite <- !app_assoc|].
    intros j. rewrite Hmem, Hix1, <- orb_assoc. f_equal.
    destruct (Nat.lt_trichotomy j i) as [Hlt|[->|Hgt]].
    + replace (j =? i)%nat with false by (symmetry; apply Nat.eqb_neq; lia).
      replace (S i <=? j)%nat with false by (symmetry; apply Nat.leb_gt; lia).
      replace (i <=? j)%nat with false by (symmetry; apply Nat.leb_gt; lia).
      reflexivity.
    + rewrite Nat.eqb_refl, Nat.leb_refl, Nat.sub_diag.
      replace (S i <=? i)%nat with false by (symmetry; apply Nat.leb_gt; lia).
      replace (i <? i + S n)%nat with true by (symmetry; apply Nat.ltb_lt; lia).
      cbn [nth andb orb]. now rewrite orb_false_r.
    + replace (j =? i)%nat with false by (symmetry; apply Nat.eqb_neq; lia).
      replace (S i <=? j)%nat with true by (symmetry; apply Nat.leb_le; lia).
      replace (i <=? j)%nat with true by (symmetry; apply Nat.leb_le; lia).
      replace (j <? i + S n)%nat with (j <? S i + n)%nat by (f_equal; lia).
      replace (j - i)%nat with (S (j - S i)) by lia. reflexivity.
Qed.

Lemma WOD_show_loop_counts cfg d dice_count ix xs : forall i e sc buf,
  (forall t, (t < List.length xs)%nat ->
             mem_nat (i + t) ix = WOD_success d (nth t (map fst xs) 0)) ->
  exists buf',
    WOD_show_loop cfg dice_count ix i xs e sc buf
    = (e + Z.of_nat (List.length (filter snd xs)),
       sc + Z.of_nat (List.length (filter (WOD_success d) (map fst xs))), buf').
Proof.
  induction xs as [|[x b] xs IH]; intros i e sc buf Hix; cbn [WOD_show_loop].
  - eexists. cbn. rewrite !Z.add_0_r. reflexivity.
  - pose proof (Hix O ltac:(cbn; lia)) as H0. rewrite Nat.add_0_r in H0. cbn in H0.
    assert (Hnext : forall t, (t < List.length xs)%nat ->
                              mem_nat (S i + t) ix = WOD_success d (nth t (map fst xs) 0)).
    { intros t Ht. specialize (Hix (S t) ltac:(cbn; lia)).
      rewrite Nat.add_succ_r in Hix. exact Hix. }
    cbn [filter map fst snd]. rewrite H0.
    destruct b, (WOD_success d x);
      match goal with
      | |- context [WOD_show_loop cfg dice_count ix (S i) xs ?e' ?sc' ?buf'] =>
          destruct (IH (S i) e' sc' buf' Hnext) as [buf'' ->]
      end;
      exists buf''; cbn [List.length]; f_equal; f_equal; lia.
Qed.

Lemma successes_cons d xs rounds :
  successes d (xs :: rounds)
  = Z.of_nat (List.length (filter (WOD_success d) xs)) + successes d rounds.
Proof.
  unfold successes. cbn [List.concat]. rewrite filter_app, length_app. lia.
Qed.

Lemma WOD_while_explosion fuel cfg d : forall n sc buf (s : Src),
  match explosion fuel (WOD_explodes d) 1 (WOD_sides d) n s with
  | Some (rs, s') =>
      exists buf',
        WOD_while fuel cfg d (Z.of_nat n) sc buf s = (Ok (sc + successes d rs, buf'), s')
  | None => fst (WOD_while fuel cfg d (Z.of_nat n) sc buf s) = Running
  end.
Proof.
  induction fuel as [|fuel IH]; intros n sc buf s; [reflexivity|].
  cbn [explosion WOD_while]. destruct n as [|n].
  - cbn. eexists. unfold successes. cbn. rewrite Z.add_0_r. reflexivity.
  - replace (Z.of_nat (S n) =? 0) with false by (symmetry; apply Z.eqb_neq; lia).
    rewrite Nat2Z.id.
    destruct (WOD_draw_loop_spec d (S n) 0 [] [] [] s) as (ix & Hrun & Hmem).
    rewrite Hrun. cbn [app].
    pose proof (draw_length (S n) 1 (WOD_sides d) s) as Hlen.
    destruct (draw (S n) 1 (WOD_sides d) s) as [xs s1]. cbn [fst snd] in *.
    destruct (WOD_show_loop_counts cfg d (Z.of_nat (S n)) ix
                (combine xs (map (WOD_explodes d) xs)) 0 0 sc (buf ++ "{")) as [b Hshow].
    { intros t Ht. rewrite map_fst_combine, Hmem. cbn [mem_nat existsb orb Nat.add].
      rewrite length_combine, length_map, Nat.min_id in Ht.
      replace (t <? S n)%nat with true by (symmetry; apply Nat.ltb_lt; lia).
      now rewrite Nat.sub_0_r. }
    rewrite Hshow, filter_snd_combine, map_fst_combine, Z.add_0_l.
    specialize (IH (List.length (filter (WOD_explodes d) xs))
                  (sc + Z.of_nat (List.length (filter (WOD_success d) xs))) (b ++ "}, ") s1).
    destruct (explosion fuel (WOD_explodes d) 1 (WOD_sides d)
                (List.length (filter (WOD_explodes d) xs)) s1) as [[rs s2]|].
    + destruct IH as [buf' IH]. exists buf'. rewrite IH, successes_cons.
      now rewrite Z.add_assoc.
    + exact IH.
Qed.

End Simulation.

(** ** [DXDice.roll] *)

Lemma last_map_snoc {A} (l : list A) a d : last (map Some (l ++ [a])%list) d = Some a.
Proof.
  rewrite map_app. cbn [map]. apply last_last.
Qed.

Lemma max_nonempty l : l <> [] -> exists top, Py.max l = Some top /\ is_max_of top l.
Proof.
  destruct l as [|x r]; [congruence|]. intros _. cbn [Py.max].
  eexists. split; [reflexivity | apply fold_max_spec].
Qed.

(** C4, as amended.  A Double-Cross evaluation that terminates went through
    at least one round; its result is [(rounds - 1) * sides] plus the
    greatest value of the final round, hence above [(rounds - 1) * sides] and
    at most [rounds * sides], for every source that respects the range of
    [randint].  (It is at least [sides] only from the second round on.) *)
Theorem double_cross_result :
  forall (Src : Type) (R : RandomSource Src), RangeContract Src ->
  forall fuel cfg code d (s : Src) out,
    DXDice_init cfg code = Ok d ->
    fst (DXDice_roll fuel cfg d s) = Ok out ->
    exists earlier final s' top,
      explosion fuel (DX_explodes d) 1 (DX_sides d) (Z.to_nat (DX_count d)) s
      = Some ((earlier ++ [final])%list, s')
      /\ is_max_of top final
      /\ result out = (Z.of_nat (List.length (earlier ++ [final])%list) - 1) * DX_sides d + top
      /\ Z.of_nat (List.length earlier) * DX_sides d + 1 <= result out
         <= (Z.of_nat (List.length earlier) + 1) * DX_sides d.
Proof.
  intros Src R C fuel cfg code d s out Hinit Hroll.
  apply DXDice_init_valid in Hinit as (_ & Hc & Hs & Ha).
  unfold DXDice_roll in Hroll.
  pose proof (DX_while_explosion fuel cfg d (Z.to_nat (DX_count d)) 0 None "=[" s) as Hsim.
  rewrite Z2Nat.id in Hsim by lia.
  destruct (explosion fuel (DX_explodes d) 1 (DX_sides d) (Z.to_nat (DX_count d)) s)
    as [[rs s']|] eqn:Hexp.
  - destruct Hsim as [buf' Hsim]. rewrite Hsim in Hroll. cbn [fst bindR] in Hroll.
    pose proof (explosion_rounds_nonempty _ _ _ _ _ _ _ _ Hexp) as [Hne Hrs].
    pose proof (explosion_rounds_range _ _ 1 (DX_sides d) ltac:(lia) _ _ _ _ Hexp) as Hrange.
    destruct (exists_last (Hrs ltac:(lia))) as (earlier & final & ->).
    rewrite last_map_snoc in Hroll. cbn [bindR] in Hroll.
    apply Forall_app in Hne as [_ Hfin]. apply Forall_app in Hrange as [_ Hfr].
    inversion Hfin as [|? ? Hfinal _]; subst. inversion Hfr as [|? ? Hfrange _]; subst.
    destruct (max_nonempty final Hfinal) as (top & Etop & Hmax).
    rewrite Etop in Hroll. cbn [opt_or_ValueError bindR] in Hroll.
    injection Hroll as <-. exists earlier, final, s', top.
    split; [reflexivity|]. split; [exact Hmax|]. cbn [result finish].
    split; [f_equal; lia|].
    destruct Hmax as [Hin _]. rewrite Forall_forall in Hfrange. specialize (Hfrange _ Hin).
    rewrite length_app. cbn [List.length]. nia.
  - destruct (DX_while fuel cfg d (DX_count d) 0 None "=[" s) as [r s1].
    cbn [fst] in Hsim. subst r. discriminate Hroll.
Qed.

Lemma double_cross_result_witness :
  exists earlier final s' top,
    explosion 2 (DX_explodes (mkDXDice "1C10" 1 10 10)) 1 10 1 lowest
    = Some ((earlier ++ [final])%list, s')
    /\ is_max_of top final
    /\ 1 = (Z.of_nat (List.length (earlier ++ [final])%list) - 1) * 10 + top
    /\ Z.of_nat (List.length earlier) * 10 + 1 <= 1 <= (Z.of_nat (List.length earlier) + 1) * 10.
Proof.
  exact (double_cross_result Lowest _ _ 2%nat default_config "1C10" (mkDXDice "1C10" 1 10 10)
           lowest {| result := 1; detail := "1C10=[{1}]=1" |} eq_refl eq_refl).
Defined.

(** C4, the claim as worded ("the result is always at least [sides]") against
    the code: one die of ten sides, add-line 10, on a source that answers 1
    (within [1, 10]) ends after one round with the result 1. *)
Lemma double_cross_below_sides_counterexample :
  DXDice_init default_config "1C10" = Ok (mkDXDice "1C10" 1 10 10)
  /\ fst (DXDice_roll 2 default_config (mkDXDice "1C10" 1 10 10) lowest)
     = Ok {| result := 1; detail := "1C10=[{1}]=1" |}
  /\ ~ (DX_sides (mkDXDice "1C10" 1 10 10) <= 1).
Proof.
  repeat split; try reflexivity. cbn. lia.
Qed.

(** ** Termination of the explosion loops *)

Section Termination.

Context {Src : Type} `{RandomSource Src}.

Lemma WODDice_roll_terminates fuel cfg d (s : Src) :
  0 <= WOD_count d ->
  explosion fuel (WOD_explodes d) 1 (WOD_sides d) (Z.to_nat (WOD_count d)) s <> None ->
  exists out, fst (WODDice_roll fuel cfg d s) = Ok out.
Proof.
  intros Hc Hexp. unfold WODDice_roll.
  pose proof (WOD_while_explosion fuel cfg d (Z.to_nat (WOD_count d)) 0 "=[" s) as Hsim.
  rewrite Z2Nat.id in Hsim by lia.
  destruct (explosion fuel (WOD_explodes d) 1 (WOD_sides d) (Z.to_nat (WOD_count d)) s)
    as [[rs s']|]; [|congruence].
  destruct Hsim as [buf' ->]. cbn [fst bindR]. eexists; reflexivity.
Qed.

Lemma DXDice_roll_terminates fuel cfg d (s : Src) :
  1 <= DX_count d ->
  explosion fuel (DX_explodes d) 1 (DX_sides d) (Z.to_nat (DX_count d)) s <> None ->
  exists out, fst (DXDice_roll fuel cfg d s) = Ok out.
Proof.
  intros Hc Hexp. unfold DXDice_roll.
  pose proof (DX_while_explosion fuel cfg d (Z.to_nat (DX_count d)) 0 None "=[" s) as Hsim.
  rewrite Z2Nat.id in Hsim by lia.
  destruct (explosion fuel (DX_explodes d) 1 (DX_sides d) (Z.to_nat (DX_count d)) s)
    as [[rs s']|] eqn:Hrun; [|congruence].
  destruct Hsim as [buf' ->]. cbn [fst bindR].
  pose proof (explosion_rounds_nonempty _ _ _ _ _ _ _ _ Hrun) as [Hne Hrs].
  destruct (exists_last (Hrs ltac:(lia))) as (earlier & final & ->).
  rewrite last_map_snoc. cbn [bindR].
  apply Forall_app in Hne as [_ Hfin]. inversion Hfin as [|? ? Hfinal _]; subst.
  destruct (max_nonempty final Hfinal) as (top & -> & _). cbn. eexists; reflexivity.
Qed.

Lemma after_0 lo hi (s : Src) : after 0 lo hi s = s.
Proof. reflexivity. Qed.

End Termination.

Lemma double_cross_highest_never_ends fuel :
  explosion fuel (DX_explodes (mkDXDice "1C10" 1 10 10)) 1 10 1 highest = None.
Proof.
  induction fuel as [|fuel IH]; [reflexivity|].
  cbn [explosion draw randint AlwaysHighest filter].
  change (DX_explodes (mkDXDice "1C10" 1 10 10) 10) with true.
  cbn [List.length]. now rewrite IH.
Qed.




(** ** [WODDice.roll]: the success count *)

Lemma filter_length_mono {A} (f g : A -> bool) l :
  (forall a, f a = true -> g a = true) ->
  (List.length (filter f l) <= List.length (filter g l))%nat.
Proof.
  intros Hfg. induction l as [|a l IH]; cbn [filter]; [lia|].
  destruct (f a) eqn:Ef.
  - rewrite (Hfg a Ef). cbn [List.length]. lia.
  - destruct (g a); cbn [List.length]; lia.
Qed.

Lemma WOD_success_lower_line d line1 line2 x :
  0 < line1 <= line2 ->
  WOD_success (with_success_line d line2) x = true ->
  WOD_success (with_success_line d line1) x = true.
Proof.
  intros Hl. unfold WOD_success, with_success_line.
  cbn [WOD_success_line WOD_success_line_max].
  rewrite !orb_true_iff, !andb_true_iff, !negb_true_iff, !Z.eqb_neq, !Z.leb_le. lia.
Qed.




(** ** The configuration and the result *)

Section ConfigFrame.

Variables cfg cfg' : Config.

Hypothesis same_exp : MAX_OUTPUT_EXP cfg = MAX_OUTPUT_EXP cfg'.

Lemma fmt_num_cfg num sep : fmt_num cfg num sep = fmt_num cfg' num sep.
Proof. unfold fmt_num. now rewrite same_exp. Qed.

Lemma Dice_mark_loop_cfg count indexes xs : forall i buf new_results,
  Dice_mark_loop cfg count indexes i xs buf new_results
  = Dice_mark_loop cfg' count indexes i xs buf new_results.
Proof.
  induction xs as [|x xs IH]; intros i buf new_results; cbn [Dice_mark_loop]; [reflexivity|].
  rewrite fmt_num_cfg. destruct (mem_nat i indexes); apply IH.
Qed.

Lemma Dice_sum_loop_cfg length xs : forall i result buf,
  Dice_sum_loop cfg length i xs result buf = Dice_sum_loop cfg' length i xs result buf.
Proof.
  induction xs as [|x xs IH]; intros i result buf; cbn [Dice_sum_loop]; [reflexivity|].
  rewrite fmt_num_cfg. apply IH.
Qed.

Lemma BP_show_loop_cfg count xs : forall i buf,
  BP_show_loop cfg count i xs buf = BP_show_loop cfg' count i xs buf.
Proof.
  induction xs as [|x xs IH]; intros i buf; cbn [BP_show_loop]; [reflexivity|].
  rewrite fmt_num_cfg. apply IH.
Qed.

Lemma WOD_show_loop_cfg dice_count indexes xs : forall i e sc buf,
  WOD_show_loop cfg dice_count indexes i xs e sc buf
  = WOD_show_loop cfg' dice_count indexes i xs e sc buf.
Proof.
  induction xs as [|[x b] xs IH]; intros i e sc buf; cbn [WOD_show_loop]; [reflexivity|].
  rewrite fmt_num_cfg. destruct b, (mem_nat i indexes); apply IH.
Qed.

Lemma DX_show_loop_cfg dice_count xs : forall i e buf,
  DX_show_loop cfg dice_count i xs e buf = DX_show_loop cfg' dice_count i xs e buf.
Proof.
  induction xs as [|[x b] xs IH]; intros i e buf; cbn [DX_show_loop]; [reflexivity|].
  rewrite fmt_num_cfg. destruct b; apply IH.
Qed.

Context {Src : Type} `{RandomSource Src}.

Lemma WOD_while_cfg fuel d : forall dice_count sc buf (s : Src),
  WOD_while fuel cfg d dice_count sc buf s = WOD_while fuel cfg' d dice_count sc buf s.
Proof.
  induction fuel as [|fuel IH]; intros dice_count sc buf s; cbn [WOD_while]; [reflexivity|].
  destruct (dice_count =? 0); [reflexivity|].
  destruct (WOD_draw_loop _ _ _ _ _ _ s) as [[[rs es] ix] s1].
  rewrite WOD_show_loop_cfg. destruct (WOD_show_loop _ _ _ _ _ _ _ _) as [[e c] b]. apply IH.
Qed.

Lemma DX_while_cfg fuel d : forall dice_count rounds last_round buf (s : Src),
  DX_while fuel cfg d dice_count rounds last_round buf s
  = DX_while fuel cfg' d dice_count rounds last_round buf s.
Proof.
  induction fuel as [|fuel IH]; intros dice_count rounds last_round buf s; cbn [DX_while];
    [reflexivity|].
  destruct (dice_count =? 0); [reflexivity|].
  destruct (DX_draw_loop _ _ _ _ s) as [[rs es] s1].
  rewrite DX_show_loop_cfg. destruct (DX_show_loop _ _ _ _ _ _) as [e b]. apply IH.
Qed.

End ConfigFrame.

Section ResultFrame.

Context {Src : Type} `{RandomSource Src}.

Variables cfg cfg' : Config.

Hypothesis same_exp : MAX_OUTPUT_EXP cfg = MAX_OUTPUT_EXP cfg'.

(** The numeric result (and what is left of the source) depends on the
    configuration through [MAX_OUTPUT_EXP] at most. *)
Lemma roll_result_cfg fuel spec (s : Src) :
  snd (roll fuel cfg spec s) = snd (roll fuel cfg' spec s)
  /\ same_result (fst (roll fuel cfg spec s)) (fst (roll fuel cfg' spec s)).
Proof.
  destruct spec as [d|d|d|d|d]; cbn [roll].
  - unfold Dice_roll. destruct (draw _ _ _ s) as [xs s1]. cbv zeta.
    destruct (negb (Dice_adv d =? 0)).
    + rewrite (Dice_mark_loop_cfg cfg cfg' same_exp).
      destruct (Dice_mark_loop _ _ _ _ _ _ _) as [buf kept].
      rewrite (Dice_sum_loop_cfg cfg cfg' same_exp).
      destruct (1 <? List.length kept)%nat.
      * destruct (Dice_sum_loop _ _ _ _ _ _) as [r b]. cbn. auto.
      * destruct (index kept 0); cbn; auto.
    + rewrite (Dice_sum_loop_cfg cfg cfg' same_exp).
      destruct (1 <? List.length xs)%nat.
      * destruct (Dice_sum_loop _ _ _ _ _ _) as [r b]. cbn. auto.
      * destruct (index xs 0); cbn; auto.
  - unfold FudgeDice_roll. destruct (Fudge_draw _ s) as [[l| |] s1]; cbn; auto.
  - unfold BonusPunishDice_roll. destruct (randint 1 100 s) as [b s1].
    destruct (draw _ 0 9 s1) as [ds s2]. cbn [fst snd]. split; [reflexivity|].
    destruct (BP_candidates _ ds) as [tens| |]; cbn [bindR]; try (cbn; auto; fail).
    destruct (1 <? BP_count d).
    + cbn [bindR]. destruct (opt_or_ValueError _); cbn; auto.
    + destruct (index ds 0); cbn [bindR]; try (cbn; auto; fail).
      destruct (opt_or_ValueError _); cbn; auto.
  - unfold WODDice_roll. cbv zeta. rewrite (WOD_while_cfg cfg cfg' same_exp).
    destruct (WOD_while _ _ _ _ _ _ s) as [[[sc b]| |] s1]; cbn; auto.
  - unfold DXDice_roll. cbv zeta. rewrite (DX_while_cfg cfg cfg' same_exp).
    destruct (DX_while _ _ _ _ _ _ _ s) as [[[[r l] b]| |] s1]; cbn [fst snd bindR];
      try (cbn; auto; fail).
    split; [reflexivity|]. destruct l as [l|]; cbn [bindR]; [|cbn; auto].
    destruct (opt_or_ValueError _); cbn; auto.
Qed.

End ResultFrame.

Lemma finish_detail cfg output r :
  detail (finish cfg output r)
  = truncate_trace (MAX_OUTPUT_LEN cfg) (output ++ "=" ++ fmt_num cfg r true).
Proof. reflexivity. Qed.

Section LengthFrame.

Context {Src : Type} `{RandomSource Src}.

Variables (cfg : Config) (L : Z).

Let cfg' := with_output_len cfg L.

Lemma finish_same_trace output r :
  same_trace cfg L (Ok (finish cfg output r)) (Ok (finish cfg' output r)).
Proof.
  exists (output ++ "=" ++ fmt_num cfg r true). split; reflexivity.
Qed.

Lemma roll_same_trace fuel spec (s : Src) :
  same_trace cfg L (fst (roll fuel cfg spec s)) (fst (roll fuel cfg' spec s)).
Proof.
  assert (Hexp : MAX_OUTPUT_EXP cfg' = MAX_OUTPUT_EXP cfg) by reflexivity.
  destruct spec as [d|d|d|d|d]; cbn [roll].
  - unfold Dice_roll.
    change (MAX_OUTPUT_CNT cfg') with (MAX_OUTPUT_CNT cfg).
    destruct (draw _ _ _ s) as [xs s1]. cbv zeta.
    destruct (negb (Dice_adv d =? 0)).
    + rewrite (Dice_mark_loop_cfg cfg' cfg Hexp).
      destruct (Dice_mark_loop _ _ _ _ _ _ _) as [buf kept].
      rewrite (Dice_sum_loop_cfg cfg' cfg Hexp).
      destruct (1 <? List.length kept)%nat.
      * destruct (Dice_sum_loop _ _ _ _ _ _) as [r b]. apply finish_same_trace.
      * destruct (index kept 0); cbn [fst bindR]; [apply finish_same_trace | reflexivity | exact I].
    + rewrite (Dice_sum_loop_cfg cfg' cfg Hexp).
      destruct (1 <? List.length xs)%nat.
      * destruct (Dice_sum_loop _ _ _ _ _ _) as [r b]. apply finish_same_trace.
      * destruct (index xs 0); cbn [fst bindR]; [apply finish_same_trace | reflexivity | exact I].
  - unfold FudgeDice_roll. change (MAX_OUTPUT_CNT cfg') with (MAX_OUTPUT_CNT cfg).
    destruct (Fudge_draw _ s) as [[l| |] s1]; cbn [fst bindR];
      [apply finish_same_trace | reflexivity | exact I].
  - unfold BonusPunishDice_roll. change (MAX_OUTPUT_CNT cfg') with (MAX_OUTPUT_CNT cfg).
    destruct (randint 1 100 s) as [b s1].
    destruct (draw _ 0 9 s1) as [ds s2]. cbn [fst]. cbv zeta.
    rewrite !(BP_show_loop_cfg cfg' cfg Hexp).
    destruct (BP_candidates _ ds) as [tens| |]; cbn [bindR]; [|reflexivity|exact I].
    destruct (1 <? BP_count d).
    + cbn [bindR]. destruct (opt_or_ValueError _); cbn [bindR];
        [apply finish_same_trace | reflexivity | exact I].
    + destruct (index ds 0); cbn [bindR]; [|reflexivity|exact I].
      rewrite !(fmt_num_cfg cfg' cfg Hexp).
      destruct (opt_or_ValueError _); cbn [bindR];
        [apply finish_same_trace | reflexivity | exact I].
  - unfold WODDice_roll. cbv zeta. rewrite (WOD_while_cfg cfg' cfg Hexp).
    change (MAX_OUTPUT_CNT cfg') with (MAX_OUTPUT_CNT cfg).
    destruct (WOD_while _ _ _ _ _ _ s) as [[[sc b]| |] s1]; cbn [fst bindR];
      [apply finish_same_trace | reflexivity | exact I].
  - unfold DXDice_roll. cbv zeta. rewrite (DX_while_cfg cfg' cfg Hexp).
    change (MAX_OUTPUT_CNT cfg') with (MAX_OUTPUT_CNT cfg).
    destruct (DX_while _ _ _ _ _ _ _ s) as [[[[r l] b]| |] s1]; cbn [fst bindR];
      [|reflexivity|exact I].
    destruct l as [l|]; cbn [bindR]; [|reflexivity].
    destruct (opt_or_ValueError _); cbn [bindR];
      [apply finish_same_trace | reflexivity | exact I].
Qed.

End LengthFrame.

(** C7. For every variant, source and fuel, an evaluation under another
    maximum trace length ends the same way, leaves the source in the same
    state and has exactly the same numeric result; the two details are the
    length check of the two configurations applied to one and the same
    assembled trace. *)
Theorem trace_length_truncation_keeps_result :
  forall (Src : Type) (R : RandomSource Src) fuel cfg L spec (s : Src),
    snd (roll fuel (with_output_len cfg L) spec s) = snd (roll fuel cfg spec s)
    /\ same_result (fst (roll fuel cfg spec s)) (fst (roll fuel (with_output_len cfg L) spec s))
    /\ same_trace cfg L (fst (roll fuel cfg spec s)) (fst (roll fuel (with_output_len cfg L) spec s)).
Proof.
  intros Src R fuel cfg L spec s.
  destruct (roll_result_cfg cfg (with_output_len cfg L) eq_refl fuel spec s) as [Hs Hr].
  split; [now symmetry|]. split; [exact Hr|]. apply roll_same_trace.
Qed.

(** ** The item-count placeholder *)

Section Placeholders.

Context {Src : Type} `{RandomSource Src}.

Variable cfg : Config.

Lemma WOD_placeholder fuel d (s : Src) out :
  fst (WODDice_roll fuel cfg d s) = Ok out -> MAX_OUTPUT_CNT cfg <= WOD_count d ->
  out = finish cfg (WOD_code d ++ too_long_items (WOD_count d)) (result out).
Proof.
  intros Hroll Hcnt. unfold WODDice_roll in Hroll.
  destruct (WOD_while _ _ _ _ _ _ s) as [[[sc b]| |] s1]; cbn [fst bindR] in Hroll;
    try discriminate.
  replace (MAX_OUTPUT_CNT cfg <=? WOD_count d) with true in Hroll
    by (symmetry; apply Z.leb_le; lia).
  injection Hroll as <-. reflexivity.
Qed.

Lemma DX_placeholder fuel d (s : Src) out :
  fst (DXDice_roll fuel cfg d s) = Ok out -> MAX_OUTPUT_CNT cfg <= DX_count d ->
  out = finish cfg (DX_code d ++ too_long_items (DX_count d)) (result out).
Proof.
  intros Hroll Hcnt. unfold DXDice_roll in Hroll.
  destruct (DX_while _ _ _ _ _ _ _ s) as [[[[r l] b]| |] s1]; cbn [fst bindR] in Hroll;
    try discriminate.
  destruct l as [l|]; cbn [bindR] in Hroll; [|discriminate].
  destruct (opt_or_ValueError (Py.max l)) as [top| |]; cbn [bindR] in Hroll; try discriminate.
  replace (MAX_OUTPUT_CNT cfg <=? DX_count d) with true in Hroll
    by (symmetry; apply Z.leb_le; lia).
  injection Hroll as <-. reflexivity.
Qed.

Lemma BP_placeholder d (s : Src) out :
  fst (BonusPunishDice_roll cfg d s) = Ok out ->
  1 < BP_count d -> MAX_OUTPUT_CNT cfg <= BP_count d ->
  out = finish cfg ("D100=" ++ Py.str (fst (randint 1 100 s)) ++ ", " ++ BP_code d
                    ++ too_long_items (BP_count d)) (result out).
Proof.
  intros Hroll Hone Hcnt. unfold BonusPunishDice_roll in Hroll.
  destruct (randint 1 100 s) as [b s1]. destruct (draw _ 0 9 s1) as [ds s2].
  cbn [fst] in *. cbv zeta in Hroll.
  destruct (BP_candidates _ ds) as [tens| |]; cbn [bindR] in Hroll; try discriminate.
  replace (1 <? BP_count d) with true in Hroll by (symmetry; apply Z.ltb_lt; lia).
  replace (MAX_OUTPUT_CNT cfg <=? BP_count d) with true in Hroll
    by (symmetry; apply Z.leb_le; lia).
  cbn [bindR] in Hroll.
  destruct (opt_or_ValueError _) as [r| |]; cbn [bindR] in Hroll; try discriminate.
  injection Hroll as <-. cbn [result finish append].
  now rewrite !string_app_assoc.
Qed.

Lemma Dice_keep_placeholder d (s : Src) out :
  fst (Dice_roll cfg d s) = Ok out ->
  Dice_adv d <> 0 -> MAX_OUTPUT_CNT cfg <= Dice_count d ->
  exists rest,
    out = finish cfg ((Dice_code d ++ too_long_items (Dice_count d)) ++ rest) (result out)
    /\ (MAX_OUTPUT_CNT cfg < Dice_count d ->
        rest = EmptyString \/ rest = too_long_items (Dice_count d)).
Proof.
  intros Hroll Hadv Hcnt. unfold Dice_roll in Hroll.
  destruct (draw _ _ _ s) as [xs s1]. cbv zeta in Hroll.
  replace (Dice_adv d =? 0) with false in Hroll by (symmetry; apply Z.eqb_neq; lia).
  cbn [negb] in Hroll.
  destruct (Dice_mark_loop _ _ _ _ _ _ _) as [buf kept].
  replace (MAX_OUTPUT_CNT cfg <=? Dice_count d) with true in Hroll
    by (symmetry; apply Z.leb_le; lia).
  cbn [fst] in Hroll. destruct (1 <? List.length kept)%nat.
  - destruct (Dice_sum_loop _ _ _ _ _ _) as [r b]. cbn [bindR] in Hroll.
    injection Hroll as <-. eexists. split; [reflexivity|].
    intros Hlt. right.
    replace (MAX_OUTPUT_CNT cfg <? Dice_count d) with true by (symmetry; apply Z.ltb_lt; lia).
    reflexivity.
  - destruct (index kept 0) as [x| |]; cbn [bindR] in Hroll; try discriminate.
    injection Hroll as <-. exists EmptyString. split; [|now left].
    cbn [result finish]. now rewrite string_app_nil_r.
Qed.

Lemma Dice_sum_placeholder d (s : Src) out :
  fst (Dice_roll cfg d s) = Ok out ->
  Dice_adv d = 0 -> 1 < Dice_count d -> MAX_OUTPUT_CNT cfg < Dice_count d ->
  out = finish cfg (Dice_code d ++ too_long_items (Dice_count d)) (result out).
Proof.
  intros Hroll Hadv Hone Hcnt. unfold Dice_roll in Hroll.
  pose proof (draw_length (Z.to_nat (Dice_count d)) 1 (Dice_sides d) s) as Hlen.
  destruct (draw _ _ _ s) as [xs s1]. cbv zeta in Hroll. cbn [fst] in *.
  rewrite Hadv in Hroll. cbn [Z.eqb negb] in Hroll.
  replace (1 <? List.length xs)%nat with true in Hroll
    by (symmetry; apply Nat.ltb_lt; lia).
  destruct (Dice_sum_loop _ _ _ _ _ _) as [r b].
  replace (MAX_OUTPUT_CNT cfg <? Dice_count d) with true in Hroll
    by (symmetry; apply Z.ltb_lt; lia).
  cbn [bindR] in Hroll. injection Hroll as <-. reflexivity.
Qed.

Lemma Fudge_placeholder d (s : Src) out :
  fst (FudgeDice_roll cfg d s) = Ok out -> MAX_OUTPUT_CNT cfg < Fudge_count d ->
  exists before, out = finish cfg (before ++ too_long_items (Fudge_count d)) (result out).
Proof.
  intros Hroll Hcnt. unfold FudgeDice_roll in Hroll.
  destruct (Fudge_draw _ s) as [[l| |] s1]; cbn [fst bindR] in Hroll; try discriminate.
  replace (MAX_OUTPUT_CNT cfg <? Fudge_count d) with true in Hroll
    by (symmetry; apply Z.ltb_lt; lia).
  injection Hroll as <-. exists EmptyString. reflexivity.
Qed.

End Placeholders.

(** C6, as amended.  The numeric result of every variant is the same under
    any other maximum-displayed-item-count, over the same source.  The
    itemized bracket is replaced by the placeholder carrying the true count
    when the count reaches or exceeds that maximum in the exploding,
    Double-Cross and Bonus/Punish (more than one die) pools and for the
    keep/drop bracket of the standard pool; for the sum bracket of the
    standard pool and for the Fudge pool when the count exceeds the
    maximum. *)
Theorem item_count_truncation :
  forall (Src : Type) (R : RandomSource Src) fuel cfg (s : Src),
    (forall n spec,
        snd (roll fuel (with_output_cnt cfg n) spec s) = snd (roll fuel cfg spec s)
        /\ same_result (fst (roll fuel cfg spec s))
                       (fst (roll fuel (with_output_cnt cfg n) spec s)))
    /\ (forall d out,
           fst (WODDice_roll fuel cfg d s) = Ok out -> MAX_OUTPUT_CNT cfg <= WOD_count d ->
           out = finish cfg (WOD_code d ++ too_long_items (WOD_count d)) (result out))
    /\ (forall d out,
           fst (DXDice_roll fuel cfg d s) = Ok out -> MAX_OUTPUT_CNT cfg <= DX_count d ->
           out = finish cfg (DX_code d ++ too_long_items (DX_count d)) (result out))
    /\ (forall d out,
           fst (BonusPunishDice_roll cfg d s) = Ok out ->
           1 < BP_count d -> MAX_OUTPUT_CNT cfg <= BP_count d ->
           out = finish cfg ("D100=" ++ Py.str (fst (randint 1 100 s)) ++ ", " ++ BP_code d
                             ++ too_long_items (BP_count d)) (result out))
    /\ (forall d out,
           fst (Dice_roll cfg d s) = Ok out ->
           Dice_adv d <> 0 -> MAX_OUTPUT_CNT cfg <= Dice_count d ->
           exists rest,
             out = finish cfg ((Dice_code d ++ too_long_items (Dice_count d)) ++ rest) (result out)
             /\ (MAX_OUTPUT_CNT cfg < Dice_count d ->
                 rest = EmptyString \/ rest = too_long_items (Dice_count d)))
    /\ (forall d out,
           fst (Dice_roll cfg d s) = Ok out ->
           Dice_adv d = 0 -> 1 < Dice_count d -> MAX_OUTPUT_CNT cfg < Dice_count d ->
           out = finish cfg (Dice_code d ++ too_long_items (Dice_count d)) (result out))
    /\ (forall d out,
           fst (FudgeDice_roll cfg d s) = Ok out -> MAX_OUTPUT_CNT cfg < Fudge_count d ->
           exists before,
             out = finish cfg (before ++ too_long_items (Fudge_count d)) (result out)).
Proof.
  intros Src R fuel cfg s. split.
  { intros n spec.
    destruct (roll_result_cfg cfg (with_output_cnt cfg n) eq_refl fuel spec s) as [Hs Hr].
    split; [now symmetry | exact Hr]. }
  split; [intros; now apply (WOD_placeholder cfg fuel d s)|].
  split; [intros; now apply (DX_placeholder cfg fuel d s)|].
  split; [intros; now apply BP_placeholder|].
  split; [intros; now apply (Dice_keep_placeholder cfg d s)|].
  split; [intros; now apply (Dice_sum_placeholder cfg d s)|].
  intros; now apply (Fudge_placeholder cfg d s).
Qed.

Lemma item_count_truncation_witness :
  {| result := 1; detail := "2C10=[{I18N:dice.message.output.too_long,length=2}]=1" |}
  = finish (with_output_cnt default_config 2)
      ("2C10" ++ too_long_items 2) 1.
Proof.
  apply (proj1 (proj2 (proj2 (item_count_truncation Lowest _ 2%nat
                                (with_output_cnt default_config 2) lowest)))
           (mkDXDice "2C10" 2 10 10)).
  - reflexivity.
  - cbn. lia.
Defined.

(** C6, the claim as worded (a count EQUAL to the maximum already brings the
    placeholder, in every variant) against the code: with the maximum at 2,
    the sum bracket of [2D6] and the bracket of [2DF] are still itemized;
    so is the bracket of fifty Fudge dice under the default maximum of 50. *)
Lemma item_count_boundary_counterexample :
  MAX_OUTPUT_CNT (with_output_cnt default_config 2) = 2
  /\ evaluate 0 (with_output_cnt default_config 2) Standard "2D6" [3; 5]
     = (Ok {| result := 8; detail := "2D6=[3+5]=8" |}, [])
  /\ evaluate 0 (with_output_cnt default_config 2) Fudge "2DF" [0; 2]
     = (Ok {| result := 0; detail := "2F=[-, +]=0" |}, [])
  /\ MAX_OUTPUT_CNT default_config = 50
  /\ fst (evaluate 0 default_config Fudge "50DF" lowest)
     = Ok {| result := -50;
            detail := "50F=[" ++ Py.join ", " (repeat "-" 50) ++ "]=-50" |}.
Proof.
  repeat split; vm_compute; reflexivity.
Qed.

(** ** Determinism in the draws *)

Section Determinism.

Context {S1 S2 : Type} `{RandomSource S1} `{RandomSource S2}.

Variable related : S1 -> S2 -> Prop.

Hypothesis related_same_draws : same_draws related.

Ltac step_randint lo hi s1 s2 Hr x t1 t2 Hn :=
  let Hv := fresh "Hv" in
  destruct (proj1 (related_same_draws s1 s2 Hr) lo hi) as [Hv Hn];
  destruct (randint lo hi s1) as [x t1];
  destruct (randint lo hi s2) as [? t2];
  cbn [fst snd] in Hv, Hn; subst.

Lemma draw_agree n lo hi : forall s1 s2, related s1 s2 ->
  agree related (draw n lo hi s1) (draw n lo hi s2).
Proof.
  induction n as [|n IH]; intros s1 s2 Hr; cbn [draw]; [split; [reflexivity | exact Hr]|].
  step_randint lo hi s1 s2 Hr x t1 t2 Hn.
  destruct (IH t1 t2 Hn) as [Exs Hr']. destruct (draw n lo hi t1), (draw n lo hi t2).
  cbn [fst snd] in *. subst. split; [reflexivity | exact Hr'].
Qed.

Lemma Fudge_draw_agree n : forall s1 s2, related s1 s2 ->
  agree related (Fudge_draw n s1) (Fudge_draw n s2).
Proof.
  induction n as [|n IH]; intros s1 s2 Hr; cbn [Fudge_draw]; [split; [reflexivity | exact Hr]|].
  destruct (proj2 (related_same_draws s1 s2 Hr) (List.length fudge_faces)) as [Hv Hn].
  destruct (choice (List.length fudge_faces) s1) as [i t1].
  destruct (choice (List.length fudge_faces) s2) as [i' t2].
  cbn [fst snd] in Hv, Hn. subst i'.
  destruct (index fudge_faces i); try (split; [reflexivity | exact Hn]).
  destruct (IH t1 t2 Hn) as [Exs Hr']. destruct (Fudge_draw n t1), (Fudge_draw n t2).
  cbn [fst snd] in *. subst. split; [reflexivity | exact Hr'].
Qed.

Lemma WOD_draw_loop_agree d n : forall i rs es ix s1 s2, related s1 s2 ->
  agree related (WOD_draw_loop d n i rs es ix s1) (WOD_draw_loop d n i rs es ix s2).
Proof.
  induction n as [|n IH]; intros i rs es ix s1 s2 Hr; cbn [WOD_draw_loop];
    [split; [reflexivity | exact Hr]|].
  step_randint 1 (WOD_sides d) s1 s2 Hr x t1 t2 Hn. cbv zeta. now apply IH.
Qed.

Lemma DX_draw_loop_agree d n : forall rs es s1 s2, related s1 s2 ->
  agree related (DX_draw_loop d n rs es s1) (DX_draw_loop d n rs es s2).
Proof.
  induction n as [|n IH]; intros rs es s1 s2 Hr; cbn [DX_draw_loop];
    [split; [reflexivity | exact Hr]|].
  step_randint 1 (DX_sides d) s1 s2 Hr x t1 t2 Hn. cbv zeta. now apply IH.
Qed.

Lemma WOD_while_agree fuel cfg d : forall dice_count sc buf s1 s2, related s1 s2 ->
  agree related (WOD_while fuel cfg d dice_count sc buf s1)
                (WOD_while fuel cfg d dice_count sc buf s2).
Proof.
  induction fuel as [|fuel IH]; intros dice_count sc buf s1 s2 Hr; cbn [WOD_while];
    [split; [reflexivity | exact Hr]|].
  destruct (dice_count =? 0); [split; [reflexivity | exact Hr]|].
  destruct (WOD_draw_loop_agree d (Z.to_nat dice_count) 0 [] [] [] s1 s2 Hr) as [E Hr'].
  destruct (WOD_draw_loop d (Z.to_nat dice_count) 0 [] [] [] s1) as [[[rs es] ix] t1].
  destruct (WOD_draw_loop d (Z.to_nat dice_count) 0 [] [] [] s2) as [p t2].
  cbn [fst snd] in E, Hr'. subst p.
  destruct (WOD_show_loop _ _ _ _ _ _ _ _) as [[e c] b]. now apply IH.
Qed.

Lemma DX_while_agree fuel cfg d : forall dice_count rounds last_round buf s1 s2, related s1 s2 ->
  agree related (DX_while fuel cfg d dice_count rounds last_round buf s1)
                (DX_while fuel cfg d dice_count rounds last_round buf s2).
Proof.
  induction fuel as [|fuel IH]; intros dice_count rounds last_round buf s1 s2 Hr; cbn [DX_while];
    [split; [reflexivity | exact Hr]|].
  destruct (dice_count =? 0); [split; [reflexivity | exact Hr]|].
  destruct (DX_draw_loop_agree d (Z.to_nat dice_count) [] [] s1 s2 Hr) as [E Hr'].
  destruct (DX_draw_loop d (Z.to_nat dice_count) [] [] s1) as [[rs es] t1].
  destruct (DX_draw_loop d (Z.to_nat dice_count) [] [] s2) as [p t2].
  cbn [fst snd] in E, Hr'. subst p.
  destruct (DX_show_loop _ _ _ _ _ _) as [e b]. now apply IH.
Qed.

Lemma roll_agree fuel cfg spec s1 s2 :
  related s1 s2 -> agree related (roll fuel cfg spec s1) (roll fuel cfg spec s2).
Proof.
  intros Hr. destruct spec as [d|d|d|d|d]; cbn [roll].
  - unfold Dice_roll.
    destruct (draw_agree (Z.to_nat (Dice_count d)) 1 (Dice_sides d) s1 s2 Hr) as [E Hr'].
    destruct (draw _ 1 _ s1) as [xs t1], (draw _ 1 _ s2) as [xs' t2].
    cbn [fst snd] in E, Hr'. subst xs'. cbv zeta.
    destruct (if negb (Dice_adv d =? 0) then _ else _) as [output results].
    split; [reflexivity | exact Hr'].
  - unfold FudgeDice_roll.
    destruct (Fudge_draw_agree (Z.to_nat (Fudge_count d)) s1 s2 Hr) as [E Hr'].
    destruct (Fudge_draw _ s1) as [r t1], (Fudge_draw _ s2) as [r' t2].
    cbn [fst snd] in E, Hr'. subst r'. split; [reflexivity | exact Hr'].
  - unfold BonusPunishDice_roll.
    step_randint 1 100 s1 s2 Hr b t1 t2 Hn.
    destruct (draw_agree (Z.to_nat (BP_count d)) 0 9 t1 t2 Hn) as [E Hr'].
    destruct (draw _ 0 9 t1) as [ds u1], (draw _ 0 9 t2) as [ds' u2].
    cbn [fst snd] in E, Hr'. subst ds'. split; [reflexivity | exact Hr'].
  - unfold WODDice_roll.
    destruct (WOD_while_agree fuel cfg d (WOD_count d) 0 "=[" s1 s2 Hr) as [E Hr'].
    destruct (WOD_while _ _ _ _ _ _ s1) as [r t1], (WOD_while _ _ _ _ _ _ s2) as [r' t2].
    cbn [fst snd] in E, Hr'. subst r'. split; [reflexivity | exact Hr'].
  - unfold DXDice_roll.
    destruct (DX_while_agree fuel cfg d (DX_count d) 0 None "=[" s1 s2 Hr) as [E Hr'].
    destruct (DX_while _ _ _ _ _ _ _ s1) as [r t1], (DX_while _ _ _ _ _ _ _ s2) as [r' t2].
    cbn [fst snd] in E, Hr'. subst r'. split; [reflexivity | exact Hr'].
Qed.

End Determinism.

Lemma replay_and_counted_same_draws : same_draws replay_and_counted.
Proof.
  intros s1 [l n] E. unfold replay_and_counted in *. cbn [fst] in E. subst s1.
  split; intros; destruct l; cbn; split; reflexivity.
Qed.

(** C10. Two evaluations of the same item, fed two sources that return the
    same sequence of values (whatever their own states are), end the same
    way: the same exception, both still running, or one and the same outcome,
    the result integer and the detail string alike; and the two sources go
    on returning the same values afterwards. *)
Theorem evaluation_deterministic_in_draws :
  forall (S1 S2 : Type) (R1 : RandomSource S1) (R2 : RandomSource S2)
         (related : S1 -> S2 -> Prop) fuel cfg spec s1 s2,
    same_draws related -> related s1 s2 ->
    fst (roll fuel cfg spec s1) = fst (roll fuel cfg spec s2)
    /\ related (snd (roll fuel cfg spec s1)) (snd (roll fuel cfg spec s2)).
Proof.
  intros S1 S2 R1 R2 related fuel cfg spec s1 s2 Hsame Hr.
  exact (roll_agree related Hsame fuel cfg spec s1 s2 Hr).
Qed.

Lemma evaluation_deterministic_in_draws_witness :
  fst (roll 3 default_config (SpecWOD (mkWODDice "3A8" 3 8 8 0 10)) [10; 3; 6; 5])
  = fst (roll 3 default_config (SpecWOD (mkWODDice "3A8" 3 8 8 0 10)) ([10; 3; 6; 5], O))
  /\ replay_and_counted
       (snd (roll 3 default_config (SpecWOD (mkWODDice "3A8" 3 8 8 0 10)) [10; 3; 6; 5]))
       (snd (roll 3 default_config (SpecWOD (mkWODDice "3A8" 3 8 8 0 10)) ([10; 3; 6; 5], O))).
Proof.
  apply (evaluation_deterministic_in_draws (list Z) (list Z * nat) _ _ replay_and_counted).
  - exact replay_and_counted_same_draws.
  - reflexivity.
Defined.

(** * Further properties of [dice.py] *)

(** ** [FudgeDice.roll]: the range of the result *)

Section FudgeRange.

Context {Src : Type} `{RandomSource Src} `{!RangeContract Src}.

Lemma Fudge_draw_contract n : forall s : Src,
  exists picks, fst (Fudge_draw n s) = Ok picks /\ List.length picks = n.
Proof.
  induction n as [|n IH]; intros s; cbn [Fudge_draw]; [exists []; split; reflexivity|].
  pose proof (choice_range (List.length fudge_faces) s ltac:(cbn; lia)) as Hi.
  destruct (choice (List.length fudge_faces) s) as [i s1]. cbn [fst] in Hi.
  unfold index. destruct (nth_error fudge_faces i) as [x|] eqn:E.
  - destruct (IH s1) as (picks & Hp & Hlen). destruct (Fudge_draw n s1) as [r s2].
    cbn [fst] in *. subst r. exists (x :: picks). split; [reflexivity|]. cbn. now rewrite Hlen.
  - apply nth_error_None in E. lia.
Qed.

End FudgeRange.

Lemma Fudge_step_bounds picks : forall result,
  result - Z.of_nat (List.length picks) <= fold_left Fudge_step picks result
  <= result + Z.of_nat (List.length picks).
Proof.
  induction picks as [|p picks IH]; intros result; cbn [fold_left List.length]; [lia|].
  specialize (IH (Fudge_step result p)). rewrite Nat2Z.inj_succ.
  unfold Fudge_step in *. destruct (String.eqb p "-"), (String.eqb p "+"); lia.
Qed.

(** X1. A validated Fudge pool, rolled on a source that keeps [choice] inside
    the three faces, returns an outcome whose result lies in
    [-count, count]. *)
Theorem fudge_result_range :
  forall (Src : Type) (R : RandomSource Src), RangeContract Src ->
  forall cfg code d (s : Src),
    FudgeDice_init cfg code = Ok d ->
    exists out, fst (FudgeDice_roll cfg d s) = Ok out
                /\ - Fudge_count d <= result out <= Fudge_count d.
Proof.
  intros Src R C cfg code d s Hinit. apply FudgeDice_init_valid in Hinit as (_ & Hc).
  unfold FudgeDice_roll.
  destruct (Fudge_draw_contract (Z.to_nat (Fudge_count d)) s) as (picks & Hp & Hlen).
  destruct (Fudge_draw _ s) as [r s1]. cbn [fst] in *. subst r. cbn [bindR].
  eexists. split; [reflexivity|]. cbn [result finish].
  pose proof (Fudge_step_bounds picks 0) as Hb. rewrite Hlen, Z2Nat.id in Hb by lia. lia.
Qed.

Lemma fudge_result_range_witness :
  exists out, fst (FudgeDice_roll default_config (mkFudgeDice "4dF" 4) highest) = Ok out
              /\ - 4 <= result out <= 4.
Proof.
  exact (fudge_result_range Highest _ _ default_config "4dF" (mkFudgeDice "4dF" 4) highest eq_refl).
Defined.

(** ** [BonusPunishDice.roll]: what the reroll keeps *)

Lemma BonusPunishDice_roll_extreme (Src : Type) (R : RandomSource Src) (C : RangeContract Src)
    cfg code d (s : Src) :
  BonusPunishDice_init cfg code = Ok d ->
  let b := fst (randint 1 100 s) in
  let drawn := fst (draw (Z.to_nat (BP_count d)) 0 9 (snd (randint 1 100 s))) in
  let candidates := BP_candidate_set (units_digit b) b drawn in
  1 <= b <= 100 /\ Forall (fun x => 0 <= x <= 9) drawn
  /\ exists out,
      fst (BonusPunishDice_roll cfg d s) = Ok out
      /\ (if BP_positive d then is_max_of (result out) candidates
          else is_min_of (result out) candidates).
Proof.
  intros Hinit b drawn candidates.
  apply BonusPunishDice_init_valid in Hinit as (_ & Hc).
  pose proof (randint_range 1 100 s ltac:(lia)) as Hb. fold b in Hb.
  pose proof (draw_range (Z.to_nat (BP_count d)) 0 9 (snd (randint 1 100 s)) ltac:(lia)) as Hds.
  pose proof (draw_length (Z.to_nat (BP_count d)) 0 9 (snd (randint 1 100 s))) as Hlen.
  fold drawn in Hds, Hlen.
  assert (Hg : 0 <= units_digit b <= 9).
  { unfold units_digit. pose proof (Z.mod_pos_bound b 10). lia. }
  split; [exact Hb|]. split; [exact Hds|].
  unfold BonusPunishDice_roll.
  subst b drawn. destruct (randint 1 100 s) as [b s1]. cbn [fst snd] in *.
  destruct (draw (Z.to_nat (BP_count d)) 0 9 s1) as [drawn s2]. cbn [fst snd] in *.
  change (b mod 10) with (units_digit b).
  rewrite (BP_candidates_digits _ _ Hg Hds). cbn [bindR].
  change (map (fun item => if item =? 0 then 100 else item)
            (b :: map (fun d0 => 10 * d0 + units_digit b) drawn)) with candidates.
  set (o := if 1 <? BP_count d then _ else _).
  assert (Ho : exists text, o = Ok text).
  { subst o. destruct (1 <? BP_count d) eqn:E; [eauto|].
    apply Z.ltb_ge in E. destruct drawn as [|x r]; [cbn in Hlen; lia|].
    cbn. eauto. }
  destruct Ho as [text ->]. cbn [bindR].
  assert (Hne : exists c cs, candidates = c :: cs) by (unfold candidates, BP_candidate_set; simpl; eauto).
  destruct Hne as (c & cs & Ecs). rewrite Ecs in *.
  destruct (BP_positive d); cbn [Py.max Py.min opt_or_ValueError bindR].
  - eexists; split; [reflexivity|]. cbn [result finish]. apply fold_max_spec.
  - eexists; split; [reflexivity|]. cbn [result finish]. apply fold_min_spec.
Qed.

Lemma BP_candidate_units g b drawn :
  0 <= g <= 9 -> 1 <= b -> b mod 10 = g ->
  Forall (fun c => c mod 10 = g) (BP_candidate_set g b drawn).
Proof.
  intros Hg Hb Hbg. unfold BP_candidate_set. cbn [map]. constructor.
  - unfold wrap100. replace (b =? 0) with false by (symmetry; apply Z.eqb_neq; lia). exact Hbg.
  - induction drawn as [|d ds IH]; cbn [map]; constructor; [|exact IH].
    unfold wrap100. destruct (10 * d + g =? 0) eqn:E.
    + apply Z.eqb_eq in E. change (100 mod 10) with 0.
      assert (Hm : (10 * d + g) mod 10 = 0 mod 10) by now rewrite E.
      rewrite Z.add_comm, Z.mul_comm, Z.mod_add, Z.mod_small in Hm by lia.
      change (0 mod 10) with 0 in Hm. lia.
    + rewrite Z.add_comm, Z.mul_comm, Z.mod_add, Z.mod_small by lia. reflexivity.
Qed.

(** X2. A Bonus/Punish roll of a validated item never changes the units
    digit of the base value; under [P] the result is at least the base value
    and under [B] at most the base value. *)
Theorem bonus_punish_keeps_units_digit :
  forall (Src : Type) (R : RandomSource Src), RangeContract Src ->
  forall cfg code d (s : Src),
    BonusPunishDice_init cfg code = Ok d ->
    exists out,
      fst (BonusPunishDice_roll cfg d s) = Ok out
      /\ result out mod 10 = fst (randint 1 100 s) mod 10
      /\ (if BP_positive d then fst (randint 1 100 s) <= result out
          else result out <= fst (randint 1 100 s)).
Proof.
  intros Src R C cfg code d s Hinit.
  destruct (BonusPunishDice_roll_extreme Src R C cfg code d s Hinit) as (Hb & Hds & out & Hout & Hext).
  exists out. split; [exact Hout|].
  set (b := fst (randint 1 100 s)) in *.
  assert (Hg : 0 <= units_digit b <= 9).
  { unfold units_digit. pose proof (Z.mod_pos_bound b 10). lia. }
  pose proof (BP_candidate_units (units_digit b) b
                (fst (draw (Z.to_nat (BP_count d)) 0 9 (snd (randint 1 100 s))))
                Hg ltac:(lia) eq_refl) as Hunits.
  assert (Hbin : In b (BP_candidate_set (units_digit b) b
                         (fst (draw (Z.to_nat (BP_count d)) 0 9 (snd (randint 1 100 s)))))).
  { unfold BP_candidate_set. cbn [map]. left. unfold wrap100.
    replace (b =? 0) with false by (symmetry; apply Z.eqb_neq; lia). reflexivity. }
  rewrite Forall_forall in Hunits.
  destruct (BP_positive d); destruct Hext as [Hin Hall]; rewrite Forall_forall in Hall.
  - split; [apply (Hunits _ Hin) | apply (Hall _ Hbin)].
  - split; [apply (Hunits _ Hin) | apply (Hall _ Hbin)].
Qed.

Lemma bonus_punish_keeps_units_digit_witness :
  exists out,
    fst (BonusPunishDice_roll default_config (mkBonusPunishDice "b3" 3 false) lowest) = Ok out
    /\ result out mod 10 = 1 mod 10
    /\ result out <= 1.
Proof.
  exact (bonus_punish_keeps_units_digit Lowest _ _ default_config "b3"
           (mkBonusPunishDice "b3" 3 false) lowest eq_refl).
Defined.

(** ** [fmt_num]: the plain form reads back *)

(** X3. Below the threshold of the scientific form (or with the threshold
    switched off), what [fmt_num] prints is read back by [int] as the same
    number, with or without [sep]. *)
Theorem fmt_num_plain_round_trip :
  forall cfg num sep,
    MAX_OUTPUT_EXP cfg <= 0 \/ Z.abs num < 10 ^ MAX_OUTPUT_EXP cfg ->
    Py.int (fmt_num cfg num sep) = Some num.
Proof.
  intros cfg num sep Hplain. unfold fmt_num.
  replace ((0 <? MAX_OUTPUT_EXP cfg) && (10 ^ MAX_OUTPUT_EXP cfg <=? Z.abs num)) with false;
    [apply int_str|].
  symmetry. apply andb_false_iff. destruct Hplain as [Hoff|Hlow].
  - left. apply Z.ltb_ge. lia.
  - right. apply Z.leb_gt. lia.
Qed.

Lemma fmt_num_plain_round_trip_witness :
  Py.int (fmt_num default_config (-999999999) false) = Some (-999999999).
Proof.
  apply fmt_num_plain_round_trip. right. cbn. lia.
Defined.

(** ** The trace of every [roll] *)

Section TraceShape.

Context {Src : Type} `{RandomSource Src}.

Lemma roll_finish_shape fuel cfg spec (s : Src) out :
  fst (roll fuel cfg spec s) = Ok out ->
  exists output, out = finish cfg output (result out).
Proof.
  destruct spec as [d|d|d|d|d]; cbn [roll]; intros Hroll.
  - unfold Dice_roll in Hroll. destruct (draw _ _ _ s) as [xs s1]. cbv zeta in Hroll.
    destruct (if negb (Dice_adv d =? 0) then _ else _) as [output results].
    cbn [fst] in Hroll. destruct (1 <? List.length results)%nat.
    + destruct (Dice_sum_loop _ _ _ _ _ _) as [r b]. cbn [bindR] in Hroll.
      injection Hroll as <-. eexists; reflexivity.
    + destruct (index results 0); cbn [bindR] in Hroll; try discriminate.
      injection Hroll as <-. eexists; reflexivity.
  - unfold FudgeDice_roll in Hroll.
    destruct (Fudge_draw _ s) as [[l| |] s1]; cbn [fst bindR] in Hroll; try discriminate.
    injection Hroll as <-. eexists; reflexivity.
  - unfold BonusPunishDice_roll in Hroll. destruct (randint 1 100 s) as [b s1].
    destruct (draw _ 0 9 s1) as [ds s2]. cbn [fst] in Hroll. cbv zeta in Hroll.
    destruct (BP_candidates _ ds) as [tens| |]; cbn [bindR] in Hroll; try discriminate.
    destruct (1 <? BP_count d).
    + cbn [bindR] in Hroll.
      destruct (opt_or_ValueError _); cbn [bindR] in Hroll; try discriminate.
      injection Hroll as <-. eexists; reflexivity.
    + destruct (index ds 0); cbn [bindR] in Hroll; try discriminate.
      destruct (opt_or_ValueError _); cbn [bindR] in Hroll; try discriminate.
      injection Hroll as <-. eexists; reflexivity.
  - unfold WODDice_roll in Hroll.
    destruct (WOD_while _ _ _ _ _ _ s) as [[[sc b]| |] s1]; cbn [fst bindR] in Hroll;
      try discriminate.
    injection Hroll as <-. eexists; reflexivity.
  - unfold DXDice_roll in Hroll.
    destruct (DX_while _ _ _ _ _ _ _ s) as [[[[r l] b]| |] s1]; cbn [fst bindR] in Hroll;
      try discriminate.
    destruct l as [l|]; cbn [bindR] in Hroll; [|discriminate].
    destruct (opt_or_ValueError _); cbn [bindR] in Hroll; try discriminate.
    injection Hroll as <-. eexists; reflexivity.
Qed.

End TraceShape.

(** X4. The detail of every outcome, of every variant, is either the
    generic "too long" identifier or a trace of at most [MAX_OUTPUT_LEN]
    characters that ends with [=] and the formatted result; its length never
    exceeds the larger of [MAX_OUTPUT_LEN] and the 28 characters of that
    identifier. *)
Theorem detail_is_bounded :
  forall (Src : Type) (R : RandomSource Src) fuel cfg spec (s : Src) out,
    fst (roll fuel cfg spec s) = Ok out ->
    (detail out = too_long
     \/ (Py.len (detail out) <= MAX_OUTPUT_LEN cfg
         /\ exists output, detail out = output ++ "=" ++ fmt_num cfg (result out) true))
    /\ Py.len (detail out) <= Z.max (MAX_OUTPUT_LEN cfg) 28.
Proof.
  intros Src R fuel cfg spec s out Hroll.
  destruct (roll_finish_shape fuel cfg spec s out Hroll) as [output E].
  pose proof (f_equal detail E) as Hd. cbn [detail finish] in Hd.
  destruct (MAX_OUTPUT_LEN cfg <? Py.len (output ++ "=" ++ fmt_num cfg (result out) true)) eqn:Elen.
  - rewrite Hd. split; [now left|]. change (Py.len too_long) with 28. lia.
  - apply Z.ltb_ge in Elen. rewrite Hd. split; [|lia].
    right. split; [exact Elen|]. eexists; reflexivity.
Qed.

Lemma detail_is_bounded_witness :
  (detail {| result := 8; detail := "2D6=[3+5]=8" |} = too_long
   \/ (Py.len (detail {| result := 8; detail := "2D6=[3+5]=8" |}) <= MAX_OUTPUT_LEN default_config
       /\ exists output,
           detail {| result := 8; detail := "2D6=[3+5]=8" |}
           = output ++ "=" ++ fmt_num default_config (result {| result := 8; detail := "2D6=[3+5]=8" |}) true))
  /\ Py.len (detail {| result := 8; detail := "2D6=[3+5]=8" |}) <= Z.max (MAX_OUTPUT_LEN default_config) 28.
Proof.
  exact (detail_is_bounded (list Z) _ O default_config (SpecDice (mkDice "2D6" 2 6 0 0))
           [3; 5] {| result := 8; detail := "2D6=[3+5]=8" |} eq_refl).
Defined.

(** ** [WODDice.roll]: what the result counts *)

(** X5. The result of an exploding pool that terminates is the number of
    dice, over all its rounds, whose value is at or above a non-zero
    success-line or at or below a non-zero success-line-max, a die that meets
    both being counted once; it lies between 0 and the number of dice
    thrown. *)
Theorem exploding_pool_counts_successes :
  forall (Src : Type) (R : RandomSource Src) fuel cfg d (s : Src) out,
    0 <= WOD_count d ->
    fst (WODDice_roll fuel cfg d s) = Ok out ->
    exists rounds s',
      explosion fuel (WOD_explodes d) 1 (WOD_sides d) (Z.to_nat (WOD_count d)) s
      = Some (rounds, s')
      /\ result out = Z.of_nat (List.length (filter (WOD_success d) (List.concat rounds)))
      /\ 0 <= result out <= Z.of_nat (List.length (List.concat rounds)).
Proof.
  intros Src R fuel cfg d s out Hc Hroll. unfold WODDice_roll in Hroll.
  pose proof (WOD_while_explosion fuel cfg d (Z.to_nat (WOD_count d)) 0 "=[" s) as Hsim.
  rewrite Z2Nat.id in Hsim by lia.
  destruct (explosion fuel (WOD_explodes d) 1 (WOD_sides d) (Z.to_nat (WOD_count d)) s)
    as [[rounds s']|].
  - destruct Hsim as [buf' Hsim]. rewrite Hsim in Hroll. cbn [fst bindR] in Hroll.
    injection Hroll as <-. exists rounds, s'. split; [reflexivity|].
    cbn [result finish]. unfold successes. split; [lia|].
    pose proof (filter_length_le (WOD_success d) (List.concat rounds)). lia.
  - destruct (WOD_while fuel cfg d (WOD_count d) 0 "=[" s) as [r s1].
    cbn [fst] in Hsim. subst r. discriminate Hroll.
Qed.

Lemma exploding_pool_counts_successes_witness :
  exists rounds s',
    explosion 4 (WOD_explodes (mkWODDice "3A8K5Q1" 3 8 5 1 10)) 1 10 3 [10; 3; 8; 9; 2; 1]
    = Some (rounds, s')
    /\ 4 = Z.of_nat (List.length (filter (WOD_success (mkWODDice "3A8K5Q1" 3 8 5 1 10))
                                    (List.concat rounds)))
    /\ 0 <= 4 <= Z.of_nat (List.length (List.concat rounds)).
Proof.
  apply (exploding_pool_counts_successes (list Z) _ 4%nat default_config
           (mkWODDice "3A8K5Q1" 3 8 5 1 10) [10; 3; 8; 9; 2; 1]
           {| result := 4; detail := "3A8K5Q1=[{<10*>, 3, <8*>}, {<9*>, 2}, {1*}]=4" |}).
  - cbn. lia.
  - reflexivity.
Defined.

(** ** The number of calls to the random source *)

Section Calls.

Context {Src : Type} `{RandomSource Src}.

Lemma draw_counted k lo hi : forall (s : Src) (n : nat),
  draw k lo hi (s, n) = (fst (draw k lo hi s), (snd (draw k lo hi s), (n + k)%nat)).
Proof.
  induction k as [|k IH]; intros s n; cbn [draw]; [cbn; now rewrite Nat.add_0_r|].
  cbn [randint Counted fst snd]. destruct (randint lo hi s) as [x s1].
  rewrite IH. destruct (draw k lo hi s1) as [xs s2]. cbn [fst snd].
  replace (S n + k)%nat with (n + S k)%nat by lia. reflexivity.
Qed.

Lemma Fudge_draw_counted k : forall (s : Src) (n : nat) picks st,
  Fudge_draw k (s, n) = (Ok picks, st) -> snd st = (n + k)%nat.
Proof.
  induction k as [|k IH]; intros s n picks st; cbn [Fudge_draw].
  - intros [= <- <-]. cbn. lia.
  - cbn [choice Counted fst snd]. destruct (choice (List.length fudge_faces) s) as [i s1].
    destruct (index fudge_faces i); try discriminate.
    destruct (Fudge_draw k (s1, S n)) as [[l| |] st'] eqn:E; cbn [bindR]; try discriminate.
    intros [= <- <-]. rewrite (IH _ _ _ _ E). lia.
Qed.

Lemma explosion_counted fuel explodes lo hi : forall k (s : Src) (n : nat) rounds st,
  explosion fuel explodes lo hi k (s, n) = Some (rounds, st) ->
  snd st = (n + List.length (List.concat rounds))%nat
  /\ Forall (fun r => (List.length r <= k)%nat) rounds.
Proof.
  induction fuel as [|fuel IH]; intros k s n rounds st; cbn [explosion]; [discriminate|].
  destruct k as [|k]; [intros [= <- <-]; cbn; split; [lia | constructor]|].
  rewrite draw_counted. pose proof (draw_length (S k) lo hi s) as Hlen.
  destruct (draw (S k) lo hi s) as [xs s1]. cbn [fst snd] in *.
  destruct (explosion fuel explodes lo hi (List.length (filter explodes xs)) (s1, (n + S k)%nat))
    as [[rs st']|] eqn:E; [|discriminate].
  intros [= <- <-]. destruct (IH _ _ _ _ _ E) as [Hn Hall]. split.
  - rewrite Hn. cbn [List.concat]. rewrite length_app, Hlen. lia.
  - constructor; [lia|]. pose proof (filter_length_le explodes xs) as Hle.
    eapply Forall_impl; [|exact Hall]. cbn. intros r Hr. lia.
Qed.

End Calls.

Lemma concat_length_bound {A} k (rounds : list (list A)) :
  Forall (fun r => (List.length r <= k)%nat) rounds ->
  (List.length (List.concat rounds) <= k * List.length rounds)%nat.
Proof.
  induction 1 as [|r rounds Hr _ IH]; cbn [List.concat List.length]; [lia|].
  rewrite length_app. lia.
Qed.

(** X6. How often a [roll] that returns an outcome has called the random
    source: [count] times for the standard and the Fudge pool, [count + 1]
    times for Bonus/Punish, and once per die thrown for the two exploding
    pools, each of whose rounds has at most [count] dice. *)
Theorem calls_to_the_source :
  forall (Src : Type) (R : RandomSource Src) fuel cfg spec (s s' : Src) (n n' : nat) out,
    roll fuel cfg spec (s, n) = (Ok out, (s', n')) ->
    match spec with
    | SpecDice d => n' = (n + Z.to_nat (Dice_count d))%nat
    | SpecFudge d => n' = (n + Z.to_nat (Fudge_count d))%nat
    | SpecBonusPunish d => n' = (n + 1 + Z.to_nat (BP_count d))%nat
    | SpecWOD d =>
        0 <= WOD_count d ->
        exists rounds : list (list Z),
          explosion fuel (WOD_explodes d) 1 (WOD_sides d) (Z.to_nat (WOD_count d)) (s, n)
          = Some (rounds, (s', n'))
          /\ n' = (n + List.length (List.concat rounds))%nat
          /\ (List.length (List.concat rounds)
              <= Z.to_nat (WOD_count d) * List.length rounds)%nat
    | SpecDX d =>
        0 <= DX_count d ->
        exists rounds : list (list Z),
          explosion fuel (DX_explodes d) 1 (DX_sides d) (Z.to_nat (DX_count d)) (s, n)
          = Some (rounds, (s', n'))
          /\ n' = (n + List.length (List.concat rounds))%nat
          /\ (List.length (List.concat rounds)
              <= Z.to_nat (DX_count d) * List.length rounds)%nat
    end.
Proof.
  intros Src R fuel cfg spec s s' n n' out Hroll.
  destruct spec as [d|d|d|d|d]; cbn [roll] in Hroll.
  - unfold Dice_roll in Hroll. rewrite draw_counted in Hroll. cbv zeta in Hroll.
    destruct (if negb (Dice_adv d =? 0) then _ else _) as [output results].
    injection Hroll as _ _ Hn. now symmetry.
  - unfold FudgeDice_roll in Hroll.
    destruct (Fudge_draw (Z.to_nat (Fudge_count d)) (s, n)) as [[picks| |] st] eqn:E;
      cbn [bindR] in Hroll; try discriminate.
    apply Fudge_draw_counted in E. injection Hroll as _ Hst. rewrite Hst in E. exact E.
  - unfold BonusPunishDice_roll in Hroll. cbn [randint Counted fst snd] in Hroll.
    destruct (randint 1 100 s) as [b s1]. rewrite draw_counted in Hroll.
    injection Hroll as _ _ Hn. rewrite <- Hn. lia.
  - intros Hc. unfold WODDice_roll in Hroll.
    pose proof (WOD_while_explosion fuel cfg d (Z.to_nat (WOD_count d)) 0 "=[" (s, n)) as Hsim.
    rewrite Z2Nat.id in Hsim by lia.
    destruct (explosion fuel (WOD_explodes d) 1 (WOD_sides d) (Z.to_nat (WOD_count d)) (s, n))
      as [[rounds st]|] eqn:E.
    + destruct Hsim as [buf' Hsim]. rewrite Hsim in Hroll.
      assert (Hst : st = (s', n')).
      { cbn [bindR] in Hroll. now injection Hroll. }
      subst st. destruct (explosion_counted _ _ _ _ _ _ _ _ _ E) as [Hn Hall]. cbn [snd] in Hn.
      exists rounds. split; [reflexivity|]. split; [exact Hn | now apply concat_length_bound].
    + destruct (WOD_while fuel cfg d (WOD_count d) 0 "=[" (s, n)) as [r st].
      cbn [fst] in Hsim. subst r. discriminate Hroll.
  - intros Hc. unfold DXDice_roll in Hroll.
    pose proof (DX_while_explosion fuel cfg d (Z.to_nat (DX_count d)) 0 None "=[" (s, n)) as Hsim.
    rewrite Z2Nat.id in Hsim by lia.
    destruct (explosion fuel (DX_explodes d) 1 (DX_sides d) (Z.to_nat (DX_count d)) (s, n))
      as [[rounds st]|] eqn:E.
    + destruct Hsim as [buf' Hsim]. rewrite Hsim in Hroll.
      assert (Hst : st = (s', n')).
      { cbn [bindR] in Hroll. now injection Hroll. }
      subst st. destruct (explosion_counted _ _ _ _ _ _ _ _ _ E) as [Hn Hall]. cbn [snd] in Hn.
      exists rounds. split; [reflexivity|]. split; [exact Hn | now apply concat_length_bound].
    + destruct (DX_while fuel cfg d (DX_count d) 0 None "=[" (s, n)) as [r st].
      cbn [fst] in Hsim. subst r. discriminate Hroll.
Qed.

Lemma calls_to_the_source_witness : 3%nat = (0 + 1 + Z.to_nat 2)%nat.
Proof.
  exact (calls_to_the_source (list Z) _ O default_config
           (SpecBonusPunish (mkBonusPunishDice "P2" 2 true)) [57; 3; 9] [] 0 3
           {| result := 97; detail := "D100=57, P2=[3, 9]=97" |} eq_refl).
Defined.

(** ** [Dice.roll]: keeping the highest or the lowest dice *)

Lemma insert_sorted_perm x l : Permutation (insert_sorted x l) (x :: l).
Proof.
  induction l as [|y r IH]; cbn [insert_sorted]; [reflexivity|].
  destruct (fst x <? fst y); [reflexivity|].
  rewrite IH. apply perm_swap.
Qed.

Lemma insert_sorted_sorted x l :
  StronglySorted by_value l -> StronglySorted by_value (insert_sorted x l).
Proof.
  induction 1 as [|y r Hr IH Hy]; cbn [insert_sorted].
  - constructor; constructor.
  - destruct (fst x <? fst y) eqn:E.
    + apply Z.ltb_lt in E. constructor; [now constructor|].
      constructor; [unfold by_value; lia|].
      eapply Forall_impl; [|exact Hy]. unfold by_value. cbn. intros a Ha. lia.
    + apply Z.ltb_ge in E. constructor; [exact IH|].
      eapply Permutation_Forall; [symmetry; apply insert_sorted_perm|].
      constructor; [exact E | exact Hy].
Qed.

Lemma fold_insert_sorted ps : forall acc,
  StronglySorted by_value acc ->
  StronglySorted by_value (fold_left (fun acc x => insert_sorted x acc) ps acc)
  /\ Permutation (fold_left (fun acc x => insert_sorted x acc) ps acc) (ps ++ acc).
Proof.
  induction ps as [|p ps IH]; intros acc Hacc; cbn [fold_left app]; [split; [exact Hacc | reflexivity]|].
  destruct (IH (insert_sorted p acc) (insert_sorted_sorted p acc Hacc)) as [Hs Hp].
  split; [exact Hs|]. rewrite Hp, insert_sorted_perm. symmetry. apply Permutation_middle.
Qed.

Lemma map_snd_combine_seq {A} (l : list A) i : map snd (combine l (seq i (List.length l))) = seq i (List.length l).
Proof.
  revert i. induction l as [|a l IH]; intros i; cbn; [reflexivity|]. now rewrite IH.
Qed.

Lemma map_fst_combine_seq {A} (l : list A) i : map fst (combine l (seq i (List.length l))) = l.
Proof.
  revert i. induction l as [|a l IH]; intros i; cbn; [reflexivity|]. now rewrite IH.
Qed.

Lemma Permutation_filter_compat {A} (f : A -> bool) l l' :
  Permutation l l' -> Permutation (filter f l) (filter f l').
Proof.
  induction 1 as [|x l l' _ IH|x y l|l l' l'' _ IH1 _ IH2]; cbn [filter].
  - reflexivity.
  - destruct (f x); [now constructor | exact IH].
  - destruct (f x), (f y); try reflexivity. apply perm_swap.
  - now rewrite IH1.
Qed.

Lemma sumZ_perm l l' : Permutation l l' -> sumZ l = sumZ l'.
Proof.
  induction 1 as [|x l l' _ IH|x y l|l l' l'' _ IH1 _ IH2]; cbn [sumZ fold_right] in *;
    unfold sumZ in *; lia.
Qed.

Lemma sorted_app_le l1 l2 :
  StronglySorted by_value (l1 ++ l2) ->
  forall a b, In a l1 -> In b l2 -> fst a <= fst b.
Proof.
  induction l1 as [|x l1 IH]; cbn [app]; intros Hs a b Ha Hb; [destruct Ha|].
  inversion Hs as [|? ? Hs' Hx]; subst. destruct Ha as [<-|Ha].
  - rewrite Forall_forall in Hx. apply (Hx b). apply in_or_app. now right.
  - now apply IH.
Qed.

Lemma NoDup_app_disjoint {A} (l1 l2 : list A) a :
  NoDup (l1 ++ l2) -> In a l1 -> ~ In a l2.
Proof.
  induction l1 as [|x l1 IH]; cbn [app]; intros Hnd Hin; [destruct Hin|].
  apply NoDup_cons_iff in Hnd as [Hx Hnd]. destruct Hin as [->|Hin].
  - intros H2. apply Hx. apply in_or_app. now right.
  - now apply IH.
Qed.

(** Selecting, among pairs with distinct positions, those whose position is
    one of [chosen]'s: the chosen part of any split of a rearrangement. *)
Lemma filter_chosen (pairs rest chosen : list (Z * nat)) :
  Permutation pairs (rest ++ chosen) -> NoDup (map snd pairs) ->
  Permutation (filter (fun p => mem_nat (snd p) (map snd chosen)) pairs) chosen.
Proof.
  intros Hp Hnd.
  rewrite (Permutation_filter_compat _ _ _ Hp), filter_app.
  assert (Hnd' : NoDup (map snd (rest ++ chosen))).
  { eapply Permutation_NoDup; [apply Permutation_map; exact Hp | exact Hnd]. }
  rewrite map_app in Hnd'.
  assert (Hrest : filter (fun p => mem_nat (snd p) (map snd chosen)) rest = []).
  { apply filter_none. intros a Ha.
    destruct (mem_nat (snd a) (map snd chosen)) eqn:E; [|reflexivity].
    apply mem_nat_In in E. exfalso.
    apply (NoDup_app_disjoint _ _ (snd a) Hnd'); [now apply in_map | exact E]. }
  assert (Hchosen : filter (fun p => mem_nat (snd p) (map snd chosen)) chosen = chosen).
  { clear. set (ix := map snd chosen).
    assert (Hsub : forall p, In p chosen -> In (snd p) ix) by (intros p Hin; now apply in_map).
    clearbody ix. induction chosen as [|c chosen IH]; cbn [filter]; [reflexivity|].
    replace (mem_nat (snd c) ix) with true
      by (symmetry; apply mem_nat_In, Hsub; now left).
    rewrite IH; [reflexivity|]. intros p Hin. apply Hsub. now right. }
  rewrite Hrest, Hchosen. reflexivity.
Qed.

Lemma Dice_mark_loop_kept cfg count indexes xs : forall i buf kept,
  snd (Dice_mark_loop cfg count indexes i xs buf kept)
  = (kept ++ map fst (filter (fun p => mem_nat (snd p) indexes)
                        (combine xs (seq i (List.length xs)))))%list.
Proof.
  induction xs as [|x xs IH]; intros i buf kept; cbn [Dice_mark_loop List.length seq combine filter snd].
  - cbn. now rewrite app_nil_r.
  - destruct (mem_nat i indexes); rewrite IH; cbn [map fst]; [|reflexivity].
    now rewrite <- app_assoc.
Qed.

Lemma kept_values xs (rest chosen : list (Z * nat)) :
  Permutation (combine xs (seq 0 (List.length xs))) (rest ++ chosen) ->
  Permutation
    (map fst (filter (fun p => mem_nat (snd p) (map snd chosen))
                (combine xs (seq 0 (List.length xs)))))
    (map fst chosen)
  /\ Permutation xs
       (map fst (filter (fun p => mem_nat (snd p) (map snd chosen))
                   (combine xs (seq 0 (List.length xs))))
        ++ map fst rest).
Proof.
  intros Hp.
  assert (Hnd : NoDup (map snd (combine xs (seq 0 (List.length xs)))))
    by (rewrite map_snd_combine_seq; apply seq_NoDup).
  pose proof (Permutation_map fst (filter_chosen _ _ _ Hp Hnd)) as Hkept.
  split; [exact Hkept|].
  rewrite Hkept. rewrite <- (map_fst_combine_seq xs 0) at 1.
  rewrite (Permutation_map fst Hp), map_app. apply Permutation_app_comm.
Qed.

Lemma sorted_pairs_spec xs :
  let sorted := fold_left (fun acc x => insert_sorted x acc)
                  (combine xs (seq 0 (List.length xs))) [] in
  argsort xs = map snd sorted
  /\ StronglySorted by_value sorted
  /\ Permutation (combine xs (seq 0 (List.length xs))) sorted
  /\ List.length sorted = List.length xs.
Proof.
  intros sorted. destruct (fold_insert_sorted (combine xs (seq 0 (List.length xs))) []
                             (SSorted_nil _)) as [Hs Hp].
  fold sorted in Hs, Hp. rewrite app_nil_r in Hp.
  split; [reflexivity|]. split; [exact Hs|]. split; [now symmetry|].
  rewrite (Permutation_length Hp), length_combine, length_seq. apply Nat.min_id.
Qed.

Section KeepDrop.

Context {Src : Type} `{RandomSource Src}.

(** The result of a roll with a keep suffix, against the dice drawn. *)
Lemma Dice_roll_keep cfg d (s : Src) :
  0 < Dice_adv d <= Dice_count d ->
  exists out kept dropped,
    fst (Dice_roll cfg d s) = Ok out
    /\ Permutation (fst (draw (Z.to_nat (Dice_count d)) 1 (Dice_sides d) s)) (kept ++ dropped)
    /\ List.length kept = Z.to_nat (Dice_adv d)
    /\ result out = sumZ kept
    /\ (if Dice_positive d =? 1
        then forall k x, In k kept -> In x dropped -> x <= k
        else forall k x, In k kept -> In x dropped -> k <= x).
Proof.
  intros Hadv. unfold Dice_roll.
  pose proof (draw_length (Z.to_nat (Dice_count d)) 1 (Dice_sides d) s) as Hlen.
  destruct (draw (Z.to_nat (Dice_count d)) 1 (Dice_sides d) s) as [xs s1].
  cbn [fst] in *. cbv zeta.
  replace (Dice_adv d =? 0) with false by (symmetry; apply Z.eqb_neq; lia). cbn [negb].
  destruct (sorted_pairs_spec xs) as (Hargsort & Hsorted & Hperm & Hslen).
  set (sorted := fold_left (fun acc x => insert_sorted x acc)
                   (combine xs (seq 0 (List.length xs))) []) in *.
  rewrite Hargsort.
  set (a := Z.to_nat (Dice_adv d)).
  assert (Ha : (0 < a <= List.length xs)%nat) by (subst a; lia).
  (* the positions kept, as the positions of a part of the sorted pairs *)
  assert (Hsel : exists rest chosen,
    (if Dice_positive d =? 1
     then Py.slice_from (- Dice_adv d) (map snd sorted)
     else Py.slice_to (Dice_adv d) (map snd sorted)) = map snd chosen
    /\ Permutation (combine xs (seq 0 (List.length xs))) (rest ++ chosen)
    /\ List.length chosen = a
    /\ (if Dice_positive d =? 1
        then forall p q, In p chosen -> In q rest -> fst q <= fst p
        else forall p q, In p chosen -> In q rest -> fst p <= fst q)).
  { destruct (Dice_positive d =? 1).
    - exists (firstn (List.length xs - a) sorted), (skipn (List.length xs - a) sorted).
      split; [|split; [|split]].
      + unfold Py.slice_from. replace (- Dice_adv d <? 0) with true
          by (symmetry; apply Z.ltb_lt; lia).
        rewrite length_map, Hslen, skipn_map. f_equal. f_equal. subst a. lia.
      + now rewrite firstn_skipn.
      + rewrite length_skipn, Hslen. lia.
      + intros p q Hp Hq. apply (sorted_app_le (firstn (List.length xs - a) sorted)
                                   (skipn (List.length xs - a) sorted)); auto.
        now rewrite firstn_skipn.
    - exists (skipn a sorted), (firstn a sorted).
      split; [|split; [|split]].
      + unfold Py.slice_to. replace (Dice_adv d <? 0) with false
          by (symmetry; apply Z.ltb_ge; lia).
        now rewrite firstn_map.
      + rewrite Hperm. rewrite <- (firstn_skipn a sorted) at 1. apply Permutation_app_comm.
      + rewrite length_firstn, Hslen. lia.
      + intros p q Hp Hq. apply (sorted_app_le (firstn a sorted) (skipn a sorted)); auto.
        now rewrite firstn_skipn. }
  destruct Hsel as (rest & chosen & -> & Hsplit & Hclen & Horder).
  destruct (kept_values xs rest chosen Hsplit) as [Hkept Hall].
  pose proof (Dice_mark_loop_kept cfg (Dice_count d) (map snd chosen) xs 0 "=[" []) as Hmark.
  destruct (Dice_mark_loop cfg (Dice_count d) (map snd chosen) 0 xs "=[" []) as [buf kept].
  cbn [snd app] in Hmark. subst kept.
  set (kept := map fst (filter (fun p => mem_nat (snd p) (map snd chosen))
                          (combine xs (seq 0 (List.length xs))))) in *.
  assert (Hklen : List.length kept = a).
  { rewrite (Permutation_length Hkept), length_map. exact Hclen. }
  assert (Hout : exists out,
    (' (result, output) <-
       (if (1 <? List.length kept)%nat
        then
          let '(result, output_buffer) := Dice_sum_loop cfg (List.length kept) 0 kept 0 "=[" in
          Ok (result,
              (Dice_code d ++
               (if MAX_OUTPUT_CNT cfg <=? Dice_count d then too_long_items (Dice_count d)
                else buf ++ "]")) ++
              (if MAX_OUTPUT_CNT cfg <? Dice_count d then too_long_items (Dice_count d)
               else output_buffer ++ "]"))
        else
          x <- index kept 0 ;;
          Ok (x, Dice_code d ++
                 (if MAX_OUTPUT_CNT cfg <=? Dice_count d then too_long_items (Dice_count d)
                  else buf ++ "]"))) ;;
     Ok (finish cfg output result)) = Ok out /\ result out = sumZ kept).
  { destruct (1 <? List.length kept)%nat eqn:E.
    - pose proof (Dice_sum_loop_result cfg (List.length kept) kept 0 0 "=[") as Hres.
      destruct (Dice_sum_loop cfg (List.length kept) 0 kept 0 "=[") as [r b].
      cbn [fst] in Hres. subst r. cbn [bindR]. eexists. split; [reflexivity|].
      cbn [result finish]. lia.
    - apply Nat.ltb_ge in E. destruct kept as [|x [|y kept']]; cbn [List.length] in *; try lia.
      cbn [index nth_error bindR]. eexists. split; [reflexivity|].
      cbn [result finish sumZ fold_right]. lia. }
  destruct Hout as (out & Hout & Hres).
  exists out, kept, (map fst rest). split; [exact Hout|]. split; [exact Hall|].
  split; [exact Hklen|]. split; [exact Hres|].
  destruct (Dice_positive d =? 1); intros k x Hk Hx.
  - apply (Permutation_in _ Hkept) in Hk. apply in_map_iff in Hk as (p & <- & Hp).
    apply in_map_iff in Hx as (q & <- & Hq). now apply Horder.
  - apply (Permutation_in _ Hkept) in Hk. apply in_map_iff in Hk as (p & <- & Hp).
    apply in_map_iff in Hx as (q & <- & Hq). now apply Horder.
Qed.

End KeepDrop.





(** ** The constructors: which codes are refused, and how *)

Lemma search_outside_ext (f g : ascii -> bool) s :
  (forall c, f c = g c) -> Py.search_outside f s = Py.search_outside g s.
Proof.
  intros E. induction s as [|a s IH]; cbn [Py.search_outside]; [reflexivity|].
  now rewrite E, IH.
Qed.

Lemma search_outside_upper allowed s :
  Py.search_outside allowed (Py.upper s)
  = Py.search_outside (fun c => allowed (Py.upper_char c)) s.
Proof.
  induction s as [|a s IH]; cbn [Py.upper Py.search_outside]; [reflexivity|]. now rewrite IH.
Qed.

Lemma strip_prefix_spec p : forall s rest, Py.strip_prefix p s = Some rest -> s = p ++ rest.
Proof.
  induction p as [|a p IH]; intros s rest E; cbn [Py.strip_prefix append] in *.
  - congruence.
  - destruct s as [|b s]; [discriminate|].
    destruct (Ascii.eqb_spec a b) as [->|]; [|discriminate]. now rewrite (IH _ _ E).
Qed.

Lemma search_outside_replace allowed old new :
  Py.search_outside allowed old = false -> Py.search_outside allowed new = false ->
  forall f s, Py.search_outside allowed (Py.replace_fuel f old new s)
              = Py.search_outside allowed s.
Proof.
  intros Hold Hnew. induction f as [|f IH]; intros s; cbn [Py.replace_fuel]; [reflexivity|].
  destruct (Py.strip_prefix old s) as [rest|] eqn:E.
  - rewrite (strip_prefix_spec _ _ _ E), !search_outside_app, Hold, Hnew, IH. reflexivity.
  - destruct s as [|a s]; [reflexivity|]. cbn [Py.search_outside]. now rewrite IH.
Qed.

Lemma Dice_alphabet c :
  Py.is_digit (Py.upper_char c) || one_of "DKQ%" (Py.upper_char c)
  = Py.contains c "0123456789dDkKqQ%".
Proof. destruct c as [[] [] [] [] [] [] [] []]; reflexivity. Qed.

Lemma Fudge_alphabet c :
  Py.is_digit (Py.upper_char c) || one_of "F" (Py.upper_char c) || Ascii.eqb (Py.upper_char c) "D"
  = Py.contains c "0123456789dDfF".
Proof. destruct c as [[] [] [] [] [] [] [] []]; reflexivity. Qed.

Lemma BonusPunish_alphabet c :
  Py.is_digit (Py.upper_char c) || one_of "BP" (Py.upper_char c)
  = Py.contains c "0123456789bBpP".
Proof. destruct c as [[] [] [] [] [] [] [] []]; reflexivity. Qed.

Lemma search_outside_remove allowed c : forall f s, (String.length s <= f)%nat ->
  Py.search_outside allowed (Py.replace_fuel f (String c EmptyString) EmptyString s)
  = Py.search_outside (fun a => allowed a || Ascii.eqb a c) s.
Proof.
  induction f as [|f IH]; intros s Hlen.
  - destruct s; [reflexivity | cbn [String.length] in Hlen; lia].
  - destruct s as [|a s]; [reflexivity|]. cbn [String.length] in Hlen.
    cbn [Py.replace_fuel Py.strip_prefix Py.search_outside].
    rewrite (Ascii.eqb_sym c a). destruct (Ascii.eqb a c).
    + cbn [append]. rewrite IH by lia. now rewrite orb_true_r.
    + cbn [Py.search_outside]. rewrite IH by lia. now rewrite orb_false_r.
Qed.

Lemma contains_replace_percent : forall f s,
  Py.contains "D" (Py.replace_fuel f "D%" "D100" s) = Py.contains "D" s.
Proof.
  induction f as [|f IH]; intros s; cbn [Py.replace_fuel]; [reflexivity|].
  destruct (Py.strip_prefix "D%" s) as [rest|] eqn:E.
  - now rewrite (strip_prefix_spec _ _ _ E).
  - destruct s as [|a s]; [reflexivity|]. cbn [Py.contains]. now rewrite IH.
Qed.

Lemma contains_upper c s :
  Py.contains c (Py.upper s) = Py.search_outside (fun a => negb (Ascii.eqb (Py.upper_char a) c)) s.
Proof.
  induction s as [|a s IH]; cbn [Py.upper Py.contains Py.search_outside]; [reflexivity|].
  now rewrite IH, negb_involutive.
Qed.

Lemma split_absent c s : Py.contains c s = false -> Py.split c s = [s].
Proof.
  induction s as [|a s IH]; cbn [Py.contains Py.split]; [reflexivity|].
  intros E. apply orb_false_iff in E as [Ea E]. now rewrite Ea, (IH E).
Qed.

Lemma split_present c s : Py.contains c s = true -> exists a b l, Py.split c s = a :: b :: l.
Proof.
  induction s as [|a s IH]; cbn [Py.contains Py.split]; [discriminate|].
  intros E. destruct (Ascii.eqb a c).
  - destruct (Py.split c s) as [|h t] eqn:Es.
    + destruct s; cbn [Py.split] in Es; [discriminate|].
      destruct (Ascii.eqb _ _); [discriminate|]. destruct (Py.split c s); discriminate.
    + now exists EmptyString, h, t.
  - cbn [orb] in E. destruct (IH E) as (x & y & l & ->). now exists (String a x), y, l.
Qed.

Lemma to_int_after_isint {B} s (k : Z -> Res B) :
  isint s = true -> exists z, (z' <- to_int s ;; k z') = k z.
Proof.
  unfold isint, to_int. destruct (Py.int s) as [z|]; [|discriminate]. intros _. now exists z.
Qed.

Lemma mkDiceValueError_is message value :
  exists text, mkDiceValueError message value = DiceValueError text.
Proof.
  unfold mkDiceValueError. destruct value as [v|]; [destruct (truthy v)|]; eauto.
Qed.

(** Walks through the checks of a constructor: each one raises a
    [DiceValueError], and [int] after [isint] succeeds. *)
Ltac value_checks :=
  repeat first
    [ exact I
    | progress cbn [bindR negb]
    | match goal with
      | |- returns_or_value_error (Raise (mkDiceValueError ?m ?v)) =>
          let text := fresh "text" in let E := fresh "E" in
          destruct (mkDiceValueError_is m v) as [text E]; rewrite E; exact I
      | |- returns_or_value_error (Raise (count_out_of_range ?c ?n)) => unfold count_out_of_range
      | |- returns_or_value_error (Raise (add_line_out_of_range ?c ?n)) =>
          unfold add_line_out_of_range
      | |- context [negb (isint ?s)] => let E := fresh "E" in destruct (isint s) eqn:E
      | |- context [bindR (to_int ?s) ?k] =>
          let z := fresh "z" in let E := fresh "E" in
          destruct (to_int_after_isint s k ltac:(assumption)) as [z E]; rewrite E; cbv beta
      | |- context [if ?b then _ else _] => destruct b
      | |- context [match ?p with (_, _) => _ end] => destruct p
      end ].

Lemma Dice_checks cfg code args :
  returns_or_value_error
    (' (count, sides, adv, positive) <- Ok args ;;
     if (count <? 1) || (MAX_DICE_COUNT cfg <? count) then Raise (count_out_of_range cfg count)
     else if sides <? 1 then
       Raise (mkDiceValueError "{I18N:dice.message.error.value.sides.out_of_range}"
                (Some (VInt sides)))
     else if sides =? 1 then
       Raise (mkDiceValueError "{I18N:dice.message.error.value.sides.d1}" None)
     else if count <? adv then
       Raise (mkDiceValueError "{I18N:dice.message.error.value.advantage.out_of_range}"
                (Some (VInt adv)))
     else Ok (mkDice code count sides adv positive)).
Proof. destruct args as [[[count sides] adv] positive]. cbn [bindR]. value_checks. Qed.

(** The three ways [Dice.__init__] can go, by the characters of the code. *)
Lemma Dice_init_outcome cfg code :
  let dice_code := Py.replace "D%" "D100" (Py.upper code) in
  if Py.search_outside (fun c => Py.is_digit c || one_of "DKQ%" c) dice_code
  then Dice_init cfg code = Raise invalid
  else if Py.contains "D" dice_code
       then returns_or_value_error (Dice_init cfg code)
       else Dice_init cfg code = Raise IndexError.
Proof.
  intros dice_code. unfold Dice_init, Dice_get_args. fold dice_code.
  destruct (Py.search_outside _ dice_code); [reflexivity|].
  destruct (Py.contains "D" dice_code) eqn:ED.
  - destruct (split_present _ _ ED) as (t0 & t1 & l & ->). cbn [index nth_error bindR].
    destruct (if Py.contains "K" t1
              then let '(before, _, after) := Py.partition "K" t1 in (before, after, 1)
              else if Py.contains "Q" t1
                   then let '(before, _, after) := Py.partition "Q" t1 in (before, after, -1)
                   else (t1, "0", 0)) as [[dice_sides dice_adv] positive].
    destruct (isint (if nonempty t0 then t0 else "1")) eqn:E0; cbn [negb bindR];
      [|value_checks].
    destruct (isint dice_sides) eqn:E1; cbn [negb bindR]; [|value_checks].
    destruct (isint (if negb (positive =? 0) && negb (nonempty dice_adv) then "1" else dice_adv))
      eqn:E2; cbn [negb bindR]; [|value_checks].
    destruct (to_int_after_isint _ (fun c => s <- to_int dice_sides ;; a <- to_int
      (if negb (positive =? 0) && negb (nonempty dice_adv) then "1" else dice_adv) ;;
      Ok (c, s, a, positive)) E0) as [c Ec].
    destruct (to_int_after_isint _ (fun s => a <- to_int
      (if negb (positive =? 0) && negb (nonempty dice_adv) then "1" else dice_adv) ;;
      Ok (c, s, a, positive)) E1) as [s Es].
    destruct (to_int_after_isint _ (fun a => Ok (c, s, a, positive)) E2) as [a Ea].
    cbv beta in Ec, Es, Ea. rewrite Ec, Es, Ea. apply Dice_checks.
  - rewrite (split_absent _ _ ED). reflexivity.
Qed.

Lemma split_head c s : exists h t, Py.split c s = h :: t.
Proof.
  destruct s as [|a s]; cbn [Py.split]; [eauto|].
  destruct (Ascii.eqb a c); [eauto|]. destruct (Py.split c s); eauto.
Qed.

Lemma FudgeDice_init_outcome cfg code :
  if Py.search_outside (fun c => Py.is_digit c || one_of "F" c)
       (Py.replace "D" EmptyString (Py.upper code))
  then FudgeDice_init cfg code = Raise invalid
  else returns_or_value_error (FudgeDice_init cfg code).
Proof.
  unfold FudgeDice_init, FudgeDice_get_args.
  destruct (Py.search_outside _ (Py.replace "D" EmptyString (Py.upper code))); [reflexivity|].
  destruct (split_head "F" (Py.replace "D" EmptyString (Py.upper code))) as (t0 & l & ->).
  cbn [index nth_error bindR]. value_checks.
Qed.

Lemma BonusPunishDice_init_outcome cfg code :
  if Py.search_outside (fun c => Py.is_digit c || one_of "BP" c) (Py.upper code)
  then BonusPunishDice_init cfg code = Raise invalid
  else if Py.contains "B" (Py.upper code) || Py.contains "P" (Py.upper code)
       then returns_or_value_error (BonusPunishDice_init cfg code)
       else BonusPunishDice_init cfg code = Raise UnboundLocalError.
Proof.
  unfold BonusPunishDice_init, BonusPunishDice_get_args.
  destruct (Py.search_outside _ (Py.upper code)); [reflexivity|].
  destruct (Py.contains "B" (Py.upper code)) eqn:EB; cbn [orb].
  - destruct (split_present _ _ EB) as (t0 & t1 & l & ->). cbn [index nth_error bindR].
    value_checks.
  - destruct (Py.contains "P" (Py.upper code)) eqn:EP.
    + destruct (split_present _ _ EP) as (t0 & t1 & l & ->). cbn [index nth_error bindR].
      value_checks.
    + reflexivity.
Qed.

Lemma WODDice_init_outcome cfg code :
  match re_match_WOD (Py.upper code) with
  | None => WODDice_init cfg code = Raise invalid
  | Some _ => returns_or_value_error (WODDice_init cfg code)
  end.
Proof.
  unfold WODDice_init, WODDice_get_args.
  destruct (re_match_WOD (Py.upper code)) as [[[[[g1 g2] g3] g4] g5]|]; [|reflexivity].
  value_checks.
Qed.

Lemma DXDice_init_outcome cfg code :
  match re_match_DX (Py.upper code) with
  | None => DXDice_init cfg code = Raise invalid
  | Some _ => returns_or_value_error (DXDice_init cfg code)
  end.
Proof.
  unfold DXDice_init, DXDice_get_args.
  destruct (re_match_DX (Py.upper code)) as [[[g1 g2] g3]|]; [|reflexivity].
  value_checks.
Qed.

Lemma search_outside_and (f g : ascii -> bool) s :
  Py.search_outside (fun c => f c && g c) s = Py.search_outside f s || Py.search_outside g s.
Proof.
  induction s as [|a s IH]; cbn [Py.search_outside]; [reflexivity|].
  rewrite IH. destruct (f a), (g a), (Py.search_outside f s); reflexivity.
Qed.

Lemma Dice_foreign code :
  Py.search_outside (fun c => Py.is_digit c || one_of "DKQ%" c)
    (Py.replace "D%" "D100" (Py.upper code))
  = has_char_outside "0123456789dDkKqQ%" code.
Proof.
  unfold Py.replace, has_char_outside.
  rewrite search_outside_replace by reflexivity. rewrite search_outside_upper.
  apply search_outside_ext. intros c. apply Dice_alphabet.
Qed.

Lemma Fudge_foreign code :
  Py.search_outside (fun c => Py.is_digit c || one_of "F" c)
    (Py.replace "D" EmptyString (Py.upper code))
  = has_char_outside "0123456789dDfF" code.
Proof.
  unfold Py.replace, has_char_outside.
  rewrite search_outside_remove by lia. rewrite search_outside_upper.
  apply search_outside_ext. intros c. apply Fudge_alphabet.
Qed.

Lemma BonusPunish_foreign code :
  Py.search_outside (fun c => Py.is_digit c || one_of "BP" c) (Py.upper code)
  = has_char_outside "0123456789bBpP" code.
Proof.
  unfold has_char_outside. rewrite search_outside_upper.
  apply search_outside_ext. intros c. apply BonusPunish_alphabet.
Qed.

Lemma not_a_syntax_error {A} (r : Res A) text :
  returns_or_value_error r -> r <> Raise (DiceSyntaxError text).
Proof. intros Hr ->. exact Hr. Qed.

Lemma value_errors_are_dice_errors {A} (r : Res A) :
  returns_or_value_error r -> only_dice_errors r.
Proof. destruct r as [a|[]|]; cbn; intros Hr; try reflexivity; try exact I; destruct Hr. Qed.

(** X9. A code is refused as a syntax error exactly when it has a character
    outside the alphabet of its notation (case ignored): digits, [D], [K],
    [Q] and [%] for the standard dice; digits, [D] and [F] for the Fudge
    dice; digits, [B] and [P] for the bonus/punish dice. *)
Theorem syntax_error_on_foreign_characters cfg code :
  ((exists text, Dice_init cfg code = Raise (DiceSyntaxError text))
   <-> has_char_outside "0123456789dDkKqQ%" code = true)
  /\ ((exists text, FudgeDice_init cfg code = Raise (DiceSyntaxError text))
      <-> has_char_outside "0123456789dDfF" code = true)
  /\ ((exists text, BonusPunishDice_init cfg code = Raise (DiceSyntaxError text))
      <-> has_char_outside "0123456789bBpP" code = true).
Proof.
  split; [|split].
  - pose proof (Dice_init_outcome cfg code) as Ho. cbv zeta in Ho.
    rewrite Dice_foreign in Ho. destruct (has_char_outside _ code).
    + split; [reflexivity|]. intros _. now exists "{I18N:dice.message.error.invalid}".
    + split; [|discriminate]. intros [text E]. exfalso.
      destruct (Py.contains "D" _).
      * exact (not_a_syntax_error _ text Ho E).
      * congruence.
  - pose proof (FudgeDice_init_outcome cfg code) as Ho.
    rewrite Fudge_foreign in Ho. destruct (has_char_outside _ code).
    + split; [reflexivity|]. intros _. now exists "{I18N:dice.message.error.invalid}".
    + split; [|discriminate]. intros [text E]. exfalso.
      exact (not_a_syntax_error _ text Ho E).
  - pose proof (BonusPunishDice_init_outcome cfg code) as Ho.
    rewrite BonusPunish_foreign in Ho. destruct (has_char_outside _ code).
    + split; [reflexivity|]. intros _. now exists "{I18N:dice.message.error.invalid}".
    + split; [|discriminate]. intros [text E]. exfalso.
      destruct (_ || _).
      * exact (not_a_syntax_error _ text Ho E).
      * congruence.
Qed.

Lemma Dice_letters c :
  Py.contains c "0123456789kKqQ%"
  = Py.contains c "0123456789dDkKqQ%" && negb (Ascii.eqb (Py.upper_char c) "D").
Proof. destruct c as [[] [] [] [] [] [] [] []]; reflexivity. Qed.

Lemma BonusPunish_letters c :
  Py.contains c "0123456789"
  = Py.contains c "0123456789bBpP"
    && (negb (Ascii.eqb (Py.upper_char c) "B") && negb (Ascii.eqb (Py.upper_char c) "P")).
Proof. destruct c as [[] [] [] [] [] [] [] []]; reflexivity. Qed.

Lemma Dice_without_D code :
  has_char_outside "0123456789kKqQ%" code
  = has_char_outside "0123456789dDkKqQ%" code
    || Py.contains "D" (Py.replace "D%" "D100" (Py.upper code)).
Proof.
  unfold Py.replace. rewrite contains_replace_percent, contains_upper.
  unfold has_char_outside. rewrite <- search_outside_and.
  apply search_outside_ext. intros c. apply Dice_letters.
Qed.

Lemma BonusPunish_without_letter code :
  has_char_outside "0123456789" code
  = has_char_outside "0123456789bBpP" code
    || (Py.contains "B" (Py.upper code) || Py.contains "P" (Py.upper code)).
Proof.
  rewrite !contains_upper. unfold has_char_outside. rewrite <- !search_outside_and.
  apply search_outside_ext. intros c. apply BonusPunish_letters.
Qed.

(** X10. A standard-dice code without the letter [D] escapes the two errors
    of the module: the constructor raises [IndexError] exactly on the codes
    made of digits, [K], [Q] and [%] only (the empty code among them); on
    every other code it returns or raises one of the module's errors. *)
Theorem standard_code_without_D_raises_IndexError cfg code :
  if has_char_outside "0123456789kKqQ%" code
  then only_dice_errors (Dice_init cfg code)
  else Dice_init cfg code = Raise IndexError.
Proof.
  pose proof (Dice_init_outcome cfg code) as Ho. cbv zeta in Ho.
  rewrite Dice_without_D, <- Dice_foreign.
  destruct (Py.search_outside _ _); cbn [orb]; [now rewrite Ho|].
  destruct (Py.contains "D" _); [now apply value_errors_are_dice_errors | exact Ho].
Qed.

(** X11. A bonus/punish code without [B] or [P] also escapes them: the
    constructor raises [UnboundLocalError] exactly on the codes made of
    digits only (the empty code among them); on every other code it returns
    or raises one of the module's errors. *)
Theorem bonus_punish_code_without_letter_raises_UnboundLocalError cfg code :
  if has_char_outside "0123456789" code
  then only_dice_errors (BonusPunishDice_init cfg code)
  else BonusPunishDice_init cfg code = Raise UnboundLocalError.
Proof.
  pose proof (BonusPunishDice_init_outcome cfg code) as Ho.
  rewrite BonusPunish_without_letter, <- BonusPunish_foreign.
  destruct (Py.search_outside _ _); cbn [orb]; [now rewrite Ho|].
  destruct (_ || _); [now apply value_errors_are_dice_errors | exact Ho].
Qed.

(** X12. The other three constructors never let anything else out: for
    every code, [FudgeDice], [WODDice] and [DXDice] return or raise one of
    the module's two errors. *)
Theorem fudge_wod_dx_raise_only_dice_errors cfg code :
  only_dice_errors (FudgeDice_init cfg code)
  /\ only_dice_errors (WODDice_init cfg code)
  /\ only_dice_errors (DXDice_init cfg code).
Proof.
  split; [|split].
  - pose proof (FudgeDice_init_outcome cfg code) as Ho.
    destruct (Py.search_outside _ _); [now rewrite Ho | now apply value_errors_are_dice_errors].
  - pose proof (WODDice_init_outcome cfg code) as Ho.
    destruct (re_match_WOD _); [now apply value_errors_are_dice_errors | now rewrite Ho].
  - pose proof (DXDice_init_outcome cfg code) as Ho.
    destruct (re_match_DX _); [now apply value_errors_are_dice_errors | now rewrite Ho].
Qed.

(** ** The standard notation, read back *)

Lemma replace_percent_skip s : Py.contains "D" s = false -> forall f rest,
  Py.replace_fuel (String.length s + f) "D%" "D100" (s ++ rest)
  = s ++ Py.replace_fuel f "D%" "D100" rest.
Proof.
  induction s as [|a s IH]; intros E f rest; [reflexivity|].
  cbn [Py.contains] in E. apply orb_false_iff in E as [Ea E].
  cbn [String.length Nat.add append Py.replace_fuel Py.strip_prefix].
  rewrite Ascii.eqb_sym, Ea. now rewrite (IH E).
Qed.

Lemma replace_percent_fixed s : Py.contains "D" s = false -> forall f,
  Py.replace_fuel f "D%" "D100" s = s.
Proof.
  induction s as [|a s IH]; intros E f; [apply replace_percent_nil|].
  cbn [Py.contains] in E. apply orb_false_iff in E as [Ea E].
  destruct f as [|f]; [reflexivity|]. cbn [Py.replace_fuel Py.strip_prefix].
  rewrite Ascii.eqb_sym, Ea. now rewrite (IH E).
Qed.

Lemma replace_percent_notation cs tail :
  Py.contains "D" cs = false -> Py.contains "D" tail = false ->
  Py.replace "D%" "D100" (cs ++ "D" ++ tail)
  = cs ++ "D" ++ match tail with
                 | String "%" r => "100" ++ r
                 | _ => tail
                 end.
Proof.
  intros Hc Ht. unfold Py.replace. rewrite string_length_app.
  rewrite (replace_percent_skip cs Hc). f_equal.
  cbn [append String.length Py.replace_fuel Py.strip_prefix].
  change (Ascii.eqb "D" "D") with true. cbv iota.
  destruct tail as [|b r]; [reflexivity|].
  cbn [Py.contains] in Ht. apply orb_false_iff in Ht as [HbD Hr].
  destruct (Ascii.eqb_spec "%" b) as [<-|Hb].
  - now rewrite (replace_percent_fixed r Hr).
  - rewrite (replace_percent_fixed (String b r)) by (cbn [Py.contains]; now rewrite HbD, Hr).
    destruct b as [[] [] [] [] [] [] [] []]; try reflexivity. congruence.
Qed.

Lemma split_once c s1 s2 :
  Py.contains c s1 = false -> Py.contains c s2 = false ->
  Py.split c (s1 ++ String c s2) = [s1; s2].
Proof.
  intros H1 H2. induction s1 as [|a s1 IH]; cbn [append Py.split].
  - now rewrite Ascii.eqb_refl, (split_absent c s2 H2).
  - cbn [Py.contains] in H1. apply orb_false_iff in H1 as [Ha H1]. now rewrite Ha, (IH H1).
Qed.

Lemma partition_once c s1 s2 :
  Py.contains c s1 = false ->
  Py.partition c (s1 ++ String c s2) = (s1, String c EmptyString, s2).
Proof.
  intros H1. induction s1 as [|a s1 IH]; cbn [append Py.partition].
  - now rewrite Ascii.eqb_refl.
  - cbn [Py.contains] in H1. apply orb_false_iff in H1 as [Ha H1].
    rewrite Ha, (IH H1), contains_app. cbn [Py.contains].
    now rewrite Ascii.eqb_refl, orb_true_r.
Qed.

Lemma nonempty_string s : nonempty s = negb (String.eqb s EmptyString).
Proof. destruct s; reflexivity. Qed.

Lemma digits_allowed (allowed : ascii -> bool) s :
  (forall c, Py.is_digit c = true -> allowed c = true) ->
  Py.all_digits s = true -> Py.search_outside allowed s = false.
Proof. apply search_outside_digits. Qed.

(** [get_args] on a code that, upper-cased and with [D%] spelled out, is a
    count (possibly empty), [D], the sides, and possibly [K] or [Q] with a
    number (possibly empty). *)
Lemma Dice_get_args_parts code cs ms (suffix : option (bool * string)) c s a :
  Py.replace "D%" "D100" (Py.upper code)
  = cs ++ "D" ++ ms ++ match suffix with
                       | None => EmptyString
                       | Some (k, n) => String (if k then "K" else "Q")%char n
                       end ->
  Py.all_digits cs = true -> Py.all_digits ms = true ->
  match suffix with None => True | Some (_, n) => Py.all_digits n = true end ->
  Py.int (if nonempty cs then cs else "1") = Some c ->
  Py.int ms = Some s ->
  Py.int match suffix with
         | None => "0"
         | Some (_, n) => if nonempty n then n else "1"
         end = Some a ->
  Dice_get_args code
  = Ok (c, s, a, match suffix with None => 0 | Some (true, _) => 1 | Some (false, _) => -1 end).
Proof.
  intros Hcode Hcs Hms Hn Ic Is Ia. unfold Dice_get_args. rewrite Hcode.
  assert (Hd : forall x, Py.is_digit x = true ->
                         Py.is_digit x || one_of "DKQ%" x = true) by (intros x ->; reflexivity).
  replace (Py.search_outside _ _) with false.
  2:{ symmetry. rewrite search_outside_app. cbn [append Py.search_outside].
      rewrite search_outside_app, !(digits_allowed _ _ Hd) by assumption.
      destruct suffix as [[[] n]|]; cbn [Py.search_outside]; [| |reflexivity];
        now rewrite (digits_allowed _ _ Hd). }
  assert (HD : Py.contains "D" (ms ++ match suffix with
                                      | None => EmptyString
                                      | Some (k, n) => String (if k then "K" else "Q")%char n
                                      end) = false).
  { rewrite contains_app, (digits_do_not_contain "D" ms Hms eq_refl).
    destruct suffix as [[[] n]|]; cbn [Py.contains orb]; [| |reflexivity];
      now rewrite (digits_do_not_contain "D" n Hn eq_refl). }
  cbn [append]. rewrite (split_once "D" cs _ (digits_do_not_contain "D" cs Hcs eq_refl) HD).
  cbn [index nth_error bindR].
  destruct suffix as [[[] n]|].
  - rewrite contains_app. cbn [Py.contains]. change (Ascii.eqb "K" "K") with true.
    rewrite orb_true_r, (partition_once "K" ms n (digits_do_not_contain "K" ms Hms eq_refl)).
    cbn [Z.eqb negb andb]. unfold isint, to_int.
    destruct (nonempty n); cbn [negb]; rewrite Ic, Is, Ia; reflexivity.
  - rewrite !contains_app. cbn [Py.contains].
    change (Ascii.eqb "Q" "K") with false. change (Ascii.eqb "Q" "Q") with true.
    rewrite (digits_do_not_contain "K" ms Hms eq_refl), (digits_do_not_contain "K" n Hn eq_refl).
    rewrite orb_true_r. cbn [orb].
    rewrite (partition_once "Q" ms n (digits_do_not_contain "Q" ms Hms eq_refl)).
    cbn [Z.eqb negb andb]. unfold isint, to_int.
    destruct (nonempty n); cbn [negb]; rewrite Ic, Is, Ia; reflexivity.
  - rewrite string_app_nil_r, (digits_do_not_contain "K" ms Hms eq_refl),
      (digits_do_not_contain "Q" ms Hms eq_refl).
    cbn [Z.eqb negb andb]. unfold isint, to_int. rewrite Ic, Is, Ia. reflexivity.
Qed.

Lemma opt_number_digits n : nonneg_opt n -> Py.all_digits (opt_number n) = true.
Proof. destruct n as [z|]; [|reflexivity]. intros Hz. apply (str_nonneg z Hz). Qed.

Lemma opt_number_int n d : nonneg_opt n -> 0 <= d ->
  Py.int (if nonempty (opt_number n) then opt_number n else Py.str d) = Some (default n d).
Proof.
  destruct n as [z|]; cbn [opt_number default nonneg_opt]; intros Hz Hd.
  - destruct (str_nonneg z Hz) as (Hne & _ & Hi).
    destruct (Py.str z); [congruence | exact Hi].
  - apply int_str.
Qed.

Lemma Dice_get_args_notation code count sides keep :
  Py.upper code = Dice_notation count sides keep ->
  nonneg_opt count -> nonneg_opt sides ->
  match keep with KeepAll => True | KeepHighest n | KeepLowest n => nonneg_opt n end ->
  Dice_get_args code
  = Ok (Dice_count (Dice_meant code count sides keep),
        Dice_sides (Dice_meant code count sides keep),
        Dice_adv (Dice_meant code count sides keep),
        Dice_positive (Dice_meant code count sides keep)).
Proof.
  intros Hup Hc Hs Hk.
  set (suffix := match keep with
                 | KeepAll => None
                 | KeepHighest n => Some (true, opt_number n)
                 | KeepLowest n => Some (false, opt_number n)
                 end).
  set (suf := match suffix with
              | None => EmptyString
              | Some (k, n) => String (if k then "K" else "Q")%char n
              end).
  set (ms := match sides with Some m => Py.str m | None => "100" end).
  assert (Hms : Py.all_digits ms = true /\ Py.int ms = Some (default sides 100)).
  { subst ms. destruct sides as [m|]; [|split; reflexivity].
    destruct (str_nonneg m Hs) as (_ & Hd & Hi). now split. }
  assert (Hsufd : match suffix with None => True | Some (_, n) => Py.all_digits n = true end).
  { subst suffix. destruct keep as [|n|n]; [exact I | |]; now apply opt_number_digits. }
  assert (HsufD : Py.contains "D" suf = false).
  { subst suf. destruct suffix as [[[] n]|]; cbn [Py.contains orb]; [| |reflexivity];
      now apply digits_do_not_contain. }
  assert (Hcode : Py.replace "D%" "D100" (Py.upper code) = opt_number count ++ "D" ++ ms ++ suf).
  { rewrite Hup. unfold Dice_notation.
    replace (match keep with
             | KeepAll => EmptyString
             | KeepHighest n => "K" ++ opt_number n
             | KeepLowest n => "Q" ++ opt_number n
             end) with suf by (subst suf suffix; now destruct keep).
    rewrite replace_percent_notation.
    - subst ms. destruct sides as [m|]; [|reflexivity].
      destruct (str_nonneg m Hs) as (Hne & Hd & _).
      destruct (Py.str m) as [|b r]; [congruence|]. cbn [append].
      cbn [Py.all_digits] in Hd. apply andb_prop in Hd as [Hb _].
      destruct b as [[] [] [] [] [] [] [] []]; try reflexivity; discriminate Hb.
    - apply digits_do_not_contain; [now apply opt_number_digits | reflexivity].
    - destruct sides as [m|]; [|exact HsufD].
      rewrite contains_app, HsufD, orb_false_r.
      apply digits_do_not_contain; [apply (str_nonneg m Hs) | reflexivity]. }
  rewrite (Dice_get_args_parts code (opt_number count) ms suffix
             (default count 1) (default sides 100)
             match keep with KeepAll => 0 | KeepHighest n | KeepLowest n => default n 1 end
             Hcode (opt_number_digits count Hc) (proj1 Hms) Hsufd
             (opt_number_int count 1 Hc ltac:(lia)) (proj2 Hms)).
  - subst suffix. destruct keep; reflexivity.
  - subst suffix. destruct keep as [|n|n]; [reflexivity | |];
      exact (opt_number_int n 1 Hk ltac:(lia)).
Qed.

(** X13. The standard notation reads back: a code that upper-cases to an
    optional count, [D], the sides or [%], and an optional [K] or [Q] with
    an optional number is accepted, when the numbers are in range, as that
    count (1 when left out) of dice of that many sides (100 for [%]),
    keeping that many (1 when the number is left out) of the highest ([K])
    or of the lowest ([Q]) dice, or all of them (no suffix). *)
Theorem standard_notation_read_back cfg code count sides keep :
  Py.upper code = Dice_notation count sides keep ->
  1 <= Dice_count (Dice_meant code count sides keep) <= MAX_DICE_COUNT cfg ->
  2 <= Dice_sides (Dice_meant code count sides keep) ->
  0 <= Dice_adv (Dice_meant code count sides keep) <= Dice_count (Dice_meant code count sides keep) ->
  Dice_init cfg code = Ok (Dice_meant code count sides keep).
Proof.
  intros Hup Hc Hs Ha. unfold Dice_init.
  rewrite (Dice_get_args_notation code count sides keep Hup).
  - cbn [bindR]. bool_to_Z.
    replace (_ <? 1) with false by (symmetry; apply Z.ltb_ge; lia).
    replace (MAX_DICE_COUNT cfg <? _) with false by (symmetry; apply Z.ltb_ge; lia).
    replace (Dice_sides _ <? 1) with false by (symmetry; apply Z.ltb_ge; lia).
    replace (Dice_sides _ =? 1) with false by (symmetry; apply Z.eqb_neq; lia).
    replace (Dice_count _ <? Dice_adv _) with false by (symmetry; apply Z.ltb_ge; lia).
    reflexivity.
  - destruct count; cbn in *; [lia | exact I].
  - destruct sides; cbn in *; [lia | exact I].
  - destruct keep as [|[n|]|[n|]]; cbn in *; try exact I; lia.
Qed.

Lemma standard_notation_read_back_witness :
  Dice_init default_config "d%q" = Ok (mkDice "d%q" 1 100 1 (-1)).
Proof.
  apply (standard_notation_read_back default_config "d%q" None None (KeepLowest None));
    [reflexivity | cbn; lia | cbn; lia | cbn; lia].
Defined.

(** ** The notations of the exploding pools, read back *)

Lemma span_digits_app ds rest :
  Py.all_digits ds = true -> begins_with Py.is_digit rest = false ->
  Py.span_digits (ds ++ rest) = (ds, rest).
Proof.
  intros Hd Hr. induction ds as [|a ds IH]; cbn [append].
  - destruct rest as [|b r]; [reflexivity|]. cbn [begins_with] in Hr.
    cbn [Py.span_digits]. now rewrite Hr.
  - cbn [Py.all_digits] in Hd. apply andb_prop in Hd as [Ha Hd].
    cbn [Py.span_digits]. now rewrite Ha, (IH Hd).
Qed.

Lemma nonempty_str z : 0 <= z -> nonempty (Py.str z) = true.
Proof.
  intros Hz. destruct (str_nonneg z Hz) as (Hne & _). destruct (Py.str z); [congruence | reflexivity].
Qed.

Lemma re_two_numbers_notation c n1 n2 rest :
  0 <= n1 -> 0 <= n2 -> Py.is_digit c = false -> begins_with Py.is_digit rest = false ->
  re_two_numbers c (Py.str n1 ++ String c (Py.str n2 ++ rest))
  = Some (Py.str n1, Py.str n2, rest).
Proof.
  intros H1 H2 Hc Hr. unfold re_two_numbers.
  rewrite (span_digits_app (Py.str n1)) by (apply (str_nonneg n1 H1) || exact Hc).
  rewrite (nonempty_str n1 H1), Ascii.eqb_refl.
  rewrite (span_digits_app (Py.str n2)) by (apply (str_nonneg n2 H2) || exact Hr).
  now rewrite (nonempty_str n2 H2).
Qed.

Lemma re_opt_group_notation c v rest :
  nonneg_opt v -> begins_with Py.is_digit rest = false ->
  begins_with (fun a => Ascii.eqb a c) rest = false ->
  re_opt_group c (opt_part c v ++ rest) = (option_map Py.str v, rest).
Proof.
  intros Hv Hd Hc. destruct v as [z|]; cbn [opt_part append option_map nonneg_opt] in *.
  - cbn [re_opt_group]. rewrite Ascii.eqb_refl.
    rewrite (span_digits_app (Py.str z)) by (apply (str_nonneg z Hv) || exact Hd).
    now rewrite (nonempty_str z Hv).
  - destruct rest as [|b r]; [reflexivity|]. cbn [begins_with] in Hc.
    cbn [re_opt_group]. now rewrite Hc.
Qed.

Lemma begins_with_opt_part p c v rest :
  begins_with p (opt_part c v ++ rest)
  = match v with Some _ => p c | None => begins_with p rest end.
Proof. destruct v; reflexivity. Qed.

Lemma begins_with_weaken (p q : ascii -> bool) s :
  (forall a, q a = true -> p a = true) -> begins_with p s = false -> begins_with q s = false.
Proof.
  intros Hpq. destruct s as [|a s]; cbn [begins_with]; [reflexivity|].
  intros Hp. destruct (q a) eqn:E; [|reflexivity]. rewrite (Hpq a E) in Hp. discriminate.
Qed.

Lemma group_or_notation v d : nonneg_opt v -> 0 <= d ->
  Py.int (group_or (option_map Py.str v) (Py.str d)) = Some (default v d).
Proof.
  destruct v as [z|]; cbn [option_map group_or default nonneg_opt]; intros Hv Hd.
  - rewrite (nonempty_str z Hv). apply int_str.
  - apply int_str.
Qed.

Lemma re_match_DX_notation count add_line m rest :
  0 <= count -> 0 <= add_line -> nonneg_opt m ->
  begins_with (fun a => Py.is_digit a || one_of "M" a) rest = false ->
  re_match_DX (DX_notation count add_line m ++ rest)
  = Some (Py.str count, Py.str add_line, option_map Py.str m).
Proof.
  intros Hc Ha Hm Hr. unfold re_match_DX, DX_notation.
  assert (Hrd : begins_with Py.is_digit rest = false)
    by (apply (begins_with_weaken _ _ rest) with (2 := Hr); intros a E; now rewrite E).
  assert (HrM : begins_with (fun a => Ascii.eqb a "M") rest = false).
  { apply (begins_with_weaken _ _ rest) with (2 := Hr). intros a E.
    apply Ascii.eqb_eq in E. now subst a. }
  rewrite !string_app_assoc. cbn [append].
  rewrite re_two_numbers_notation; try assumption; try reflexivity.
  - now rewrite re_opt_group_notation.
  - rewrite begins_with_opt_part. now destruct m.
Qed.

Lemma re_match_WOD_notation count add_line k q m rest :
  0 <= count -> 0 <= add_line -> nonneg_opt k -> nonneg_opt q -> nonneg_opt m ->
  begins_with (fun a => Py.is_digit a || one_of "KQM" a) rest = false ->
  re_match_WOD (WOD_notation count add_line k q m ++ rest)
  = Some (Py.str count, Py.str add_line,
          option_map Py.str k, option_map Py.str q, option_map Py.str m).
Proof.
  intros Hc Ha Hk Hq Hm Hr. unfold re_match_WOD, WOD_notation.
  assert (Hrd : begins_with Py.is_digit rest = false)
    by (apply (begins_with_weaken _ _ rest) with (2 := Hr); intros a E; now rewrite E).
  assert (Hrl : forall c, one_of "KQM" c = true ->
                          begins_with (fun a => Ascii.eqb a c) rest = false).
  { intros c Hin. apply (begins_with_weaken _ _ rest) with (2 := Hr). intros a E.
    apply Ascii.eqb_eq in E. subst a. rewrite Hin. apply orb_true_r. }
  rewrite !string_app_assoc. cbn [append].
  rewrite re_two_numbers_notation; try assumption; try reflexivity.
  2:{ rewrite !begins_with_opt_part. destruct k, q, m; try reflexivity; exact Hrd. }
  rewrite (re_opt_group_notation "K" k) by
    (try assumption; rewrite !begins_with_opt_part; destruct q, m; try reflexivity;
     (exact Hrd || now apply Hrl)).
  rewrite (re_opt_group_notation "Q" q) by
    (try assumption; rewrite !begins_with_opt_part; destruct m; try reflexivity;
     (exact Hrd || now apply Hrl)).
  rewrite (re_opt_group_notation "M" m) by (try assumption; now apply Hrl).
  reflexivity.
Qed.

Lemma isint_to_int s z : Py.int s = Some z -> isint s = true /\ to_int s = Ok z.
Proof. unfold isint, to_int. now intros ->. Qed.

(** X14. The notation of the exploding success pool reads back, and what
    follows it is ignored: a code that upper-cases to count, [A], explosion
    line, then optionally [K] and the success line, [Q] and the upper
    success line, [M] and the sides, in this order, followed by any text
    that does not begin with a digit or one of these three letters, is
    accepted when the numbers are in range, with 8, 0 and 10 for the parts
    left out. *)
Theorem exploding_pool_notation_read_back cfg code count add_line k q m rest :
  Py.upper code = WOD_notation count add_line k q m ++ rest ->
  begins_with (fun a => Py.is_digit a || one_of "KQM" a) rest = false ->
  1 <= count <= MAX_DICE_COUNT cfg ->
  2 <= default m 10 ->
  add_line = 0 \/ 2 <= add_line <= default m 10 ->
  nonneg_opt k -> nonneg_opt q ->
  WODDice_init cfg code
  = Ok (mkWODDice code count add_line (default k 8) (default q 0) (default m 10)).
Proof.
  intros Hup Hrest Hc Hs Ha Hk Hq.
  assert (Hm : nonneg_opt m) by (destruct m; cbn in *; [lia | exact I]).
  unfold WODDice_init, WODDice_get_args.
  rewrite Hup, re_match_WOD_notation by (assumption || lia).
  destruct (isint_to_int _ _ (int_str count)) as [-> ->].
  destruct (isint_to_int _ _ (int_str add_line)) as [-> ->].
  change "10" with (Py.str 10). change "8" with (Py.str 8). change "0" with (Py.str 0).
  destruct (isint_to_int _ _ (group_or_notation k 8 Hk ltac:(lia))) as [-> ->].
  destruct (isint_to_int _ _ (group_or_notation q 0 Hq ltac:(lia))) as [-> ->].
  destruct (isint_to_int _ _ (group_or_notation m 10 Hm ltac:(lia))) as [-> ->].
  cbn [negb bindR].
  replace (count <? 1) with false by (symmetry; apply Z.ltb_ge; lia).
  replace (MAX_DICE_COUNT cfg <? count) with false by (symmetry; apply Z.ltb_ge; lia).
  replace (default m 10 <? 1) with false by (symmetry; apply Z.ltb_ge; lia).
  replace (default m 10 =? 1) with false by (symmetry; apply Z.eqb_neq; lia).
  cbn [orb].
  replace (negb (add_line =? 0) && ((add_line <? 2) || (default m 10 <? add_line))) with false;
    [reflexivity|].
  symmetry. destruct Ha as [->|Ha]; [reflexivity|].
  replace (add_line <? 2) with false by (symmetry; apply Z.ltb_ge; lia).
  replace (default m 10 <? add_line) with false by (symmetry; apply Z.ltb_ge; lia).
  apply andb_false_r.
Qed.

Lemma exploding_pool_notation_read_back_witness :
  WODDice_init default_config "5a8q9 bonus" = Ok (mkWODDice "5a8q9 bonus" 5 8 8 9 10).
Proof.
  apply (exploding_pool_notation_read_back default_config "5a8q9 bonus" 5 8 None (Some 9) None
           " BONUS"); cbn; (reflexivity || lia || exact I).
Defined.

(** X15. The notation of the double-cross pool reads back in the same way:
    count, [C], explosion line, optionally [M] and the sides (10 when left
    out), followed by any text that does not begin with a digit or [M]. *)
Theorem double_cross_notation_read_back cfg code count add_line m rest :
  Py.upper code = DX_notation count add_line m ++ rest ->
  begins_with (fun a => Py.is_digit a || one_of "M" a) rest = false ->
  1 <= count <= MAX_DICE_COUNT cfg ->
  2 <= add_line <= default m 10 ->
  DXDice_init cfg code = Ok (mkDXDice code count add_line (default m 10)).
Proof.
  intros Hup Hrest Hc Ha.
  assert (Hm : nonneg_opt m) by (destruct m; cbn in *; [lia | exact I]).
  unfold DXDice_init, DXDice_get_args.
  rewrite Hup, re_match_DX_notation by (assumption || lia).
  destruct (isint_to_int _ _ (int_str count)) as [-> ->].
  destruct (isint_to_int _ _ (int_str add_line)) as [-> ->].
  change "10" with (Py.str 10).
  destruct (isint_to_int _ _ (group_or_notation m 10 Hm ltac:(lia))) as [-> ->].
  cbn [negb bindR].
  replace (count <? 1) with false by (symmetry; apply Z.ltb_ge; lia).
  replace (MAX_DICE_COUNT cfg <? count) with false by (symmetry; apply Z.ltb_ge; lia).
  replace (default m 10 <? 1) with false by (symmetry; apply Z.ltb_ge; lia).
  replace (default m 10 =? 1) with false by (symmetry; apply Z.eqb_neq; lia).
  replace (add_line <? 2) with false by (symmetry; apply Z.ltb_ge; lia).
  replace (default m 10 <? add_line) with false by (symmetry; apply Z.ltb_ge; lia).
  reflexivity.
Qed.

Lemma double_cross_notation_read_back_witness :
  DXDice_init default_config "3c7m8" = Ok (mkDXDice "3c7m8" 3 7 8).
Proof.
  apply (double_cross_notation_read_back default_config "3c7m8" 3 7 (Some 8) EmptyString);
    cbn; (reflexivity || lia).
Defined.

(** ** After the constructor: [roll] does not raise *)

Lemma search_outside_split allowed c s :
  Py.search_outside allowed s = false ->
  Forall (fun t => Py.search_outside allowed t = false) (Py.split c s).
Proof.
  induction s as [|a s IH]; cbn [Py.search_outside Py.split]; intros E.
  - now repeat constructor.
  - apply orb_false_iff in E as [Ea E]. specialize (IH E).
    destruct (Ascii.eqb a c); [now constructor|].
    destruct (Py.split c s) as [|h t]; [repeat constructor; cbn; now rewrite Ea|].
    inversion IH as [|? ? Hh Ht]; subst. constructor; [|exact Ht].
    cbn [Py.search_outside]. now rewrite Ea, Hh.
Qed.

Lemma search_outside_partition allowed c s :
  Py.search_outside allowed s = false ->
  Py.search_outside allowed (fst (fst (Py.partition c s))) = false
  /\ Py.search_outside allowed (snd (Py.partition c s)) = false.
Proof.
  induction s as [|a s IH]; cbn [Py.search_outside Py.partition]; intros E.
  - now split.
  - apply orb_false_iff in E as [Ea E]. specialize (IH E).
    destruct (Ascii.eqb a c); [now split|].
    destruct (Py.partition c s) as [[h m] t]. cbn [fst snd] in IH.
    destruct (Py.contains c s); cbn [fst snd Py.search_outside].
    + now rewrite Ea.
    + now rewrite Ea, E.
Qed.

Lemma int_acc_nonneg s : forall acc, 0 <= acc -> 0 <= Py.int_acc acc s.
Proof.
  induction s as [|a s IH]; intros acc Hacc; cbn [Py.int_acc]; [exact Hacc|].
  apply IH. unfold Py.digit_val. lia.
Qed.

(** A number written with the characters of the standard notation has no
    sign. *)
Lemma int_unsigned s z :
  Py.search_outside (fun c => Py.is_digit c || one_of "DKQ%" c) s = false ->
  Py.int s = Some z -> 0 <= z.
Proof.
  intros Hs Hi.
  assert (Hd : Py.int_digits s = Some z).
  { destruct s as [|a r]; [exact Hi|]. cbn [Py.search_outside] in Hs.
    apply orb_false_iff in Hs as [Ha _].
    destruct a as [[] [] [] [] [] [] [] []]; try exact Hi; discriminate Ha. }
  unfold Py.int_digits in Hd. destruct s as [|a r]; [discriminate|].
  destruct (Py.all_digits (String a r)); [|discriminate].
  injection Hd as <-. apply (int_acc_nonneg (String a r) 0). lia.
Qed.

Lemma Dice_init_adv_nonneg cfg code d : Dice_init cfg code = Ok d -> 0 <= Dice_adv d.
Proof.
  unfold Dice_init.
  destruct (Dice_get_args code) as [[[[c sd] a] p]| |] eqn:Hargs; cbn [bindR]; try discriminate.
  intros Hd.
  assert (Ha : 0 <= a).
  { clear Hd. unfold Dice_get_args in Hargs.
    destruct (Py.search_outside _ (Py.replace "D%" "D100" (Py.upper code))) eqn:Hlegal;
      [discriminate|].
    pose proof (search_outside_split _ "D" _ Hlegal) as Hparts.
    destruct (Py.split "D" (Py.replace "D%" "D100" (Py.upper code))) as [|t0 [|t1 l]];
      cbn [index nth_error bindR] in Hargs; try discriminate.
    inversion Hparts as [|? ? _ Hrest]; subst. inversion Hrest as [|? ? Ht1 _]; subst.
    destruct (search_outside_partition _ "K" t1 Ht1) as [_ HK].
    destruct (search_outside_partition _ "Q" t1 Ht1) as [_ HQ].
    assert (Hadv : exists dice_sides dice_adv positive,
      (if Py.contains "K" t1
       then let '(before, _, after) := Py.partition "K" t1 in (before, after, 1)
       else if Py.contains "Q" t1
            then let '(before, _, after) := Py.partition "Q" t1 in (before, after, -1)
            else (t1, "0", 0)) = (dice_sides, dice_adv, positive)
      /\ Py.search_outside (fun c => Py.is_digit c || one_of "DKQ%" c) dice_adv = false).
    { destruct (Py.contains "K" t1).
      - destruct (Py.partition "K" t1) as [[h m] t]. now exists h, t, 1.
      - destruct (Py.contains "Q" t1).
        + destruct (Py.partition "Q" t1) as [[h m] t]. now exists h, t, (-1).
        + now exists t1, "0", 0. }
    destruct Hadv as (dice_sides & dice_adv & positive & E & Hadv). rewrite E in Hargs.
    assert (Hadv' : Py.search_outside (fun c => Py.is_digit c || one_of "DKQ%" c)
                      (if negb (positive =? 0) && negb (nonempty dice_adv) then "1" else dice_adv)
                    = false) by (destruct (_ && _); [reflexivity | exact Hadv]).
    destruct (isint (if nonempty t0 then t0 else "1")); cbn [negb] in Hargs; [|discriminate].
    destruct (isint dice_sides); cbn [negb] in Hargs; [|discriminate].
    destruct (isint (if negb (positive =? 0) && negb (nonempty dice_adv) then "1" else dice_adv));
      cbn [negb] in Hargs; [|discriminate].
    destruct (to_int (if nonempty t0 then t0 else "1")); cbn [bindR] in Hargs; try discriminate.
    destruct (to_int dice_sides); cbn [bindR] in Hargs; try discriminate.
    unfold to_int in Hargs.
    destruct (Py.int (if negb (positive =? 0) && negb (nonempty dice_adv) then "1" else dice_adv))
      as [z|] eqn:Hz; cbn [bindR] in Hargs; [|discriminate].
    injection Hargs as _ _ <- _. exact (int_unsigned _ _ Hadv' Hz). }
  unfold count_out_of_range in Hd. revert Hd. init_cases. intros [= <-]. exact Ha.
Qed.

Section NoRaise.

Context {Src : Type} `{RandomSource Src}.

Lemma Dice_roll_all_returns cfg d (s : Src) :
  1 <= Dice_count d -> Dice_adv d = 0 -> exists out, fst (Dice_roll cfg d s) = Ok out.
Proof.
  intros Hc Ha. unfold Dice_roll. rewrite Ha. cbn [Z.eqb negb].
  pose proof (draw_length (Z.to_nat (Dice_count d)) 1 (Dice_sides d) s) as Hlen.
  destruct (draw (Z.to_nat (Dice_count d)) 1 (Dice_sides d) s) as [xs s1]. cbn [fst] in *.
  destruct (1 <? List.length xs)%nat.
  - destruct (Dice_sum_loop cfg (List.length xs) 0 xs 0 "=[") as [r b]. cbn [bindR].
    eexists; reflexivity.
  - destruct xs as [|x xs]; [cbn [List.length] in Hlen; lia|].
    cbn [index nth_error bindR]. eexists; reflexivity.
Qed.

Lemma WODDice_roll_does_not_raise fuel cfg d (s : Src) :
  0 <= WOD_count d -> does_not_raise (fst (WODDice_roll fuel cfg d s)).
Proof.
  intros Hc.
  destruct (explosion fuel (WOD_explodes d) 1 (WOD_sides d) (Z.to_nat (WOD_count d)) s)
    as [[rs s']|] eqn:Hexp.
  - destruct (WODDice_roll_terminates fuel cfg d s Hc) as [out ->]; [congruence | exact I].
  - pose proof (WOD_while_explosion fuel cfg d (Z.to_nat (WOD_count d)) 0 "=[" s) as Hsim.
    rewrite Z2Nat.id, Hexp in Hsim by lia. unfold WODDice_roll.
    destruct (WOD_while fuel cfg d (WOD_count d) 0 "=[" s) as [r s1].
    cbn [fst] in *. subst r. exact I.
Qed.

Lemma DXDice_roll_does_not_raise fuel cfg d (s : Src) :
  1 <= DX_count d -> does_not_raise (fst (DXDice_roll fuel cfg d s)).
Proof.
  intros Hc.
  destruct (explosion fuel (DX_explodes d) 1 (DX_sides d) (Z.to_nat (DX_count d)) s)
    as [[rs s']|] eqn:Hexp.
  - destruct (DXDice_roll_terminates fuel cfg d s Hc) as [out ->]; [congruence | exact I].
  - pose proof (DX_while_explosion fuel cfg d (Z.to_nat (DX_count d)) 0 None "=[" s) as Hsim.
    rewrite Z2Nat.id, Hexp in Hsim by lia. unfold DXDice_roll.
    destruct (DX_while fuel cfg d (DX_count d) 0 None "=[" s) as [r s1].
    cbn [fst] in *. subst r. exact I.
Qed.

End NoRaise.



(** ** The Fudge and bonus/punish notations, read back *)

Lemma remove_D_skip s : Py.contains "D" s = false -> forall f rest,
  Py.replace_fuel (String.length s + f) "D" EmptyString (s ++ rest)
  = s ++ Py.replace_fuel f "D" EmptyString rest.
Proof.
  induction s as [|a s IH]; intros E f rest; [reflexivity|].
  cbn [Py.contains] in E. apply orb_false_iff in E as [Ea E].
  cbn [String.length Nat.add append Py.replace_fuel Py.strip_prefix].
  rewrite Ascii.eqb_sym, Ea. now rewrite (IH E).
Qed.

Lemma split_first c s1 s2 :
  Py.contains c s1 = false -> exists l, Py.split c (s1 ++ String c s2) = s1 :: l.
Proof.
  intros H1. induction s1 as [|a s1 IH]; cbn [append Py.split].
  - rewrite Ascii.eqb_refl. eauto.
  - cbn [Py.contains] in H1. apply orb_false_iff in H1 as [Ha H1].
    rewrite Ha. destruct (IH H1) as [l ->]. eauto.
Qed.

Lemma Fudge_tail_alphabet c :
  Py.is_digit c || one_of "F" c || Ascii.eqb c "D" = Py.is_digit c || one_of "DF" c.
Proof. destruct c as [[] [] [] [] [] [] [] []]; reflexivity. Qed.

Lemma FudgeDice_get_args_notation code count with_D rest :
  Py.upper code = Fudge_notation count with_D ++ rest ->
  Py.search_outside (fun c => Py.is_digit c || one_of "DF" c) rest = false ->
  nonneg_opt count ->
  FudgeDice_get_args code = Ok (default count 4, 0).
Proof.
  intros Hup Hrest Hc. unfold FudgeDice_get_args. rewrite Hup.
  pose proof (opt_number_digits count Hc) as Hd.
  assert (Hrep : Py.replace "D" EmptyString (Fudge_notation count with_D ++ rest)
                 = opt_number count
                   ++ String "F" (Py.replace_fuel (String.length rest) "D" EmptyString rest)).
  { unfold Py.replace, Fudge_notation. rewrite !string_app_assoc, string_length_app.
    rewrite remove_D_skip by (now apply digits_do_not_contain). f_equal.
    destruct with_D; cbn [append String.length Py.replace_fuel Py.strip_prefix];
      reflexivity. }
  rewrite Hrep.
  replace (Py.search_outside _ _) with false.
  2:{ symmetry. rewrite search_outside_app. cbn [Py.search_outside].
      rewrite search_outside_remove by lia.
      rewrite (search_outside_ext _ _ rest Fudge_tail_alphabet), Hrest.
      rewrite search_outside_digits; auto. intros c ->. reflexivity. }
  destruct (split_first "F" (opt_number count)
              (Py.replace_fuel (String.length rest) "D" EmptyString rest)
              (digits_do_not_contain "F" _ Hd eq_refl)) as [l ->].
  cbn [index nth_error bindR].
  change "4" with (Py.str 4).
  destruct (isint_to_int _ _ (opt_number_int count 4 Hc ltac:(lia))) as [-> ->].
  reflexivity.
Qed.

Lemma BonusPunishDice_get_args_notation code ignored punish count :
  Py.upper code = ignored ++ BonusPunish_notation punish count ->
  Py.all_digits ignored = true ->
  nonneg_opt count ->
  BonusPunishDice_get_args code = Ok (default count 1, punish).
Proof.
  intros Hup Hign Hc. unfold BonusPunishDice_get_args. rewrite Hup.
  pose proof (opt_number_digits count Hc) as Hd.
  assert (Hdig : forall x, Py.is_digit x = true -> Py.is_digit x || one_of "BP" x = true)
    by (intros x ->; reflexivity).
  unfold BonusPunish_notation.
  replace (Py.search_outside _ _) with false.
  2:{ symmetry. rewrite search_outside_app, (search_outside_digits _ _ Hdig Hign).
      destruct punish; cbn [append Py.search_outside orb];
        now rewrite (search_outside_digits _ _ Hdig Hd). }
  change "1" with (Py.str 1).
  destruct (isint_to_int _ _ (opt_number_int count 1 Hc ltac:(lia))) as [Hi Ht].
  destruct punish; cbn [append].
  - rewrite !contains_app. cbn [Py.contains].
    change (Ascii.eqb "P" "B") with false. change (Ascii.eqb "P" "P") with true.
    rewrite (digits_do_not_contain "B" _ Hign eq_refl), (digits_do_not_contain "B" _ Hd eq_refl).
    rewrite orb_true_r. cbn [orb].
    rewrite (split_once "P" ignored _ (digits_do_not_contain "P" _ Hign eq_refl)
               (digits_do_not_contain "P" _ Hd eq_refl)).
    cbn [index nth_error bindR]. rewrite Hi, Ht. reflexivity.
  - rewrite !contains_app. cbn [Py.contains].
    change (Ascii.eqb "B" "B") with true. rewrite orb_true_r.
    rewrite (split_once "B" ignored _ (digits_do_not_contain "B" _ Hign eq_refl)
               (digits_do_not_contain "B" _ Hd eq_refl)).
    cbn [index nth_error bindR]. rewrite Hi, Ht. reflexivity.
Qed.

(** X17. The Fudge notation reads back: a code that upper-cases to an
    optional count, an optional [D] and [F] is accepted, when the count is
    in range, as that many Fudge dice (4 when left out); digits and letters
    of the notation after the [F] are ignored. *)
Theorem fudge_notation_read_back cfg code count with_D rest :
  Py.upper code = Fudge_notation count with_D ++ rest ->
  Py.search_outside (fun c => Py.is_digit c || one_of "DF" c) rest = false ->
  1 <= default count 4 <= MAX_DICE_COUNT cfg ->
  FudgeDice_init cfg code = Ok (mkFudgeDice code (default count 4)).
Proof.
  intros Hup Hrest Hc. unfold FudgeDice_init.
  rewrite (FudgeDice_get_args_notation code count with_D rest Hup Hrest)
    by (destruct count; cbn in *; [lia | exact I]).
  cbn [bindR].
  replace (default count 4 <? 1) with false by (symmetry; apply Z.ltb_ge; lia).
  replace (MAX_DICE_COUNT cfg <? default count 4) with false by (symmetry; apply Z.ltb_ge; lia).
  reflexivity.
Qed.

Lemma fudge_notation_read_back_witness :
  FudgeDice_init default_config "df" = Ok (mkFudgeDice "df" 4).
Proof.
  apply (fudge_notation_read_back default_config "df" None true EmptyString);
    cbn; (reflexivity || lia).
Defined.

(** X18. The bonus/punish notation reads back: a code that upper-cases to
    [B] or [P] and an optional count is accepted, when the count is in
    range, as that many extra tens dice (1 when left out), taking the lowest
    candidate for [B] and the highest for [P]; digits before the letter are
    ignored. *)
Theorem bonus_punish_notation_read_back cfg code ignored punish count :
  Py.upper code = ignored ++ BonusPunish_notation punish count ->
  Py.all_digits ignored = true ->
  1 <= default count 1 <= MAX_DICE_COUNT cfg ->
  BonusPunishDice_init cfg code = Ok (mkBonusPunishDice code (default count 1) punish).
Proof.
  intros Hup Hign Hc. unfold BonusPunishDice_init.
  rewrite (BonusPunishDice_get_args_notation code ignored punish count Hup Hign)
    by (destruct count; cbn in *; [lia | exact I]).
  cbn [bindR].
  replace (default count 1 <? 1) with false by (symmetry; apply Z.ltb_ge; lia).
  replace (MAX_DICE_COUNT cfg <? default count 1) with false by (symmetry; apply Z.ltb_ge; lia).
  reflexivity.
Qed.

Lemma bonus_punish_notation_read_back_witness :
  BonusPunishDice_init default_config "7p2" = Ok (mkBonusPunishDice "7p2" 2 true).
Proof.
  apply (bonus_punish_notation_read_back default_config "7p2" "7" true (Some 2));
    cbn; (reflexivity || lia).
Defined.
